(** * Lead automation: a shallow embedding of [leadautomation.py]

    The Python module keeps a list of lead records (dictionaries) in
    memory, persists it as a JSON document, and reacts to user actions
    by changing records and writing artifacts (emails, call requests,
    proposals, a notification log) to a local outbox.

    Conventions of the embedding:
    - a Python [str] is a [string]; its characters are read as the code
      points U+0000..U+00FF;
    - a Python [float] is a [spec_float] of the binary64 format;
    - a lead is an insertion-ordered dictionary from field names to
      scalar values;
    - effects (clock, files, log, exceptions) are threaded through a
      state-and-exception monad over a [World];
    - a directory of the outbox is a map from file names to contents;
      a write under a name that carries a slash or a NUL taken from a
      lead raises as [open] does, and every other write succeeds. *)

From Stdlib Require Import ZArith NArith List String Ascii Bool Lia.
From Stdlib Require Import Numbers.DecimalString Numbers.DecimalPos Numbers.DecimalZ.
From Stdlib Require Import Floats.SpecFloat.
From stdpp Require Import gmap strings.
Import ListNotations.

Open Scope string_scope.
Open Scope list_scope.

(** ** Text *)

Module Text.

Definition code (c : ascii) : N := N_of_ascii c.

Definition between (lo hi : N) (c : ascii) : bool :=
  ((lo <=? code c) && (code c <=? hi))%N.

Definition has_code (n : N) (c : ascii) : bool := (code c =? n)%N.

(** [str.lower] on one character: A-Z, and the Latin-1 capitals
    U+00C0..U+00DE without the multiplication sign U+00D7. *)
Definition lower_char (c : ascii) : ascii :=
  if between 65 90 c || (between 192 222 c && negb (has_code 215 c))
  then ascii_of_N (code c + 32)
  else c.

Fixpoint lower (s : string) : string :=
  match s with
  | EmptyString => EmptyString
  | String c s' => String (lower_char c) (lower s')
  end.

(** [str.isspace] on one character. *)
Definition isspace (c : ascii) : bool :=
  between 9 13 c || between 28 32 c || has_code 133 c || has_code 160 c.

Definition isdecimal (c : ascii) : bool := between 48 57 c.

(** [str.isalnum] on one character: letters, decimal digits, and the
    Latin-1 superscripts and fractions that count as numeric. *)
Definition isalnum (c : ascii) : bool :=
  between 65 90 c || between 97 122 c || isdecimal c
  || has_code 170 c || has_code 181 c || has_code 186 c
  || between 192 214 c || between 216 246 c || between 248 255 c
  || has_code 178 c || has_code 179 c || has_code 185 c || between 188 190 c.

Fixpoint lstrip (s : string) : string :=
  match s with
  | EmptyString => EmptyString
  | String c s' => if isspace c then lstrip s' else s
  end.

Fixpoint rstrip (s : string) : string :=
  match s with
  | EmptyString => EmptyString
  | String c s' =>
      match rstrip s' with
      | EmptyString => if isspace c then EmptyString else String c EmptyString
      | r => String c r
      end
  end.

Definition strip (s : string) : string := rstrip (lstrip s).

Fixpoint filter (p : ascii -> bool) (s : string) : string :=
  match s with
  | EmptyString => EmptyString
  | String c s' => if p c then String c (filter p s') else filter p s'
  end.

(** [s.replace(a, b)] for one-character [a] and [b]. *)
Fixpoint replace_char (a b : ascii) (s : string) : string :=
  match s with
  | EmptyString => EmptyString
  | String c s' =>
      String (if Ascii.eqb c a then b else c) (replace_char a b s')
  end.

(** The slice [s[:n]]. *)
Fixpoint take (n : nat) (s : string) : string :=
  match n, s with
  | S n', String c s' => String c (take n' s')
  | _, _ => EmptyString
  end.

(** The slice [s[-n:]] is not needed; [s[n:]] is. *)
Fixpoint drop (n : nat) (s : string) : string :=
  match n, s with
  | S n', String _ s' => drop n' s'
  | _, _ => s
  end.

Fixpoint startswith (p s : string) : bool :=
  match p, s with
  | EmptyString, _ => true
  | String a p', String b s' => Ascii.eqb a b && startswith p' s'
  | String _ _, EmptyString => false
  end.

(** [p in s] for strings. *)
Fixpoint contains (p s : string) : bool :=
  startswith p s ||
  match s with
  | EmptyString => false
  | String _ s' => contains p s'
  end.

(** The text after the last slash, as [os.path.basename] gives it. *)
Fixpoint basename (s : string) : string :=
  match s with
  | EmptyString => EmptyString
  | String c s' =>
      if contains "/" s then basename s' else s
  end.

Definition str_of_Z (z : Z) : string := NilZero.string_of_int (Z.to_int z).

Definition join_lines (l : list string) : string := String.concat (String "010" EmptyString) l.

End Text.

(** ** Floats

    Python's [float] is IEEE-754 binary64.  Values are [spec_float]s,
    and every conversion rounds to nearest, ties to even, through the
    Standard Library's [binary_round_aux]. *)

Module PyFloat.

Import Text.

Definition float := spec_float.

Definition prec : Z := 53.
Definition emax : Z := 1024.

Definition zero : float := S754_zero false.
Definition one : float := binary_normalize prec emax 1 0 false.

(** [a >= b] on floats; false as soon as a NaN is involved. *)
Definition ge (a b : float) : bool := SFleb b a.

Definition eqb (a b : float) : bool :=
  match a, b with
  | S754_zero s, S754_zero s' => Bool.eqb s s'
  | S754_infinity s, S754_infinity s' => Bool.eqb s s'
  | S754_nan, S754_nan => true
  | S754_finite s m e, S754_finite s' m' e' =>
      Bool.eqb s s' && Pos.eqb m m' && Z.eqb e e'
  | _, _ => false
  end.

Definition is_finite (a : float) : bool :=
  match a with
  | S754_zero _ | S754_finite _ _ _ => true
  | _ => false
  end.

(** The integer [z] as a float. *)
Definition of_Z (z : Z) : float := binary_normalize prec emax z 0 false.

(** The quotient [n / d] of a natural number by a positive one, with
    the sign [neg], as a float. *)
Definition of_ratio (neg : bool) (n d : Z) : float :=
  match n with
  | Z0 => S754_zero neg
  | _ =>
      let '(q, e, l) := SFdiv_core_binary prec emax n 0 d 0 in
      binary_round_aux prec emax neg q e l
  end.

(** The decimal [m * 10^k], with the sign [neg], as a float. *)
Definition of_decimal (neg : bool) (m k : Z) : float :=
  if (0 <=? k)%Z then of_ratio neg (m * 10 ^ k) 1
  else of_ratio neg m (10 ^ (- k)).

(** *** Reading a float: [float(s)] for a string [s] *)

Fixpoint span (p : ascii -> bool) (s : string) : string * string :=
  match s with
  | EmptyString => (EmptyString, EmptyString)
  | String c s' =>
      if p c then let '(a, b) := span p s' in (String c a, b)
      else (EmptyString, s)
  end.

(** The number a text of decimal digits denotes (zero for no digit). *)
Definition Z_of_digits (s : string) : Z :=
  match NilEmpty.uint_of_string s with
  | Some d => Z.of_uint d
  | None => 0%Z
  end.

(** An underscore must stand between two digits; [prev] is the
    character before [s], if any. *)
Fixpoint underscores_ok (prev : option ascii) (s : string) : bool :=
  match s with
  | EmptyString =>
      match prev with
      | Some p => negb (has_code 95 p)
      | None => true
      end
  | String c s' =>
      (if has_code 95 c
       then match prev with Some p => isdecimal p | None => false end
       else match prev with
            | Some p => negb (has_code 95 p) || isdecimal c
            | None => true
            end)
      && underscores_ok (Some c) s'
  end.

Definition split_sign (s : string) : bool * string :=
  match s with
  | String c s' =>
      if has_code 45 c then (true, s')
      else if has_code 43 c then (false, s')
      else (false, s)
  | EmptyString => (false, s)
  end.

(** The exponent part: empty, or [e] or [E], an optional sign and at
    least one digit, up to the end of the text. *)
Definition read_exponent (s : string) : option Z :=
  match s with
  | EmptyString => Some 0%Z
  | String c s' =>
      if has_code 101 c || has_code 69 c then
        let '(neg, s'') := split_sign s' in
        match span isdecimal s'' with
        | (String d ds, EmptyString) =>
            let v := Z_of_digits (String d ds) in
            Some (if neg then (- v)%Z else v)
        | _ => None
        end
      else None
  end.

(** An unsigned decimal numeral: digits, an optional point and more
    digits (at least one digit in all), then the exponent part. *)
Definition read_decimal (neg : bool) (s : string) : option float :=
  let '(ip, r) := span isdecimal s in
  let '(fp, r') :=
    match r with
    | String c r1 => if has_code 46 c then span isdecimal r1 else (EmptyString, r)
    | EmptyString => (EmptyString, r)
    end in
  match (ip +:+ fp)%string with
  | EmptyString => None
  | ds =>
      match read_exponent r' with
      | Some ex => Some (of_decimal neg (Z_of_digits ds) (ex - Z.of_nat (String.length fp)))
      | None => None
      end
  end.

(** [float(s)]: [None] stands for the [ValueError] Python raises. *)
Definition of_str (s : string) : option float :=
  let t := strip s in
  if negb (underscores_ok None t) then None else
  let t := filter (fun c => negb (has_code 95 c)) t in
  let '(neg, u) := split_sign t in
  let lu := lower u in
  if String.eqb lu "inf" || String.eqb lu "infinity" then Some (S754_infinity neg)
  else if String.eqb lu "nan" then Some S754_nan
  else read_decimal neg u.

(** *** Writing a float: [repr(x)]

    [repr] gives the shortest decimal text that reads back as the same
    float, and among the shortest the one nearest to it. *)

(** Numerator and denominator of [m * 2^e / 10^k]. *)
Definition scaled (m : positive) (e k : Z) : Z * Z :=
  let n := if (0 <=? e)%Z then (Zpos m * 2 ^ e)%Z else Zpos m in
  let d := if (0 <=? e)%Z then 1%Z else (2 ^ (- e))%Z in
  if (0 <=? k)%Z then (n, (d * 10 ^ k)%Z) else ((n * 10 ^ (- k))%Z, d).

(** The least [p] from [p0] upwards with [m * 2^e < 10^p]. *)
Fixpoint find_decpt (fuel : nat) (m : positive) (e p : Z) : Z :=
  match fuel with
  | O => p
  | S fuel' =>
      let '(n, d) := scaled m e p in
      if (n <? d)%Z then p else find_decpt fuel' m e (p + 1)
  end.

Definition decpt_of (m : positive) (e : Z) : Z :=
  let b := (Zpos (digits2_pos m) + e)%Z in
  find_decpt 8 m e ((b - 1) * 30103 / 100000 - 1).

(** The neighbours of [m * 2^e / 10^k] among the integers, nearest
    first (the even one first on a tie). *)
Definition neighbours (m : positive) (e k : Z) : list Z :=
  let '(n, d) := scaled m e k in
  let lo := (n / d)%Z in
  let r := (n mod d)%Z in
  if (r =? 0)%Z then [lo]
  else match (2 * r ?= d)%Z with
       | Lt => [lo; (lo + 1)%Z]
       | Gt => [(lo + 1)%Z; lo]
       | Eq => if Z.even lo then [lo; (lo + 1)%Z] else [(lo + 1)%Z; lo]
       end.

(** The positive ones among the neighbours. *)
Definition candidates (m : positive) (e k : Z) : list Z :=
  List.filter (Z.ltb 0) (neighbours m e k).

Fixpoint zeros (n : nat) : string :=
  match n with
  | O => EmptyString
  | S n' => String "0" (zeros n')
  end.

Fixpoint rstrip_zeros (s : string) : string :=
  match s with
  | EmptyString => EmptyString
  | String c s' =>
      match rstrip_zeros s' with
      | EmptyString => if has_code 48 c then EmptyString else String c EmptyString
      | r => String c r
      end
  end.

Definition exponent_text (x : Z) : string :=
  let a := str_of_Z (Z.abs x) in
  ((if (x <? 0)%Z then "-" else "+")
   +:+ (if (String.length a <? 2)%nat then "0" else "") +:+ a)%string.

(** The digits [ds], read as [0.ds * 10^decpt], in the layout of
    [repr]: scientific when [decpt <= -4] or [decpt > 16]. *)
Definition layout (ds : string) (decpt : Z) : string :=
  let n := Z.of_nat (String.length ds) in
  if (decpt <=? -4)%Z || (16 <? decpt)%Z then
    match ds with
    | String d EmptyString => String d ("e" +:+ exponent_text (decpt - 1))
    | String d rest => String d ("." +:+ rest +:+ "e" +:+ exponent_text (decpt - 1))
    | EmptyString => EmptyString
    end
  else if (decpt <=? 0)%Z then "0." +:+ zeros (Z.to_nat (- decpt)) +:+ ds
  else if (n <=? decpt)%Z then ds +:+ zeros (Z.to_nat (decpt - n)) +:+ ".0"
  else take (Z.to_nat decpt) ds +:+ "." +:+ drop (Z.to_nat decpt) ds.

(** The text of the decimal [c * 10^k], [c] positive. *)
Definition render (neg : bool) (c k : Z) : string :=
  let t := str_of_Z c in
  ((if neg then "-" else "")
   +:+ layout (rstrip_zeros t) (k + Z.of_nat (String.length t)))%string.

Definition reads_back (x : float) (s : string) : bool :=
  match of_str s with
  | Some y => eqb x y
  | None => false
  end.

(** The first text with [n], [n+1], ... digits that reads back. *)
Fixpoint shortest (fuel : nat) (n : Z) (x : float) (neg : bool)
    (m : positive) (e p : Z) : option string :=
  match fuel with
  | O => None
  | S fuel' =>
      let texts := map (fun c => render neg c (p - n)) (candidates m e (p - n)) in
      match List.find (reads_back x) texts with
      | Some t => Some t
      | None => shortest fuel' (n + 1) x neg m e p
      end
  end.

Definition repr (x : float) : string :=
  match x with
  | S754_nan => "nan"
  | S754_infinity s => if s then "-inf" else "inf"
  | S754_zero s => if s then "-0.0" else "0.0"
  | S754_finite s m e =>
      let p := decpt_of m e in
      match shortest 17 1 x s m e p with
      | Some t => t
      | None => render s (hd 1%Z (candidates m e (p - 17))) (p - 17)
      end
  end.

(** Seventeen digits are enough for every binary64 value; [repr_exact]
    records that the search has found its text. *)
Definition repr_exact (x : float) : bool := reads_back x (repr x).

End PyFloat.

(** ** Values, dictionaries and exceptions *)

Inductive exn : Type :=
  | ValueError
  | TypeError
  | AttributeError
  | OverflowError
  | FileNotFoundError
  | NotADirectoryError
  | StopIteration.

Inductive outcome (A : Type) : Type :=
  | Ok (a : A)
  | Raise (e : exn).

Arguments Ok {A} a.
Arguments Raise {A} e.

Definition obind {A B : Type} (m : outcome A) (k : A -> outcome B) : outcome B :=
  match m with
  | Ok a => k a
  | Raise e => Raise e
  end.

(** The scalar values a field of a lead holds: [None], [bool], [int],
    [float] and [str]. *)
Inductive value : Type :=
  | VNone
  | VBool (b : bool)
  | VInt (z : Z)
  | VFloat (x : PyFloat.float)
  | VStr (s : string).

Module Value.

Import Text.

(** Truth value testing, as [if v], [not v] and [v or w] use it. *)
Definition truthy (v : value) : bool :=
  match v with
  | VNone => false
  | VBool b => b
  | VInt z => negb (z =? 0)%Z
  | VFloat x =>
      match x with
      | S754_zero _ => false
      | _ => true
      end
  | VStr s =>
      match s with
      | EmptyString => false
      | _ => true
      end
  end.

(** [a or b]. *)
Definition por (a b : value) : value := if truthy a then a else b.

(** [str(v)], which is also how an f-string field renders [v]. *)
Definition str (v : value) : string :=
  match v with
  | VNone => "None"
  | VBool b => if b then "True" else "False"
  | VInt z => str_of_Z z
  | VFloat x => PyFloat.repr x
  | VStr s => s
  end.

(** [float(v)]. *)
Definition to_float (v : value) : outcome PyFloat.float :=
  match v with
  | VNone => Raise TypeError
  | VBool b => Ok (if b then PyFloat.one else PyFloat.zero)
  | VInt z =>
      match PyFloat.of_Z z with
      | S754_infinity _ => Raise OverflowError
      | x => Ok x
      end
  | VFloat x => Ok x
  | VStr s =>
      match PyFloat.of_str s with
      | Some x => Ok x
      | None => Raise ValueError
      end
  end.

(** [v.lower()]: only a [str] has the method. *)
Definition lower (v : value) : outcome string :=
  match v with
  | VStr s => Ok (Text.lower s)
  | _ => Raise AttributeError
  end.

(** Whether the float [x] is exactly the integer [z]. *)
Definition float_is_Z (x : PyFloat.float) (z : Z) : bool :=
  match x with
  | S754_zero _ => (z =? 0)%Z
  | S754_finite s m e =>
      let a := if s then Zneg m else Zpos m in
      if (0 <=? e)%Z then (z =? a * 2 ^ e)%Z
      else ((a mod 2 ^ (- e) =? 0) && (z =? a / 2 ^ (- e)))%Z
  | _ => false
  end.

Definition Z_of_bool (b : bool) : Z := if b then 1%Z else 0%Z.

(** [a == b] on scalars: numbers compare by value across [bool], [int]
    and [float]; a NaN equals nothing. *)
Definition eqb (a b : value) : bool :=
  match a, b with
  | VNone, VNone => true
  | VStr s, VStr t => String.eqb s t
  | VBool x, VBool y => Bool.eqb x y
  | VBool x, VInt z | VInt z, VBool x => (Z_of_bool x =? z)%Z
  | VInt x, VInt y => (x =? y)%Z
  | VFloat x, VFloat y => SFeqb x y
  | VFloat x, VInt z | VInt z, VFloat x => float_is_Z x z
  | VFloat x, VBool b | VBool b, VFloat x => float_is_Z x (Z_of_bool b)
  | _, _ => false
  end.

(** [v in ("New", "Updated")] and the like. *)
Definition among (v : value) (l : list string) : bool :=
  existsb (fun s => eqb v (VStr s)) l.

End Value.

(** A dictionary keeps its keys in insertion order; assigning to a key
    that is present keeps its place. *)
Definition dict : Type := list (string * value).

Module Dict.

Fixpoint lookup (d : dict) (k : string) : option value :=
  match d with
  | [] => None
  | (k', v) :: d' => if String.eqb k' k then Some v else lookup d' k
  end.

(** [d.get(k, dflt)]. *)
Definition get_or (d : dict) (k : string) (dflt : value) : value :=
  match lookup d k with
  | Some v => v
  | None => dflt
  end.

(** [d.get(k)]. *)
Definition get (d : dict) (k : string) : value := get_or d k VNone.

(** [d[k] = v]. *)
Fixpoint setitem (d : dict) (k : string) (v : value) : dict :=
  match d with
  | [] => [(k, v)]
  | (k', v') :: d' =>
      if String.eqb k' k then (k', v) :: d' else (k', v') :: setitem d' k v
  end.

(** [d.setdefault(k, v)], for its effect on [d]. *)
Definition setdefault (d : dict) (k : string) (v : value) : dict :=
  match lookup d k with
  | Some _ => d
  | None => setitem d k v
  end.

(** [for k, v in src.items(): d[k] = v]. *)
Definition update (d src : dict) : dict :=
  fold_left (fun acc kv => setitem acc (fst kv) (snd kv)) src d.

(** [dict(pairs)]. *)
Definition of_pairs (pairs : list (string * value)) : dict := update [] pairs.

Definition keys (d : dict) : list string := map fst d.

(** A dictionary is true when it is not empty. *)
Definition truthy (d : dict) : bool :=
  match d with
  | [] => false
  | _ :: _ => true
  end.

End Dict.

(** ** JSON text

    [json.dumps(obj, indent=2)] and [json.loads(text)], with the
    defaults of the library: ASCII-only output, [NaN] and [Infinity]
    allowed, strict control characters. *)

#[local] Set Warnings "-register-all".

Inductive json : Type :=
  | JVal (v : value)
  | JArr (items : list json)
  | JObj (members : list (string * json)).

Module Json.

Import Text.

(** *** Encoding *)

Definition hex_digit (n : N) : ascii :=
  if (n <? 10)%N then ascii_of_N (48 + n) else ascii_of_N (87 + n).

Definition bslash : ascii := "092"%char.
Definition dquote : ascii := "034"%char.

(** A backslash followed by [c]. *)
Definition esc (c : ascii) : string := String bslash (String c EmptyString).

Definition escape_char (c : ascii) : string :=
  if has_code 34 c then esc dquote
  else if has_code 92 c then esc bslash
  else if has_code 10 c then esc "n"
  else if has_code 13 c then esc "r"
  else if has_code 9 c then esc "t"
  else if has_code 8 c then esc "b"
  else if has_code 12 c then esc "f"
  else if between 32 126 c then String c EmptyString
  else String bslash
         (String "u" (String "0" (String "0"
            (String (hex_digit (code c / 16))
               (String (hex_digit (code c mod 16)) EmptyString))))).

Fixpoint escape (s : string) : string :=
  match s with
  | EmptyString => EmptyString
  | String c s' => escape_char c +:+ escape s'
  end.

Definition quote : string := String dquote EmptyString.

Definition encode_string (s : string) : string := quote +:+ escape s +:+ quote.

Definition encode_float (x : PyFloat.float) : string :=
  match x with
  | S754_nan => "NaN"
  | S754_infinity s => if s then "-Infinity" else "Infinity"
  | _ => PyFloat.repr x
  end.

Definition encode_value (v : value) : string :=
  match v with
  | VNone => "null"
  | VBool b => if b then "true" else "false"
  | VInt z => str_of_Z z
  | VFloat x => encode_float x
  | VStr s => encode_string s
  end.

Definition nl : string := String "010" EmptyString.

Fixpoint spaces (n : nat) : string :=
  match n with
  | O => EmptyString
  | S n' => String " " (spaces n')
  end.

(** A line break followed by the indentation of nesting depth [level]. *)
Definition newline_indent (level : nat) : string := nl +:+ spaces (2 * level).

(** The items of a container, one per line at depth [level]. *)
Fixpoint lines (level : nat) (items : list string) : string :=
  match items with
  | [] => EmptyString
  | [x] => x
  | x :: rest => x +:+ "," +:+ newline_indent level +:+ lines level rest
  end.

Definition block (open close : string) (level : nat) (items : list string) : string :=
  match items with
  | [] => open +:+ close
  | _ => open +:+ newline_indent (S level) +:+ lines (S level) items
         +:+ newline_indent level +:+ close
  end.

Fixpoint encode (level : nat) (j : json) : string :=
  match j with
  | JVal v => encode_value v
  | JArr items => block "[" "]" level (map (encode (S level)) items)
  | JObj members =>
      block "{" "}" level
        (map (fun kv => encode_string (fst kv) +:+ ": " +:+ encode (S level) (snd kv))
             members)
  end.

(** [json.dumps(j, indent=2)]. *)
Definition dumps (j : json) : string := encode 0 j.

Definition of_dict (d : dict) : json :=
  JObj (map (fun kv => (fst kv, JVal (snd kv))) d).

Definition of_leads (leads : list dict) : json := JArr (map of_dict leads).

(** *** Decoding

    The store's document is an array of objects with scalar members,
    the shape [save_leads] writes; [loads] recognises this shape, and
    any other text (malformed, or of another shape) is reported as
    undecodable. *)

Definition is_ws (c : ascii) : bool :=
  has_code 32 c || has_code 9 c || has_code 10 c || has_code 13 c.

Fixpoint skip_ws (s : string) : string :=
  match s with
  | EmptyString => EmptyString
  | String c s' => if is_ws c then skip_ws s' else s
  end.

Definition hex_val (c : ascii) : option N :=
  if between 48 57 c then Some (code c - 48)%N
  else if between 97 102 c then Some (code c - 87)%N
  else if between 65 70 c then Some (code c - 55)%N
  else None.

Definition hex4 (a b c d : ascii) : option N :=
  match hex_val a, hex_val b, hex_val c, hex_val d with
  | Some x, Some y, Some z, Some w => Some (((x * 16 + y) * 16 + z) * 16 + w)%N
  | _, _, _, _ => None
  end.

(** The character a one-letter escape stands for. *)
Definition unescape (c : ascii) : option ascii :=
  if has_code 34 c || has_code 92 c || has_code 47 c then Some c
  else if has_code 98 c then Some "008"%char
  else if has_code 102 c then Some "012"%char
  else if has_code 110 c then Some "010"%char
  else if has_code 114 c then Some "013"%char
  else if has_code 116 c then Some "009"%char
  else None.

(** The text of a string literal, read from just after its opening
    quote, and what follows its closing quote. *)
Fixpoint scan_string (s : string) : option (string * string) :=
  match s with
  | EmptyString => None
  | String c s' =>
      if has_code 34 c then Some (EmptyString, s')
      else if has_code 92 c then
        match s' with
        | EmptyString => None
        | String e s'' =>
            if has_code 117 e then
              match s'' with
              | String h1 (String h2 (String h3 (String h4 rest))) =>
                  match hex4 h1 h2 h3 h4 with
                  | Some n =>
                      if (n <=? 255)%N then
                        match scan_string rest with
                        | Some (t, r) => Some (String (ascii_of_N n) t, r)
                        | None => None
                        end
                      else None
                  | None => None
                  end
              | _ => None
              end
            else
              match unescape e with
              | Some ch =>
                  match scan_string s'' with
                  | Some (t, r) => Some (String ch t, r)
                  | None => None
                  end
              | None => None
              end
        end
      else if (code c <? 32)%N then None
      else
        match scan_string s' with
        | Some (t, r) => Some (String c t, r)
        | None => None
        end
  end.

(** The integer part of a number: a single [0], or digits that do not
    start with [0]. *)
Definition scan_int_part (s : string) : option (string * string) :=
  match s with
  | EmptyString => None
  | String c s' =>
      if has_code 48 c then Some (String c EmptyString, s')
      else if between 49 57 c then Some (PyFloat.span isdecimal s)
      else None
  end.

(** The fraction: a point and at least one digit, or nothing. *)
Definition scan_frac (s : string) : string * string :=
  match s with
  | String c s' =>
      if has_code 46 c then
        match PyFloat.span isdecimal s' with
        | (String d ds, r) => (String c (String d ds), r)
        | _ => (EmptyString, s)
        end
      else (EmptyString, s)
  | EmptyString => (EmptyString, s)
  end.

(** The exponent: [e] or [E], an optional sign and at least one digit,
    or nothing. *)
Definition scan_exp (s : string) : string * string :=
  match s with
  | String c s' =>
      if has_code 101 c || has_code 69 c then
        let '(sg, s'') :=
          match s' with
          | String g r =>
              if has_code 45 g || has_code 43 g then (String g EmptyString, r)
              else (EmptyString, s')
          | EmptyString => (EmptyString, s')
          end in
        match PyFloat.span isdecimal s'' with
        | (String d ds, r) => (String c (sg +:+ String d ds), r)
        | _ => (EmptyString, s)
        end
      else (EmptyString, s)
  | EmptyString => (EmptyString, s)
  end.

Definition scan_number (s : string) : option (value * string) :=
  let '(neg, s1) :=
    match s with
    | String c s' => if has_code 45 c then (true, s') else (false, s)
    | EmptyString => (false, s)
    end in
  match scan_int_part s1 with
  | None => None
  | Some (ip, s2) =>
      let '(fp, s3) := scan_frac s2 in
      let '(ep, s4) := scan_exp s3 in
      match (fp +:+ ep)%string with
      | EmptyString =>
          let z := PyFloat.Z_of_digits ip in
          Some (VInt (if neg then (- z)%Z else z), s4)
      | _ =>
          match PyFloat.of_str ((if neg then "-" else "") +:+ ip +:+ fp +:+ ep) with
          | Some x => Some (VFloat x, s4)
          | None => None
          end
      end
  end.

Definition scan_literal (lit : string) (v : value) (s : string) : option (value * string) :=
  if startswith lit s then Some (v, drop (String.length lit) s) else None.

(** A scalar value at the start of [s]. *)
Definition scan_value (s : string) : option (value * string) :=
  match s with
  | EmptyString => None
  | String c s' =>
      if has_code 34 c then
        match scan_string s' with
        | Some (t, r) => Some (VStr t, r)
        | None => None
        end
      else if has_code 110 c then scan_literal "null" VNone s
      else if has_code 116 c then scan_literal "true" (VBool true) s
      else if has_code 102 c then scan_literal "false" (VBool false) s
      else if has_code 78 c then scan_literal "NaN" (VFloat S754_nan) s
      else if has_code 73 c then scan_literal "Infinity" (VFloat (S754_infinity false)) s
      else if startswith "-Infinity" s then
        scan_literal "-Infinity" (VFloat (S754_infinity true)) s
      else scan_number s
  end.

(** The members of an object from the opening quote of a key up to and
    including the closing brace. *)
Fixpoint scan_members (fuel : nat) (s : string) : option (list (string * value) * string) :=
  match fuel with
  | O => None
  | S fuel' =>
      match s with
      | EmptyString => None
      | String q s1 =>
          if negb (has_code 34 q) then None else
          match scan_string s1 with
          | None => None
          | Some (k, s2) =>
              match skip_ws s2 with
              | EmptyString => None
              | String colon s3 =>
                  if negb (has_code 58 colon) then None else
                  match scan_value (skip_ws s3) with
                  | None => None
                  | Some (v, s4) =>
                      match skip_ws s4 with
                      | EmptyString => None
                      | String c s5 =>
                          if has_code 125 c then Some ([(k, v)], s5)
                          else if has_code 44 c then
                            match scan_members fuel' (skip_ws s5) with
                            | Some (ps, r) => Some ((k, v) :: ps, r)
                            | None => None
                            end
                          else None
                      end
                  end
              end
          end
      end
  end.

(** An object, read from just after its opening brace. *)
Definition scan_object (fuel : nat) (s : string) : option (dict * string) :=
  match skip_ws s with
  | EmptyString => None
  | String c s' as t =>
      if has_code 125 c then Some ([], s')
      else
        match scan_members fuel t with
        | Some (ps, r) => Some (Dict.of_pairs ps, r)
        | None => None
        end
  end.

(** The elements of an array from the first element up to and
    including the closing bracket. *)
Fixpoint scan_elements (fuel : nat) (s : string) : option (list dict * string) :=
  match fuel with
  | O => None
  | S fuel' =>
      match s with
      | EmptyString => None
      | String b s1 =>
          if negb (has_code 123 b) then None else
          match scan_object fuel' s1 with
          | None => None
          | Some (d, s2) =>
              match skip_ws s2 with
              | EmptyString => None
              | String c s3 =>
                  if has_code 93 c then Some ([d], s3)
                  else if has_code 44 c then
                    match scan_elements fuel' (skip_ws s3) with
                    | Some (ds, r) => Some (d :: ds, r)
                    | None => None
                    end
                  else None
              end
          end
      end
  end.

(** [json.loads(text)]: [None] stands for the exception raised on
    text that is not a document of the store. *)
Definition loads (text : string) : option (list dict) :=
  let fuel := S (String.length text) in
  match skip_ws text with
  | EmptyString => None
  | String b s1 =>
      if negb (has_code 91 b) then None else
      match skip_ws s1 with
      | EmptyString => None
      | String c s2 as t =>
          let after :=
            if has_code 93 c then Some ([], s2) else scan_elements fuel t in
          match after with
          | Some (ds, r) =>
              match skip_ws r with
              | EmptyString => Some ds
              | _ => None
              end
          | None => None
          end
      end
  end.

End Json.

(** ** The world of the application *)

(** What the language model is asked: the fields of the prompt. *)
Record prompt_inputs : Type := {
  p_company : value;
  p_name : value;
  p_email : value;
  p_use_case : value;
  p_budget : value;
}.

(** The environment the program runs in: the readings of the clock and
    the behaviour of the model backend, which the program does not
    control.  The n-th reading of the clock is rendered by [isoformat]
    (UTC) and by [strftime] (local).  A call of the backend yields
    either the text of its answer or the message of the exception it
    raises. *)
Record Env : Type := {
  utc_iso : nat -> string;
  local_stamp : nat -> string;
  LLM_AVAILABLE : bool;
  ollama : nat -> value -> value -> prompt_inputs -> string + string;
  APP_ROOT : string;
}.

(** The mutable state: counters of the clock readings and backend
    calls made so far, the files by directory, the toasts shown, and
    the session ([st.session_state.leads] and [.settings]). *)
Record World : Type := {
  clock_reads : nat;
  llm_calls : nat;
  leads_json : option string;
  emails : gmap string string;
  call_requests : gmap string string;
  proposals : gmap string string;
  notif_log : string;
  toasts : list string;
  leads : list dict;
  settings : dict;
}.

Definition with_clock_reads (n : nat) (w : World) : World :=
  {| clock_reads := n; llm_calls := llm_calls w; leads_json := leads_json w;
     emails := emails w; call_requests := call_requests w;
     proposals := proposals w; notif_log := notif_log w; toasts := toasts w;
     leads := leads w; settings := settings w |}.

Definition with_llm_calls (n : nat) (w : World) : World :=
  {| clock_reads := clock_reads w; llm_calls := n; leads_json := leads_json w;
     emails := emails w; call_requests := call_requests w;
     proposals := proposals w; notif_log := notif_log w; toasts := toasts w;
     leads := leads w; settings := settings w |}.

Definition with_leads_json (f : option string) (w : World) : World :=
  {| clock_reads := clock_reads w; llm_calls := llm_calls w; leads_json := f;
     emails := emails w; call_requests := call_requests w;
     proposals := proposals w; notif_log := notif_log w; toasts := toasts w;
     leads := leads w; settings := settings w |}.

Definition with_emails (m : gmap string string) (w : World) : World :=
  {| clock_reads := clock_reads w; llm_calls := llm_calls w;
     leads_json := leads_json w; emails := m;
     call_requests := call_requests w; proposals := proposals w;
     notif_log := notif_log w; toasts := toasts w; leads := leads w;
     settings := settings w |}.

Definition with_call_requests (m : gmap string string) (w : World) : World :=
  {| clock_reads := clock_reads w; llm_calls := llm_calls w;
     leads_json := leads_json w; emails := emails w; call_requests := m;
     proposals := proposals w; notif_log := notif_log w; toasts := toasts w;
     leads := leads w; settings := settings w |}.

Definition with_proposals (m : gmap string string) (w : World) : World :=
  {| clock_reads := clock_reads w; llm_calls := llm_calls w;
     leads_json := leads_json w; emails := emails w;
     call_requests := call_requests w; proposals := m;
     notif_log := notif_log w; toasts := toasts w; leads := leads w;
     settings := settings w |}.

Definition with_notification (line msg : string) (w : World) : World :=
  {| clock_reads := clock_reads w; llm_calls := llm_calls w;
     leads_json := leads_json w; emails := emails w;
     call_requests := call_requests w; proposals := proposals w;
     notif_log := (notif_log w +:+ line)%string; toasts := toasts w ++ [msg];
     leads := leads w; settings := settings w |}.

Definition with_leads (l : list dict) (w : World) : World :=
  {| clock_reads := clock_reads w; llm_calls := llm_calls w;
     leads_json := leads_json w; emails := emails w;
     call_requests := call_requests w; proposals := proposals w;
     notif_log := notif_log w; toasts := toasts w; leads := l;
     settings := settings w |}.

(** *** The monad: state, and exceptions that keep the state *)

Definition M (A : Type) : Type := World -> outcome A * World.

Definition ret {A : Type} (a : A) : M A := fun w => (Ok a, w).

Definition bind {A B : Type} (m : M A) (k : A -> M B) : M B :=
  fun w =>
    match m w with
    | (Ok a, w') => k a w'
    | (Raise e, w') => (Raise e, w')
    end.

Definition lift {A : Type} (o : outcome A) : M A := fun w => (o, w).

Definition gets {A : Type} (f : World -> A) : M A := fun w => (Ok (f w), w).

Definition modify (f : World -> World) : M unit := fun w => (Ok tt, f w).

Declare Scope m_scope.
Delimit Scope m_scope with M.
Notation "'let*' x ':=' m 'in' k" := (bind m (fun x => k))
  (at level 10, x name, m at level 100, k at level 200, only parsing) : m_scope.
Notation "'let?' x ':=' o 'in' k" := (obind o (fun x => k))
  (at level 10, x name, o at level 100, k at level 200, only parsing) : m_scope.
Open Scope m_scope.

(** ** The program *)

Definition nl : string := String "010" EmptyString.

(** The concatenation of the pieces of a text. *)
Fixpoint cat (pieces : list string) : string :=
  match pieces with
  | [] => EmptyString
  | x :: rest => (x +:+ cat rest)%string
  end.

Fixpoint all_chars (p : ascii -> bool) (s : string) : bool :=
  match s with
  | EmptyString => true
  | String c s' => p c && all_chars p s'
  end.

(** The character is not a slash. *)
Definition no_slash (c : ascii) : bool := negb (Text.has_code 47 c).

(** The character is not the NUL character. *)
Definition no_nul (c : ascii) : bool := negb (Text.has_code 0 c).

(** The text before the first slash of [s]: the first component of
    the relative path [s]. *)
Fixpoint before_slash (s : string) : string :=
  match s with
  | EmptyString => EmptyString
  | String c s' => if Text.has_code 47 c then EmptyString else String c (before_slash s')
  end.

(** *** Files of the outbox

    [path.write_text(content)] for a new file [name] of a directory
    of the outbox.  The directory holds the files [files] and no
    directory: the program makes none.  [part] is the piece of the
    name that the program takes from a lead as it is; the rest of the
    name is a stamp of [strftime], a slug and fixed text, which have
    neither a slash nor a NUL.

    With a NUL in the name, [open] refuses the path.  With a slash in
    the name, the file is looked for under the first component of the
    name, which is not a directory: it is a file of the directory, or
    nothing at all.  Otherwise the file is written, over a file of the
    same name when there is one.  The limits of the file system (the
    length of a name, the room left) are not part of the model. *)
Definition write_text (files : gmap string string) (name part content : string)
    : outcome (gmap string string) :=
  if negb (all_chars no_nul part) then Raise ValueError
  else if all_chars no_slash part then Ok (<[name := content]> files)
  else match files !! before_slash name with
       | Some _ => Raise NotADirectoryError
       | None => Raise FileNotFoundError
       end.

Section App.

Variable env : Env.

Definition DATA_DIR : string := (APP_ROOT env +:+ "/data")%string.
Definition OUTBOX_DIR : string := (APP_ROOT env +:+ "/outbox")%string.
Definition EMAIL_DIR : string := (OUTBOX_DIR +:+ "/emails")%string.
Definition CALL_REQ_DIR : string := (OUTBOX_DIR +:+ "/call_requests")%string.
Definition PROPOSALS_DIR : string := (APP_ROOT env +:+ "/proposals")%string.

(** [str(dir / name)]. *)
Definition path_in (dir name : string) : string := (dir +:+ "/" +:+ name)%string.

(** *** Utilities *)

(** [datetime.now(timezone.utc).isoformat()]. *)
Definition now_iso : M string :=
  fun w => (Ok (utc_iso env (clock_reads w)), with_clock_reads (S (clock_reads w)) w).

(** [datetime.now().strftime("%Y%m%d_%H%M%S")]. *)
Definition now_stamp : M string :=
  fun w => (Ok (local_stamp env (clock_reads w)), with_clock_reads (S (clock_reads w)) w).

Definition notify (msg : string) : M unit :=
  let* t := now_iso in
  modify (with_notification (cat [t; " | "; msg; nl]) msg).

Definition load_leads : M (list dict) :=
  let* f := gets leads_json in
  match f with
  | None => ret []
  | Some text =>
      match Json.loads text with
      | Some l => ret l
      | None => ret []
      end
  end.

Definition save_leads (l : list dict) : M unit :=
  modify (with_leads_json (Some (Json.dumps (Json.of_leads l)))).

(** [(x.get("Email") or "").lower()]. *)
Definition email_key (x : dict) : outcome string :=
  Value.lower (Value.por (Dict.get x "Email") (VStr "")).

(** The index of the first record whose e-mail key equals that of
    [lead], as the generator in [upsert_lead] finds it: both keys are
    computed anew for every record visited. *)
Fixpoint find_by_email (l : list dict) (lead : dict) (i : nat) : outcome (option nat) :=
  match l with
  | [] => Ok None
  | x :: rest =>
      let? a := email_key x in
      let? b := email_key lead in
      if String.eqb a b then Ok (Some i) else find_by_email rest lead (S i)
  end.

Definition upsert_lead (l : list dict) (lead : dict) : M (list dict) :=
  let* idx := lift (find_by_email l lead 0) in
  let lead := Dict.setdefault lead "Status" (VStr "New") in
  let* t := now_iso in
  let lead := Dict.setdefault lead "LastActionAt" (VStr t) in
  match idx with
  | None => ret (l ++ [lead])
  | Some i =>
      match l !! i with
      | None => ret l
      | Some existing =>
          let existing := Dict.update existing lead in
          let existing :=
            if Value.among (Dict.get existing "Status") ["New"; "Updated"]
            then Dict.setitem existing "Status" (VStr "Updated")
            else existing in
          let* t' := now_iso in
          let existing := Dict.setitem existing "LastActionAt" (VStr t') in
          ret (<[i := existing]> l)
      end
  end.

(** *** Proposal generation *)

Definition use_case_of (lead : dict) : value :=
  Dict.get_or lead "UseCase" (Dict.get_or lead "AutomationNeed" (VStr "")).

Definition prompt_of (lead : dict) : prompt_inputs :=
  {| p_company := Dict.get_or lead "Company" (VStr "(Company)");
     p_name := Dict.get_or lead "Name" (VStr "(Name)");
     p_email := Dict.get_or lead "Email" (VStr "");
     p_use_case := use_case_of lead;
     p_budget := Dict.get_or lead "Budget" (VStr "N/A") |}.

(** The fixed sections of the fallback template. *)
Definition template_sections : string :=
  cat [ "## 1) Problem summary"; nl;
        "Describe the current pain points and desired outcomes."; nl; nl;
        "## 2) Proposed automation solution"; nl;
        "- People: roles and responsibilities"; nl;
        "- Process: key steps and governance"; nl;
        "- Tech: LLM + orchestration + integrations (swappable)"; nl; nl;
        "## 3) Architecture (bullets)"; nl;
        "- Data intake -> Processing -> LLM -> Output"; nl;
        "- Observability & logging"; nl;
        "- Security & access"; nl; nl;
        "## 4) Timeline & milestones"; nl;
        "- Week 1–2: Discovery & design"; nl;
        "- Week 3–4: MVP build"; nl;
        "- Week 5–6: Pilot & iteration"; nl; nl;
        "## 5) Pricing"; nl;
        "- Fixed fee within stated budget with clear deliverables."; nl; nl;
        "## 6) Next steps"; nl;
        "- Reply to confirm and schedule a working session."; nl ].

Definition fallback_template (lead : dict) : string :=
  cat [ "# Automation Proposal — ";
        Value.str (Dict.get_or lead "Company" (VStr "(Company)")); nl; nl;
        "**Prospect:** "; Value.str (Dict.get_or lead "Name" (VStr "")); "  "; nl;
        "**Email:** "; Value.str (Dict.get_or lead "Email" (VStr "")); "  "; nl;
        "**Use case:** "; Value.str (use_case_of lead); "  "; nl; nl;
        template_sections ].

Definition generate_proposal_md (lead cfg : dict) : M string :=
  if LLM_AVAILABLE env then
    let* n := gets llm_calls in
    let* _ := modify (with_llm_calls (S n)) in
    match ollama env n (Dict.get_or cfg "OLLAMA_MODEL" (VStr "gemma3"))
            (Dict.get cfg "OLLAMA_BASE_URL") (prompt_of lead) with
    | inr text => ret text
    | inl e =>
        let* _ := notify ("LLM unavailable, using template: " +:+ e) in
        ret (fallback_template lead)
    end
  else ret (fallback_template lead).

(** *** The outbox *)

(** The characters of a file-name slug: alphanumerics, underscore,
    dash and space. *)
Definition slug_char (c : ascii) : bool :=
  Text.isalnum c || Text.has_code 95 c || Text.has_code 45 c || Text.has_code 32 c.

(** The characters of [v], when [v] can be iterated over. *)
Definition chars_of (v : value) : outcome string :=
  match v with
  | VStr s => Ok s
  | _ => Raise TypeError
  end.

(** The name of the file is a slug and a stamp, which have neither a
    slash nor a NUL: the write is the insertion. *)
Definition save_proposal (company : value) (content : string) : M string :=
  let* s := lift (chars_of (Value.por company (VStr "proposal"))) in
  let safe := Text.filter slug_char s in
  let safe := Text.replace_char " " "_" (Text.strip safe) in
  let safe := match safe with EmptyString => "proposal" | _ => safe end in
  let* ts := now_stamp in
  let name := cat [safe; "_"; ts; ".md"] in
  let* ps := gets proposals in
  let* _ := modify (with_proposals (<[name := content]> ps)) in
  ret (path_in PROPOSALS_DIR name).

(** An attachment: its file name and its path. *)
Definition attachment : Type := (string * string)%type.

Definition save_email (to_email : value) (subject html : string)
    (attachments : list attachment) : M string :=
  let* ts := now_stamp in
  let safe_subj :=
    Text.replace_char " " "_" (Text.strip (Text.take 80 (Text.filter slug_char subject))) in
  let name := cat [ts; "__"; Value.str to_email; "__"; safe_subj; ".md"] in
  let body :=
    [ "# To: " +:+ Value.str to_email; "# Subject: " +:+ subject; ""; html; "" ]
    ++ match attachments with
       | [] => []
       | _ => "## Attachments"
              :: map (fun a => cat ["- "; fst a; " -> "; snd a]) attachments
       end in
  let* es := gets emails in
  let* es' := lift (write_text es name (Value.str to_email) (String.concat nl body)) in
  let* _ := modify (with_emails es') in
  let* _ := notify (cat ["Email saved: "; Text.basename name; " -> "; Value.str to_email]) in
  ret (path_in EMAIL_DIR name).

Definition call_payload (lead : dict) : json :=
  JObj [ ("assistantId", JVal (VStr "local-assistant"));
         ("phoneNumber", JVal (Dict.get lead "Phone"));
         ("customer", JObj [ ("name", JVal (Dict.get lead "Name"));
                             ("email", JVal (Dict.get lead "Email"));
                             ("company", JVal (Dict.get lead "Company")) ]);
         ("metadata", JObj [ ("leadEmail", JVal (Dict.get lead "Email")) ]);
         ("webhookUrl", JVal (VStr "(local-streamlit)"));
         ("synthesis", JObj [ ("prompt", JVal (VStr "Friendly sales agent confirming proposal need.")) ]) ].

Definition trigger_local_call (lead : dict) : M string :=
  let payload := call_payload lead in
  let* ts := now_stamp in
  let email := Value.str (Dict.get_or lead "Email" (VStr "unknown")) in
  let name := cat ["call_"; email; "_"; ts; ".json"] in
  let* cs := gets call_requests in
  let* cs' := lift (write_text cs name email (Json.dumps payload)) in
  let* _ := modify (with_call_requests cs') in
  let* _ := notify (" Simulated call created: " +:+ Text.basename (path_in CALL_REQ_DIR name)) in
  ret (path_in CALL_REQ_DIR name).

(** *** Qualification *)

(** [float(lead.get("Budget") or 0)]. *)
Definition budget_of (lead : dict) : outcome PyFloat.float :=
  Value.to_float (Value.por (Dict.get lead "Budget") (VInt 0)).

(** The functions below work on records of the session's list of
    leads, which they change in place: a change to the record at
    index [i] is written back at once, so that it is kept when a
    later step raises. *)
Definition set_lead (i : nat) (lead : dict) : M unit :=
  modify (fun w => with_leads (<[i := lead]> (leads w)) w).

(** [auto_qualify] changes the record it is given, which is the record
    at index [i] of the session, before it asks for the call: the
    change is kept when the call request cannot be written.  The
    changed record is returned next to the status. *)
Definition auto_qualify (i : nat) (lead : dict) (threshold : PyFloat.float)
    : M (dict * string) :=
  let* budget := lift (budget_of lead) in
  let qualified := PyFloat.ge budget threshold in
  let status := if qualified then "Qualified" else "Unqualified" in
  let lead := Dict.setitem lead "Status" (VStr status) in
  let* t := now_iso in
  let lead := Dict.setitem lead "LastActionAt" (VStr t) in
  let* _ := set_lead i lead in
  let* _ := (if qualified then (let* _ := trigger_local_call lead in ret tt) else ret tt) in
  ret (lead, status).

(** *** The actions of the user interface *)

(** Leads tab, "Save Lead". *)
Definition save_lead_clicked (name email company use_case phone : string)
    (budget : PyFloat.float) : M unit :=
  match email with
  | EmptyString => ret tt
  | _ =>
      let* t := now_iso in
      let* l := gets leads in
      let* l' := upsert_lead l
                   [ ("Name", VStr name); ("Email", VStr email);
                     ("Company", VStr company); ("UseCase", VStr use_case);
                     ("Budget", VFloat budget); ("Phone", VStr phone);
                     ("Status", VStr "New"); ("LastActionAt", VStr t) ] in
      let* _ := modify (with_leads l') in
      save_leads l'
  end.

(** The index of the first record whose e-mail key is [key]. *)
Fixpoint find_by_key (l : list dict) (key : string) (i : nat) : outcome (option nat) :=
  match l with
  | [] => Ok None
  | x :: rest =>
      let? a := email_key x in
      if String.eqb a key then Ok (Some i) else find_by_key rest key (S i)
  end.

(** [f"{lead.get('Company','Your')} Automation Proposal"]. *)
Definition proposal_subject (lead : dict) : string :=
  (Value.str (Dict.get_or lead "Company" (VStr "Your")) +:+ " Automation Proposal")%string.

(** Leads tab, "Generate & Save Proposal" for the e-mail typed. *)
Definition generate_proposal_clicked (em : string) : M unit :=
  let* l := gets leads in
  let* idx := lift (find_by_key l (Text.lower em) 0) in
  match idx with
  | None => ret tt
  | Some i =>
      match l !! i with
      | None => ret tt
      | Some lead =>
          if negb (Dict.truthy lead) then ret tt else
          let* cfg := gets settings in
          let* md := generate_proposal_md lead cfg in
          let* path := save_proposal (Dict.get lead "Company") md in
          let lead := Dict.setitem lead "ProposalPath" (VStr path) in
          let lead := Dict.setitem lead "Status" (VStr "Proposal Sent") in
          let* _ := set_lead i lead in
          let* _ := save_email (Dict.get lead "Email") (proposal_subject lead)
                      "<p>Attached proposal is saved locally.</p>"
                      [(Text.basename path, path)] in
          let* l := gets leads in
          save_leads l
      end
  end.

(** A row as [csv.DictReader] yields it: the cells under the header's
    names ([None] for a cell the row lacks), and whether cells beyond
    the header were collected under the key [None]. *)
Record csv_row : Type := {
  cells : list (string * option string);
  overflow : bool;
}.

(** [{k.strip().lower(): (v.strip() if isinstance(v, str) else v)
      for k, v in row.items()}]: the key [None] has no [strip]. *)
Definition normalize_row (row : csv_row) : outcome dict :=
  let norm :=
    fold_left
      (fun acc kv =>
         Dict.setitem acc (Text.lower (Text.strip (fst kv)))
           match snd kv with
           | Some v => VStr (Text.strip v)
           | None => VNone
           end)
      (cells row) [] in
  if overflow row then Raise AttributeError else Ok norm.

(** One turn of the import loop; the result tells whether the row was
    counted. *)
Definition import_row (row : csv_row) : M bool :=
  let* norm := lift (normalize_row row) in
  let name := Value.por (Value.por (Dict.get norm "name") (Dict.get norm "prospect")) (VStr "") in
  let email := Value.por (Dict.get norm "email") (VStr "") in
  let company := Dict.get norm "company" in
  let use_case := Value.por (Dict.get norm "usecase") (Dict.get norm "automationneed") in
  let* budget := lift (Value.to_float (Value.por (Dict.get norm "budget") (VInt 0))) in
  let phone := Value.por (Dict.get norm "phone") VNone in
  let* t := now_iso in
  let lead :=
    [ ("Name", name); ("Email", email); ("Company", company);
      ("UseCase", use_case); ("Budget", VFloat budget); ("Phone", phone);
      ("Status", VStr "New"); ("LastActionAt", VStr t) ] in
  if Value.truthy email then
    let* l := gets leads in
    let* l' := upsert_lead l lead in
    let* _ := modify (with_leads l') in
    ret true
  else ret false.

Fixpoint import_rows (rows : list csv_row) (count : nat) : M nat :=
  match rows with
  | [] => ret count
  | row :: rest =>
      let* counted := import_row row in
      import_rows rest (if counted then S count else count)
  end.

(** Import CSV tab, once a file is uploaded: the number of leads
    imported. *)
Definition csv_uploaded (rows : list csv_row) : M nat :=
  let* count := import_rows rows 0 in
  let* l := gets leads in
  let* _ := save_leads l in
  ret count.

Definition no_answer_events : list string := ["call.no_answer"; "call.unanswered"].

Definition proposal_keywords : list string :=
  [ "send a proposal"; "yes proposal"; "email the proposal";
    "want a proposal"; "please send proposal"; "yes" ].

Definition transcript_limit : nat := Z.to_nat 15000.

Definition no_pickup_note : string := "No pickup from local outbound".

Definition follow_up_subject : string := "Follow-up: Let's schedule a quick call".

Definition follow_up_html : string :=
  "<p>Hi, we tried reaching you by phone about your automation project.</p><p>You can reply to this email to coordinate a time.</p><p>— Team</p>".

(** [any(kw in transcript.lower() for kw in [...])]. *)
Definition wants_proposal (transcript : string) : bool :=
  existsb (fun kw => Text.contains kw (Text.lower transcript)) proposal_keywords.

(** The index of the first record whose [Email] equals [em]. *)
Fixpoint find_by_value (l : list dict) (em : value) (i : nat) : option nat :=
  match l with
  | [] => None
  | x :: rest =>
      if Value.eqb (Dict.get x "Email") em then Some i
      else find_by_value rest em (S i)
  end.

(** The no-answer branch of the webhook, on the record at index [i]. *)
Definition on_no_answer (i : nat) (lead : dict) : M dict :=
  let lead := Dict.setitem lead "Status" (VStr "No Answer") in
  let lead := Dict.setitem lead "Notes" (VStr no_pickup_note) in
  let* _ := set_lead i lead in
  let* _ := save_email (Dict.get lead "Email") follow_up_subject follow_up_html [] in
  let* _ := notify "📪 No answer — follow-up saved. #lead-no-pickup" in
  ret lead.

(** The branch of the other events. *)
Definition on_call_completed (i : nat) (lead : dict) (transcript : string) : M dict :=
  let lead := Dict.setitem lead "CallTranscript" (VStr (Text.take transcript_limit transcript)) in
  let* _ := set_lead i lead in
  if wants_proposal transcript then
    let* cfg := gets settings in
    let* md := generate_proposal_md lead cfg in
    let* path := save_proposal (Dict.get lead "Company") md in
    let lead := Dict.setitem lead "ProposalPath" (VStr path) in
    let lead := Dict.setitem lead "Status" (VStr "Proposal Sent") in
    let* _ := set_lead i lead in
    let* _ := save_email (Dict.get lead "Email") (proposal_subject lead)
                "<p>Hi, attached is your tailored automation proposal. Happy to iterate.</p>"
                [(Text.basename path, path)] in
    let* _ := notify (" Proposal saved for email to " +:+ Value.str (Dict.get lead "Email")) in
    ret lead
  else
    let* _ := notify " Call completed; no proposal requested or not detected." in
    ret lead.

(** Webhook Simulator tab, "Send Event". *)
Definition send_event_clicked (em : value) (event_type transcript : string) : M unit :=
  if Value.eqb em (VStr "-") then ret tt else
  let* l := gets leads in
  match find_by_value l em 0 with
  | None => ret tt
  | Some i =>
      match l !! i with
      | None => ret tt
      | Some lead =>
          if negb (Dict.truthy lead) then ret tt else
          let* lead :=
            if existsb (String.eqb event_type) no_answer_events
            then on_no_answer i lead
            else on_call_completed i lead transcript in
          let* t := now_iso in
          let* _ := set_lead i (Dict.setitem lead "LastActionAt" (VStr t)) in
          let* l := gets leads in
          save_leads l
      end
  end.

End App.

(** ** Further actions of the user interface *)

(** The slice [s[-n:]], for a positive [n]. *)
Definition last_chars (n : nat) (s : string) : string :=
  Text.drop (String.length s - n) s.

(** Sidebar, "Open notifications log": the text shown, or [None] for
    the notice that there are no notifications.  The log file exists
    once a notification was written, and then it is not empty. *)
Definition open_notifications_log (w : World) : option string :=
  match notif_log w with
  | EmptyString => None
  | text => Some (last_chars (Z.to_nat 4000) text)
  end.

Section Actions.

Variable env : Env.

(** [for lead in leads: auto_qualify(lead, threshold)], from the
    record at index [i] on.  Here and below [threshold] is the number
    that the sidebar has stored under QUAL_THRESHOLD in the same run:
    the float of its number input. *)
Fixpoint auto_qualify_each (todo : list dict) (i : nat) (threshold : PyFloat.float) : M unit :=
  match todo with
  | [] => ret tt
  | lead :: rest =>
      let* _ := auto_qualify env i lead threshold in
      auto_qualify_each rest (S i) threshold
  end.

(** Leads tab, "Auto-qualify All". *)
Definition auto_qualify_all_clicked (threshold : PyFloat.float) : M unit :=
  let* l := gets leads in
  let* _ := auto_qualify_each l 0 threshold in
  let* l := gets leads in
  save_leads l.

(** Leads tab, "Trigger Call" for the e-mail typed. *)
Definition trigger_call_clicked (target : string) : M unit :=
  let* l := gets leads in
  let* idx := lift (find_by_key l (Text.lower target) 0) in
  match idx with
  | None => ret tt
  | Some i =>
      match l !! i with
      | None => ret tt
      | Some found =>
          if negb (Dict.truthy found) then ret tt else
          let* _ := trigger_local_call env found in
          let* l := gets leads in
          save_leads l
      end
  end.

(** [for lead in leads: if lead.get("Status") in ("New","Updated"):
    auto_qualify(lead, threshold)], from the record at index [i] on. *)
Fixpoint auto_qualify_open (todo : list dict) (i : nat) (threshold : PyFloat.float) : M unit :=
  match todo with
  | [] => ret tt
  | lead :: rest =>
      let* _ :=
        (if Value.among (Dict.get lead "Status") ["New"; "Updated"]
         then let* _ := auto_qualify env i lead threshold in ret tt
         else ret tt) in
      auto_qualify_open rest (S i) threshold
  end.

(** Import CSV tab, "Auto-qualify imported leads".  The button is
    part of the block of the uploaded file, which has imported the
    rows ([csv_uploaded]) earlier in the same run. *)
Definition auto_qualify_imported_clicked (threshold : PyFloat.float) : M unit :=
  let* l := gets leads in
  let* _ := auto_qualify_open l 0 threshold in
  let* l := gets leads in
  save_leads l.

(** Calls tab, "Trigger Simulated Call" for the selection [sel].  The
    record is looked up by [next] without a default, which raises
    when no Email equals the selection.  The block does not save the
    leads. *)
Definition trigger_simulated_call_clicked (sel : value) : M unit :=
  if negb (Value.truthy sel && negb (Value.eqb sel (VStr "-"))) then ret tt else
  let* l := gets leads in
  match find_by_value l sel 0 with
  | None => lift (Raise StopIteration)
  | Some i =>
      match l !! i with
      | None => ret tt
      | Some lead =>
          let* _ := trigger_local_call env lead in
          ret tt
      end
  end.

(** The blocks of the script that a click or an upload sets off, with
    what the widgets hold at that moment. *)
Inductive action : Type :=
  | SaveLead (name email company use_case phone : string) (budget : PyFloat.float)
  | AutoQualifyAll (threshold : PyFloat.float)
  | TriggerCall (target : string)
  | GenerateProposal (em : string)
  | UploadCsv (rows : list csv_row)
  | AutoQualifyImported (threshold : PyFloat.float)
  | TriggerSimulatedCall (sel : value)
  | SendEvent (em : value) (event_type transcript : string).

Definition run (a : action) : M unit :=
  match a with
  | SaveLead name email company use_case phone budget =>
      save_lead_clicked env name email company use_case phone budget
  | AutoQualifyAll threshold => auto_qualify_all_clicked threshold
  | TriggerCall target => trigger_call_clicked target
  | GenerateProposal em => generate_proposal_clicked env em
  | UploadCsv rows => let* _ := csv_uploaded env rows in ret tt
  | AutoQualifyImported threshold => auto_qualify_imported_clicked threshold
  | TriggerSimulatedCall sel => trigger_simulated_call_clicked sel
  | SendEvent em event_type transcript => send_event_clicked env em event_type transcript
  end.

(** A session: the blocks run one after the other; an exception ends
    the block that raised it, not the session. *)
Fixpoint run_all (actions : list action) (w : World) : World :=
  match actions with
  | [] => w
  | a :: rest => run_all rest (snd (run a w))
  end.

End Actions.

(** ** Sample data *)

Module Demo.

(** A clock that advances by one second per reading, and a backend
    that is installed but not running. *)
Definition env : Env :=
  {| utc_iso := fun n => ("2025-01-01T00:00:0" +:+ Text.str_of_Z (Z.of_nat n) +:+ "+00:00")%string;
     local_stamp := fun n => ("20250101_00000" +:+ Text.str_of_Z (Z.of_nat n))%string;
     LLM_AVAILABLE := true;
     ollama := fun _ _ _ _ => inl "connection refused";
     APP_ROOT := "/app" |}.

(** A fresh installation holding the leads [l] in its session. *)
Definition world (l : list dict) : World :=
  {| clock_reads := 0; llm_calls := 0; leads_json := None;
     emails := ∅; call_requests := ∅; proposals := ∅;
     notif_log := EmptyString; toasts := []; leads := l;
     settings := [ ("OLLAMA_MODEL", VStr "gemma3");
                   ("OLLAMA_BASE_URL", VStr "http://127.0.0.1:11434");
                   ("QUAL_THRESHOLD", VFloat (PyFloat.of_Z 10000)) ] |}.

(** A lead that has been qualified some time ago. *)
Definition jane : dict :=
  [ ("Name", VStr "Jane Doe"); ("Email", VStr "jane@acme.com");
    ("Company", VStr "Acme"); ("UseCase", VStr "Invoice intake");
    ("Budget", VFloat (PyFloat.of_Z 15000)); ("Phone", VStr "");
    ("Status", VStr "Qualified");
    ("LastActionAt", VStr "2024-12-24T09:00:00+00:00") ].

(** The same lead as a later import presents it. *)
Definition jane_again : dict :=
  [ ("Name", VStr "Jane Doe"); ("Email", VStr "Jane@Acme.com");
    ("Company", VNone); ("UseCase", VNone);
    ("Budget", VFloat (PyFloat.of_Z 20000)); ("Phone", VNone);
    ("Status", VStr "New");
    ("LastActionAt", VStr "2025-01-01T00:00:00+00:00") ].

(** Records of a shop: a customer with an e-mail, and walk-ins
    without one. *)
Definition ann : dict := [("Name", VStr "Ann"); ("Email", VStr "ann@shop.example")].
Definition walk_in : dict := [("Name", VStr "Walk-in"); ("Email", VStr "")].
Definition second_walk_in : dict := [("Name", VStr "Another walk-in")].

(** A lead whose address has a slash in its local part. *)
Definition slashed : dict :=
  [ ("Name", VStr "Pat"); ("Email", VStr "a/b@c.com"); ("Company", VStr "Cog");
    ("Budget", VFloat (PyFloat.of_Z 20000)); ("Status", VStr "New");
    ("LastActionAt", VStr "2024-12-24T09:00:00+00:00") ].

(** A lead whose budget was typed in words. *)
Definition scribbled : dict :=
  [ ("Name", VStr "Sam"); ("Email", VStr "sam@shop.example");
    ("Budget", VStr "ten thousand") ].

(** Rows of an uploaded file: one whose budget is written in words,
    and one whose budget cell is empty. *)
Definition row_in_words : csv_row :=
  {| cells := [ ("Name", Some "Sam"); ("Email", Some "sam@shop.example");
                ("Budget", Some "ten thousand") ];
     overflow := false |}.

Definition row_no_budget : csv_row :=
  {| cells := [ ("Name", Some "Jane Doe"); ("Email", Some " jane@acme.com");
                ("Budget", Some "") ];
     overflow := false |}.

End Demo.

(** ** Predicates used in the statements *)

(** The text can be a piece of the name of a file: it has neither a
    NUL nor a slash. *)
Definition name_part (s : string) : bool :=
  all_chars no_nul s && all_chars no_slash s.

(** The e-mail of the lead, as a file name renders it, can be a piece
    of the name of a file. *)
Definition email_fits (lead : dict) : bool :=
  name_part (Value.str (Dict.get lead "Email")).

(** The name of the file that [trigger_local_call] writes for the
    lead with the stamp [ts]. *)
Definition call_name (ts : string) (lead : dict) : string :=
  cat ["call_"; Value.str (Dict.get_or lead "Email" (VStr "unknown")); "_"; ts; ".json"].

(** The name and the text of the file that [save_email] writes with
    the stamp [ts]. *)
Definition email_name (ts : string) (to_email : value) (subject : string) : string :=
  cat [ts; "__"; Value.str to_email; "__";
       Text.replace_char " " "_" (Text.strip (Text.take 80 (Text.filter slug_char subject)));
       ".md"].

Definition email_text (to_email : value) (subject html : string)
    (attachments : list attachment) : string :=
  String.concat nl
    ([ "# To: " +:+ Value.str to_email; "# Subject: " +:+ subject; ""; html; "" ]
     ++ match attachments with
        | [] => []
        | _ => "## Attachments"
               :: map (fun a => cat ["- "; fst a; " -> "; snd a]) attachments
        end).


(** The record has no e-mail: the field is missing or falsy. *)
Definition no_email (d : dict) : bool := negb (Value.truthy (Dict.get d "Email")).

(** The record has an e-mail: a text that is not empty. *)
Definition has_email (d : dict) : bool :=
  match Dict.get d "Email" with
  | VStr (String _ _) => true
  | _ => false
  end.

(** The e-mail key of the record can be computed. *)
Definition email_ok (d : dict) : bool :=
  match email_key d with
  | Ok _ => true
  | Raise _ => false
  end.

(** The candidate as [upsert_lead] completes it when the clock reads
    [t]. *)
Definition with_defaults (lead : dict) (t : string) : dict :=
  Dict.setdefault (Dict.setdefault lead "Status" (VStr "New")) "LastActionAt" (VStr t).

(** The existing record [x] after the merge of the completed
    candidate [lead], stamped with [t]. *)
Definition merged (x lead : dict) (t : string) : dict :=
  let x := Dict.update x lead in
  let x :=
    if Value.among (Dict.get x "Status") ["New"; "Updated"]
    then Dict.setitem x "Status" (VStr "Updated")
    else x in
  Dict.setitem x "LastActionAt" (VStr t).

(** The value is a text or [None], as the cells of a normalized row
    are. *)
Definition text_or_none (v : value) : bool :=
  match v with
  | VStr _ | VNone => true
  | _ => false
  end.



(** The webhook event for the e-mail [em] is delivered to the record
    [lead] at index [i] of the session's leads. *)
Definition delivered_to (w : World) (em : value) (i : nat) (lead : dict) : Prop :=
  Value.eqb em (VStr "-") = false
  /\ find_by_value (leads w) em 0 = Some i
  /\ leads w !! i = Some lead
  /\ Dict.truthy lead = true.

(** The company of the record can name a proposal file: it is a text,
    or falsy. *)
Definition company_ok (lead : dict) : bool :=
  match chars_of (Value.por (Dict.get lead "Company") (VStr "proposal")) with
  | Ok _ => true
  | Raise _ => false
  end.

(** Every character of the text is a decimal digit. *)
Fixpoint all_dec (s : string) : bool :=
  match s with
  | EmptyString => true
  | String c s' => Text.isdecimal c && all_dec s'
  end.

(** The text does not go on with a digit. *)
Definition no_digit_ahead (rest : string) : bool :=
  match rest with
  | EmptyString => true
  | String c _ => negb (Text.isdecimal c)
  end.

(** What follows a value in a document written by [Json.dumps]: a
    comma or a line break. *)
Definition value_end (rest : string) : bool :=
  match rest with
  | EmptyString => false
  | String c _ => Text.has_code 44 c || Text.has_code 10 c
  end.

(** The text starts like a number: with a digit, or with a minus sign
    and a digit. *)
Definition number_start (t : string) : bool :=
  match t with
  | EmptyString => false
  | String c t' =>
      Text.isdecimal c
      || (Text.has_code 45 c
          && match t' with
             | String c' _ => Text.isdecimal c'
             | EmptyString => false
             end)
  end.

(** A value that is written to the document and read back as itself:
    a float has to be finite (JSON has no NaN and no infinities) and
    its [repr] has to read back, as the [repr] of every binary64 value
    does. *)
Definition storable_value (v : value) : bool :=
  match v with
  | VFloat x => PyFloat.is_finite x && PyFloat.repr_exact x
  | _ => true
  end.

(** A record whose keys are distinct, as those of a dictionary are,
    and whose values are storable. *)
Definition storable_lead (d : dict) : Prop :=
  NoDup (Dict.keys d) /\ forallb (fun kv => storable_value (snd kv)) d = true.

Definition storable (l : list dict) : Prop := Forall storable_lead l.

(** The text of one member of an object. *)
Definition member_text (kv : string * value) : string :=
  (Json.encode_string (fst kv) +:+ ": " +:+ Json.encode_value (snd kv))%string.

(** The text of a lead inside the array of the document. *)
Definition lead_text (d : dict) : string := Json.encode 1 (Json.of_dict d).

(** The text does not start with white space. *)
Definition solid (t : string) : bool :=
  match t with
  | EmptyString => false
  | String c _ => negb (Json.is_ws c)
  end.

(** Fuel that lets the decoder read the leads [l]. *)
Fixpoint fuel_for (l : list dict) : nat :=
  match l with
  | [] => 0
  | d :: l' => S (Nat.max (length d) (fuel_for l'))
  end.

(** *** Predicates for the further properties *)

(** The e-mail key of a record, empty when it cannot be computed. *)
Definition key_of (x : dict) : string :=
  match email_key x with
  | Ok k => k
  | Raise _ => EmptyString
  end.

(** The characters left in the slug of a file name: alphanumerics,
    underscore and dash. *)
Definition name_char (c : ascii) : bool :=
  Text.isalnum c || Text.has_code 95 c || Text.has_code 45 c.

(** A computation keeps the relation [R] between the world it starts
    in and the world it ends in, whether it returns or raises. *)
Definition keeps {A : Type} (R : World -> World -> Prop) (m : M A) : Prop :=
  forall w, R w (snd (m w)).

(** What a block of the user interface does, up to a relation [R]
    that its steps keep: it makes steps from [w] to some [w1]; then
    it has raised, or it has saved the leads of [w1]; or it has done
    nothing at all. *)
Definition handled (R : World -> World -> Prop) (m : M unit) : Prop :=
  forall w,
    match m w with
    | (Ok _, w') =>
        w' = w
        \/ exists w1,
             R w w1
             /\ w' = with_leads_json (Some (Json.dumps (Json.of_leads (leads w1)))) w1
    | (Raise _, w') => R w w'
    end.

(** The same for the rest of a block, which starts in [w] after steps
    from [w0] and ends by saving the leads. *)
Definition saves (R : World -> World -> Prop) (m : M unit) : Prop :=
  forall w0 w, R w0 w ->
    match m w with
    | (Ok _, w') =>
        exists w1,
          R w0 w1
          /\ w' = with_leads_json (Some (Json.dumps (Json.of_leads (leads w1)))) w1
    | (Raise _, w') => R w0 w'
    end.

(** The outbox and the log only grow: the log and the toasts are
    appended to, no file disappears, the counters do not go back and
    the settings stay. *)
Definition grows (w w' : World) : Prop :=
  (exists more, notif_log w' = (notif_log w +:+ more)%string)
  /\ (exists more, toasts w' = toasts w ++ more)
  /\ clock_reads w <= clock_reads w'
  /\ llm_calls w <= llm_calls w'
  /\ dom (emails w) ⊆ dom (emails w')
  /\ dom (call_requests w) ⊆ dom (call_requests w')
  /\ dom (proposals w) ⊆ dom (proposals w')
  /\ settings w' = settings w.

(** The document of the leads is the same in both worlds. *)
Definition same_document (w w' : World) : Prop := leads_json w' = leads_json w.

(** The budget of the record can be read as a number. *)
Definition budget_ok (d : dict) : bool :=
  match budget_of d with
  | Ok _ => true
  | Raise _ => false
  end.

(** The record is open: its Status is New or Updated. *)
Definition is_open (d : dict) : bool :=
  Value.among (Dict.get d "Status") ["New"; "Updated"].

(** The status that the qualification rule gives to a record, when
    its budget can be read. *)
Definition status_by_rule (d : dict) (threshold : PyFloat.float) : option string :=
  match budget_of d with
  | Ok b => Some (if PyFloat.ge b threshold then "Qualified" else "Unqualified")
  | Raise _ => None
  end.

(** The qualification of the record returns: its budget can be read,
    and when the record qualifies its e-mail fits the name of the
    call request. *)
Definition qualifies_ok (threshold : PyFloat.float) (d : dict) : bool :=
  match budget_of d with
  | Ok b => negb (PyFloat.ge b threshold) || email_fits d
  | Raise _ => false
  end.

(** The record [x'] is the record [x] after its qualification at the
    time [t]: Status and LastActionAt are set, the other fields are
    as they were. *)
Definition qualified_from (x x' : dict) (threshold : PyFloat.float) : Prop :=
  (exists s, status_by_rule x threshold = Some s /\ Dict.get x' "Status" = VStr s)
  /\ forall k, k <> "Status" -> k <> "LastActionAt" -> Dict.lookup x' k = Dict.lookup x k.

(** The e-mail key of the record can be computed and is not [k]. *)
Definition other_key (k : string) (x : dict) : bool :=
  match email_key x with
  | Ok a => negb (String.eqb a k)
  | Raise _ => false
  end.

(** The import counts the row: the row can be normalized and has an
    e-mail. *)
Definition row_accepted (row : csv_row) : bool :=
  match normalize_row row with
  | Ok norm => Value.truthy (Value.por (Dict.get norm "email") (VStr ""))
  | Raise _ => false
  end.

(** The candidate that "Save Lead" makes of the fields of the form at
    the time [t]. *)
Definition form_lead (name email company use_case phone : string)
    (budget : PyFloat.float) (t : string) : dict :=
  [ ("Name", VStr name); ("Email", VStr email);
    ("Company", VStr company); ("UseCase", VStr use_case);
    ("Budget", VFloat budget); ("Phone", VStr phone);
    ("Status", VStr "New"); ("LastActionAt", VStr t) ].

(** One record per e-mail: the e-mail key of every record can be
    computed, and no two records have the same key. *)
Definition one_per_email (l : list dict) : Prop :=
  forallb email_ok l = true /\ NoDup (map key_of l).

(** The e-mail keys of the records, place by place, are [K] after a
    step when they were before it. *)
Definition keys_kept (K : list (outcome string)) (w w' : World) : Prop :=
  map email_key (leads w) = K -> map email_key (leads w') = K.

(** Every result that a computation returns has the property [P]. *)
Definition returns {A : Type} (P : A -> Prop) (m : M A) : Prop :=
  forall w a w', m w = (Ok a, w') -> P a.

(** * Properties *)

(** ** Dictionaries *)

Lemma lookup_setitem_eq (d : dict) (k : string) (v : value) :
  Dict.lookup (Dict.setitem d k v) k = Some v.
Proof.
  induction d as [|[k' v'] d IH]; simpl.
  - now rewrite String.eqb_refl.
  - destruct (String.eqb k' k) eqn:E; simpl; rewrite E; auto.
Qed.

Lemma lookup_setitem_ne (d : dict) (k k' : string) (v : value) :
  k <> k' -> Dict.lookup (Dict.setitem d k v) k' = Dict.lookup d k'.
Proof.
  intros Hne. induction d as [|[k0 v0] d IH]; simpl.
  - destruct (String.eqb k k') eqn:E; auto.
    apply String.eqb_eq in E. contradiction.
  - destruct (String.eqb k0 k) eqn:E; simpl.
    + apply String.eqb_eq in E. subst k0.
      destruct (String.eqb k k') eqn:E'; auto.
      apply String.eqb_eq in E'. contradiction.
    + now rewrite IH.
Qed.

Lemma get_setitem_eq (d : dict) (k : string) (v : value) :
  Dict.get (Dict.setitem d k v) k = v.
Proof. unfold Dict.get, Dict.get_or. now rewrite lookup_setitem_eq. Qed.

Lemma get_setitem_ne (d : dict) (k k' : string) (v : value) :
  k <> k' -> Dict.get (Dict.setitem d k v) k' = Dict.get d k'.
Proof.
  intros H. unfold Dict.get, Dict.get_or. now rewrite lookup_setitem_ne.
Qed.

Lemma setitem_nonempty (d : dict) (k : string) (v : value) :
  Dict.setitem d k v <> [].
Proof.
  destruct d as [|[k' v'] d]; simpl; [discriminate|].
  destruct (String.eqb k' k); discriminate.
Qed.

(** After [for k, v in src.items(): d[k] = v] a key of [src] holds the
    value [src] gives it, and any other key is as before. *)
Lemma lookup_update (src d : dict) (k : string) :
  NoDup (Dict.keys src) ->
  Dict.lookup (Dict.update d src) k =
  match Dict.lookup src k with
  | Some v => Some v
  | None => Dict.lookup d k
  end.
Proof.
  unfold Dict.update. revert d.
  induction src as [|[k0 v0] src IH]; intros d Hnd; simpl; auto.
  inversion Hnd as [|? ? Hnotin Hnd']; subst.
  rewrite IH by assumption.
  destruct (String.eqb k0 k) eqn:E.
  - apply String.eqb_eq in E. subst k0.
    assert (Dict.lookup src k = None) as ->.
    { clear -Hnotin. induction src as [|[k1 v1] src IH]; simpl; auto.
      destruct (String.eqb k1 k) eqn:E1.
      - apply String.eqb_eq in E1. subst. exfalso. apply Hnotin. now left.
      - apply IH. intros H. apply Hnotin. now right. }
    apply lookup_setitem_eq.
  - destruct (Dict.lookup src k); auto.
    apply lookup_setitem_ne. intros ->. now rewrite String.eqb_refl in E.
Qed.

(** ** The writes of the outbox *)

Lemma write_text_fits (files : gmap string string) (name part content : string) :
  name_part part = true ->
  write_text files name part content = Ok (<[name := content]> files).
Proof.
  unfold name_part, write_text. intros H. apply andb_true_iff in H as [H1 H2].
  now rewrite H1, H2.
Qed.

Lemma write_text_unfit (files : gmap string string) (name part content : string) :
  name_part part = false ->
  exists e, write_text files name part content = Raise e
            /\ (e = ValueError \/ e = FileNotFoundError \/ e = NotADirectoryError).
Proof.
  unfold name_part, write_text. intros H.
  destruct (all_chars no_nul part); cbn [negb andb] in *; [|eauto].
  rewrite H. destruct (files !! before_slash name); eauto 6.
Qed.

Lemma write_text_Ok (files files' : gmap string string) (name part content : string) :
  write_text files name part content = Ok files' ->
  name_part part = true /\ files' = <[name := content]> files.
Proof.
  destruct (name_part part) eqn:E.
  - rewrite write_text_fits by assumption. intros [= <-]. auto.
  - destruct (write_text_unfit files name part content E) as (e & -> & _). discriminate.
Qed.

Lemma email_fits_or_unknown (lead : dict) :
  name_part (Value.str (Dict.get_or lead "Email" (VStr "unknown"))) = email_fits lead.
Proof.
  unfold email_fits, Dict.get, Dict.get_or. destruct (Dict.lookup lead "Email"); reflexivity.
Qed.

Lemma email_fits_setitem (lead : dict) (k : string) (v : value) :
  k <> "Email" -> email_fits (Dict.setitem lead k v) = email_fits lead.
Proof. intros H. unfold email_fits. now rewrite get_setitem_ne. Qed.

(** What [trigger_local_call] does: with an e-mail that fits a file
    name it writes the call request and one notification; otherwise
    the write raises, after the reading of the clock and before the
    notification.  Nothing else changes. *)
Lemma trigger_local_call_outcome (env : Env) (lead : dict) (w : World) :
  exists r w',
    trigger_local_call env lead w = (r, w')
    /\ leads w' = leads w /\ leads_json w' = leads_json w
    /\ emails w' = emails w /\ proposals w' = proposals w
    /\ llm_calls w' = llm_calls w /\ settings w' = settings w
    /\ if email_fits lead
       then r = Ok (path_in (CALL_REQ_DIR env) (call_name (local_stamp env (clock_reads w)) lead))
            /\ call_requests w'
               = <[call_name (local_stamp env (clock_reads w)) lead
                   := Json.dumps (call_payload lead)]> (call_requests w)
            /\ toasts w'
               = toasts w ++ [(" Simulated call created: "
                               +:+ Text.basename
                                     (path_in (CALL_REQ_DIR env)
                                        (call_name (local_stamp env (clock_reads w)) lead)))%string]
            /\ clock_reads w' = S (S (clock_reads w))
       else (exists e, r = Raise e
                       /\ (e = ValueError \/ e = FileNotFoundError \/ e = NotADirectoryError))
            /\ call_requests w' = call_requests w
            /\ toasts w' = toasts w /\ notif_log w' = notif_log w
            /\ clock_reads w' = S (clock_reads w).
Proof.
  rewrite <- email_fits_or_unknown.
  unfold trigger_local_call, bind, now_stamp, gets, lift.
  cbn [call_requests with_clock_reads].
  destruct (name_part _) eqn:E.
  - rewrite write_text_fits by exact E.
    unfold notify, now_iso, bind, modify, ret. eexists. eexists.
    split; [reflexivity|]. repeat split.
  - destruct (write_text_unfit (call_requests w)
                (cat ["call_"; Value.str (Dict.get_or lead "Email" (VStr "unknown")); "_";
                      local_stamp env (clock_reads w); ".json"])
                (Value.str (Dict.get_or lead "Email" (VStr "unknown")))
                (Json.dumps (call_payload lead)) E) as (e & -> & He).
    eexists. eexists. split; [reflexivity|]. repeat split. eauto.
Qed.

(** The same for [save_email]. *)
Lemma save_email_outcome (env : Env) (to_email : value) (subject html : string)
    (attachments : list attachment) (w : World) :
  exists r w',
    save_email env to_email subject html attachments w = (r, w')
    /\ leads w' = leads w /\ leads_json w' = leads_json w
    /\ call_requests w' = call_requests w /\ proposals w' = proposals w
    /\ llm_calls w' = llm_calls w /\ settings w' = settings w
    /\ if name_part (Value.str to_email)
       then r = Ok (path_in (EMAIL_DIR env)
                      (email_name (local_stamp env (clock_reads w)) to_email subject))
            /\ emails w'
               = <[email_name (local_stamp env (clock_reads w)) to_email subject
                   := email_text to_email subject html attachments]> (emails w)
            /\ toasts w'
               = toasts w ++ [cat ["Email saved: ";
                                   Text.basename
                                     (email_name (local_stamp env (clock_reads w))
                                        to_email subject);
                                   " -> "; Value.str to_email]]
            /\ clock_reads w' = S (S (clock_reads w))
       else (exists e, r = Raise e
                       /\ (e = ValueError \/ e = FileNotFoundError \/ e = NotADirectoryError))
            /\ emails w' = emails w
            /\ toasts w' = toasts w /\ notif_log w' = notif_log w
            /\ clock_reads w' = S (clock_reads w).
Proof.
  unfold save_email, bind, now_stamp, gets, lift.
  cbn [emails with_clock_reads].
  destruct (name_part _) eqn:E.
  - rewrite write_text_fits by exact E.
    unfold notify, now_iso, bind, modify, ret. eexists. eexists.
    split; [reflexivity|]. repeat split.
  - match goal with
    | |- context [write_text ?f ?n ?p ?c] =>
        destruct (write_text_unfit f n p c E) as (e & -> & He)
    end.
    eexists. eexists. split; [reflexivity|]. repeat split. eauto.
Qed.

(** ** C1: a merge reverts a status beyond New and Updated *)

(** C1.  The spec says that upserting a candidate against an existing
    lead whose Status is Qualified, Unqualified, Proposal Sent or No
    Answer leaves that Status unchanged.  The code copies every field
    of the candidate, its Status included, into the existing record
    before it looks at the Status: re-importing the qualified lead
    [Demo.jane] turns its Status into Updated. *)
Theorem upsert_lead_reverts_qualified :
  Dict.get Demo.jane "Status" = VStr "Qualified" /\
  match fst (upsert_lead Demo.env [Demo.jane] Demo.jane_again (Demo.world [Demo.jane])) with
  | Ok [x] => Dict.get x "Status" = VStr "Updated"
  | _ => False
  end.
Proof. split; vm_compute; reflexivity. Qed.

(** ** C2: the Leads tab sends a proposal without stamping the record *)

(** C2.  The spec says that LastActionAt is refreshed after every
    mutating action.  "Generate & Save Proposal" on the Leads tab sets
    ProposalPath and Status, reads the clock for its artifacts, and
    leaves LastActionAt as it was; the webhook path, which does the
    same work, stamps the record. *)
Theorem generate_proposal_clicked_leaves_LastActionAt :
  let w := Demo.world [Demo.jane] in
  let w' := snd (generate_proposal_clicked Demo.env "jane@acme.com" w) in
  clock_reads w < clock_reads w' /\
  match leads w' with
  | [x] =>
      Dict.get x "Status" = VStr "Proposal Sent" /\
      Dict.get x "Status" <> Dict.get Demo.jane "Status" /\
      Dict.get x "LastActionAt" = Dict.get Demo.jane "LastActionAt"
  | _ => False
  end.
Proof.
  vm_compute. split; [lia|]. repeat split. discriminate.
Qed.

(** The webhook path on the same record, for comparison. *)
Example send_event_clicked_stamps :
  let w := Demo.world [Demo.jane] in
  let w' := snd (send_event_clicked Demo.env (VStr "jane@acme.com") "call.completed" "Yes, please." w) in
  match leads w' with
  | [x] =>
      Dict.get x "Status" = VStr "Proposal Sent" /\
      Dict.get x "LastActionAt" = VStr "2025-01-01T00:00:05+00:00"
  | _ => False
  end.
Proof. vm_compute. split; reflexivity. Qed.

(** ** C3: candidates without an e-mail *)

Lemma lower_empty_iff (s : string) : Text.lower s = EmptyString <-> s = EmptyString.
Proof. destruct s; simpl; split; congruence. Qed.

Lemma email_key_no_email (d : dict) : no_email d = true -> email_key d = Ok EmptyString.
Proof.
  unfold no_email, email_key, Value.por. intros H.
  apply negb_true_iff in H. now rewrite H.
Qed.

Lemma email_key_has_email (d : dict) :
  has_email d = true -> exists c s, email_key d = Ok (String c s).
Proof.
  unfold has_email, email_key, Value.por.
  destruct (Dict.get d "Email") as [| | | |[|c s]]; try discriminate.
  intros _. simpl. eauto.
Qed.

Lemma find_by_email_all_have (l : list dict) (lead : dict) (i : nat) :
  no_email lead = true -> forallb has_email l = true ->
  find_by_email l lead i = Ok None.
Proof.
  intros Hl. revert i. induction l as [|x l IH]; intros i H; simpl; auto.
  apply andb_true_iff in H as [Hx Hrest].
  destruct (email_key_has_email x Hx) as (c & s & ->).
  rewrite (email_key_no_email lead Hl). simpl. now apply IH.
Qed.

Lemma find_by_email_first_without (pre post : list dict) (x lead : dict) (i : nat) :
  no_email lead = true -> forallb has_email pre = true -> no_email x = true ->
  find_by_email (pre ++ x :: post) lead i = Ok (Some (i + length pre)).
Proof.
  intros Hl. revert i. induction pre as [|y pre IH]; intros i Hpre Hx; simpl.
  - rewrite (email_key_no_email x Hx), (email_key_no_email lead Hl). simpl.
    now rewrite Nat.add_0_r.
  - apply andb_true_iff in Hpre as [Hy Hpre].
    destruct (email_key_has_email y Hy) as (c & s & ->).
    rewrite (email_key_no_email lead Hl). simpl.
    rewrite IH by assumption. f_equal. f_equal. lia.
Qed.

(** The statement of the spec at a concrete input: a candidate without an e-mail, and
    a store whose only record has none either.  The candidate is not
    appended; it is merged into that record. *)
Lemma upsert_lead_merges_blank_emails :
  ~ (exists lead' w',
       upsert_lead Demo.env [Demo.walk_in] Demo.second_walk_in (Demo.world [])
       = (Ok ([Demo.walk_in] ++ [lead']), w')).
Proof.
  intros (lead' & w' & H). vm_compute in H. discriminate.
Qed.

(** C3, amended.  A candidate whose Email is empty or missing never
    matches a record that has an e-mail: when every record has one,
    the candidate is appended.  It does match the first record whose
    Email is empty or missing too, and is merged into it. *)
Theorem upsert_lead_without_email (env : Env) (lead : dict) (w : World) :
  no_email lead = true ->
  (forall l, forallb has_email l = true ->
     exists w',
       upsert_lead env l lead w
       = (Ok (l ++ [with_defaults lead (utc_iso env (clock_reads w))]), w'))
  /\
  (forall pre x post,
     forallb has_email pre = true -> no_email x = true ->
     exists w',
       upsert_lead env (pre ++ x :: post) lead w
       = (Ok (pre ++ merged x (with_defaults lead (utc_iso env (clock_reads w)))
                            (utc_iso env (S (clock_reads w))) :: post), w')).
Proof.
  intros Hl. split.
  - intros l Hall. unfold upsert_lead, bind, lift, now_iso, ret.
    rewrite find_by_email_all_have by assumption.
    eexists. reflexivity.
  - intros pre x post Hpre Hx. unfold upsert_lead, bind, lift, now_iso, ret.
    rewrite find_by_email_first_without by assumption. simpl.
    rewrite list_lookup_middle by reflexivity. simpl.
    eexists. f_equal. f_equal.
    rewrite <- (Nat.add_0_r (length pre)) at 1.
    now rewrite insert_app_r.
Qed.

Lemma upsert_lead_without_email_witness :
  no_email Demo.second_walk_in = true /\
  forallb has_email [Demo.ann] = true /\
  no_email Demo.walk_in = true /\
  exists w',
    upsert_lead Demo.env ([Demo.ann] ++ Demo.walk_in :: []) Demo.second_walk_in (Demo.world [])
    = (Ok ([Demo.ann]
           ++ merged Demo.walk_in
                (with_defaults Demo.second_walk_in (utc_iso Demo.env 0))
                (utc_iso Demo.env 1) :: []), w').
Proof.
  split; [reflexivity|]. split; [reflexivity|]. split; [reflexivity|].
  exact (proj2 (upsert_lead_without_email Demo.env Demo.second_walk_in (Demo.world []) eq_refl)
               [Demo.ann] Demo.walk_in [] eq_refl eq_refl).
Defined.

(** ** C4: the qualification rule *)

Lemma budget_of_setitem (lead : dict) (k : string) (v : value) :
  k <> "Budget" -> budget_of (Dict.setitem lead k v) = budget_of lead.
Proof. intros H. unfold budget_of. now rewrite get_setitem_ne. Qed.

Lemma call_name_setitem (ts : string) (lead : dict) (k : string) (v : value) :
  k <> "Email" -> call_name ts (Dict.setitem lead k v) = call_name ts lead.
Proof.
  intros H. unfold call_name, Dict.get_or. now rewrite lookup_setitem_ne.
Qed.

(** What [auto_qualify] does with a record whose budget can be read.
    The record is changed in the session, by the rule; the call
    request of a record that qualifies is written when its e-mail
    fits a file name, and otherwise the write raises, which leaves
    the record changed. *)
Lemma auto_qualify_outcome (env : Env) (i : nat) (lead : dict) (t b : PyFloat.float)
    (w : World) :
  budget_of lead = Ok b ->
  exists r w',
    auto_qualify env i lead t w = (r, w')
    /\ leads w'
       = <[i := Dict.setitem
                  (Dict.setitem lead "Status"
                     (VStr (if PyFloat.ge b t then "Qualified" else "Unqualified")))
                  "LastActionAt" (VStr (utc_iso env (clock_reads w)))]> (leads w)
    /\ leads_json w' = leads_json w /\ emails w' = emails w /\ proposals w' = proposals w
    /\ llm_calls w' = llm_calls w /\ settings w' = settings w
    /\ if PyFloat.ge b t && negb (email_fits lead)
       then (exists e, r = Raise e
                       /\ (e = ValueError \/ e = FileNotFoundError \/ e = NotADirectoryError))
            /\ call_requests w' = call_requests w
            /\ toasts w' = toasts w /\ notif_log w' = notif_log w
       else r = Ok (Dict.setitem
                      (Dict.setitem lead "Status"
                         (VStr (if PyFloat.ge b t then "Qualified" else "Unqualified")))
                      "LastActionAt" (VStr (utc_iso env (clock_reads w))),
                    if PyFloat.ge b t then "Qualified" else "Unqualified")
            /\ if PyFloat.ge b t
               then call_requests w'
                    = <[call_name (local_stamp env (S (clock_reads w))) lead
                        := Json.dumps
                             (call_payload
                                (Dict.setitem (Dict.setitem lead "Status" (VStr "Qualified"))
                                   "LastActionAt" (VStr (utc_iso env (clock_reads w)))))]>
                        (call_requests w)
                    /\ length (toasts w') = S (length (toasts w))
               else call_requests w' = call_requests w
                    /\ toasts w' = toasts w /\ notif_log w' = notif_log w.
Proof.
  intros Hb. unfold auto_qualify, bind, lift. rewrite Hb.
  unfold now_iso at 1. unfold set_lead, modify.
  destruct (PyFloat.ge b t) eqn:G; cbn [andb].
  - match goal with
    | |- context [trigger_local_call env ?l ?w0] =>
        destruct (trigger_local_call_outcome env l w0)
          as (r & w' & Hrun & Hl & Hj & He & Hp & Hc & Hs & Hif);
        rewrite Hrun
    end.
    rewrite !email_fits_setitem in Hif by discriminate.
    rewrite !call_name_setitem in Hif by discriminate.
    cbn [leads leads_json emails proposals llm_calls settings call_requests toasts notif_log
         clock_reads with_leads with_clock_reads] in *.
    destruct (email_fits lead); cbn [negb].
    + destruct Hif as (-> & Hcr & Ht & Hck). unfold ret.
      eexists. eexists. split; [reflexivity|].
      repeat (split; [assumption|]). split; [reflexivity|].
      split; [exact Hcr|]. rewrite Ht, length_app. simpl. lia.
    + destruct Hif as ((e & -> & He') & Hcr & Ht & Hn & Hck).
      eexists. eexists. split; [reflexivity|].
      repeat (split; [assumption|]). split; [eauto|]. auto.
  - unfold ret. eexists. eexists. split; [reflexivity|]. repeat split.
Qed.

(** The statement of the spec at a concrete input: a budget that is not a number does
    not count as zero.  With the threshold zero the lead would be
    qualified; instead the conversion raises, and the Status of the
    record is not set. *)
Lemma auto_qualify_raises_on_text :
  ~ (exists lead' w',
       auto_qualify Demo.env 0 Demo.scribbled PyFloat.zero (Demo.world [Demo.scribbled])
       = (Ok (lead', "Qualified"), w'))
  /\ ~ (exists lead',
          leads (snd (auto_qualify Demo.env 0 Demo.scribbled PyFloat.zero
                        (Demo.world [Demo.scribbled]))) !! 0 = Some lead'
          /\ Dict.get lead' "Status" = VStr "Qualified").
Proof.
  split.
  - intros (lead' & w' & H). vm_compute in H. discriminate.
  - intros (lead' & H & Hs). vm_compute in H. injection H as <-.
    vm_compute in Hs. discriminate.
Qed.

(** C4, amended.  The budget of a lead is taken as 0 when the Budget
    field is missing or falsy (None, empty, zero).  When the budget
    can be read, [auto_qualify] sets the Status of the record to
    Qualified if and only if the budget is at least the threshold,
    and to Unqualified otherwise; it then returns the record and that
    status, unless the record qualifies and its call request cannot
    be written, in which case it raises and the Status stays set.  A
    second run on the result gives the same status.  When the Budget
    is a text that does not read as a number, [auto_qualify] raises
    ValueError and changes nothing. *)
Theorem auto_qualify_rule (env : Env) (i : nat) (lead : dict) (t : PyFloat.float) (w : World) :
  leads w !! i = Some lead ->
  (Value.truthy (Dict.get lead "Budget") = false -> budget_of lead = Ok PyFloat.zero)
  /\
  (forall b, budget_of lead = Ok b ->
     exists r lead' w',
       auto_qualify env i lead t w = (r, w')
       /\ leads w' !! i = Some lead'
       /\ (Dict.get lead' "Status" = VStr "Qualified" <-> PyFloat.ge b t = true)
       /\ (Dict.get lead' "Status" = VStr "Unqualified" <-> PyFloat.ge b t = false)
       /\ (r = Ok (lead', if PyFloat.ge b t then "Qualified" else "Unqualified")
           \/ (exists e, r = Raise e) /\ PyFloat.ge b t = true /\ email_fits lead = false)
       /\ forall w1, leads w1 !! i = Some lead' ->
            exists r2 lead'' w2,
              auto_qualify env i lead' t w1 = (r2, w2)
              /\ leads w2 !! i = Some lead''
              /\ Dict.get lead'' "Status" = Dict.get lead' "Status"
              /\ (r2 = Ok (lead'', if PyFloat.ge b t then "Qualified" else "Unqualified")
                  \/ exists e, r2 = Raise e))
  /\
  (forall s, Dict.get lead "Budget" = VStr s -> s <> EmptyString ->
     PyFloat.of_str s = None ->
     auto_qualify env i lead t w = (Raise ValueError, w)).
Proof.
  intros Hi. split; [|split].
  - intros H. unfold budget_of, Value.por. now rewrite H.
  - intros b Hb.
    assert (forall x w0, leads w0 !! i = Some x -> budget_of x = Ok b ->
              exists r x' w',
                auto_qualify env i x t w0 = (r, w')
                /\ leads w' !! i = Some x'
                /\ Dict.get x' "Status"
                   = VStr (if PyFloat.ge b t then "Qualified" else "Unqualified")
                /\ budget_of x' = Ok b
                /\ (r = Ok (x', if PyFloat.ge b t then "Qualified" else "Unqualified")
                    \/ (exists e, r = Raise e) /\ PyFloat.ge b t = true
                       /\ email_fits x = false)) as Hstep.
    { intros x w0 Hx Hbx.
      destruct (auto_qualify_outcome env i x t b w0 Hbx)
        as (r & w' & Hrun & Hl & _ & _ & _ & _ & _ & Hif).
      exists r. eexists. exists w'. split; [exact Hrun|].
      split; [rewrite Hl; apply list_lookup_insert_eq; eapply lookup_lt_Some; eauto|].
      split; [rewrite get_setitem_ne by discriminate; apply get_setitem_eq|].
      split; [now rewrite !budget_of_setitem by discriminate|].
      destruct (PyFloat.ge b t); cbn [andb] in Hif; [|left; apply Hif].
      destruct (email_fits x); cbn [negb] in Hif; [left; apply Hif|].
      right. destruct Hif as ((e & -> & _) & _). eauto. }
    destruct (Hstep lead w Hi Hb) as (r & lead' & w' & Hrun & Hi' & Hst & Hb' & Hr).
    exists r, lead', w'. split; [exact Hrun|]. split; [exact Hi'|]. rewrite Hst.
    split; [|split; [|split]].
    + destruct (PyFloat.ge b t); split; congruence.
    + destruct (PyFloat.ge b t); split; congruence.
    + exact Hr.
    + intros w1 Hi1.
      destruct (Hstep lead' w1 Hi1 Hb') as (r2 & lead'' & w2 & Hrun2 & Hi2 & Hst2 & _ & Hr2).
      exists r2, lead'', w2. split; [exact Hrun2|]. split; [exact Hi2|].
      split; [congruence|].
      destruct Hr2 as [->|((e & ->) & _)]; [now left|right; eauto].
  - intros s Hs Hne Hparse. unfold auto_qualify, bind, lift, budget_of, Value.por.
    rewrite Hs. destruct s as [|c s]; [contradiction|]. simpl.
    now rewrite Hparse.
Qed.

Lemma auto_qualify_rule_witness :
  leads (Demo.world [Demo.jane_again]) !! 0 = Some Demo.jane_again
  /\ budget_of Demo.jane_again = Ok (PyFloat.of_Z 20000)
  /\ exists r lead' w',
       auto_qualify Demo.env 0 Demo.jane_again (PyFloat.of_Z 10000)
         (Demo.world [Demo.jane_again]) = (r, w')
       /\ leads w' !! 0 = Some lead'
       /\ (Dict.get lead' "Status" = VStr "Qualified"
           <-> PyFloat.ge (PyFloat.of_Z 20000) (PyFloat.of_Z 10000) = true)
       /\ (Dict.get lead' "Status" = VStr "Unqualified"
           <-> PyFloat.ge (PyFloat.of_Z 20000) (PyFloat.of_Z 10000) = false)
       /\ (r = Ok (lead', if PyFloat.ge (PyFloat.of_Z 20000) (PyFloat.of_Z 10000)
                          then "Qualified" else "Unqualified")
           \/ (exists e, r = Raise e)
              /\ PyFloat.ge (PyFloat.of_Z 20000) (PyFloat.of_Z 10000) = true
              /\ email_fits Demo.jane_again = false)
       /\ forall w1, leads w1 !! 0 = Some lead' ->
            exists r2 lead'' w2,
              auto_qualify Demo.env 0 lead' (PyFloat.of_Z 10000) w1 = (r2, w2)
              /\ leads w2 !! 0 = Some lead''
              /\ Dict.get lead'' "Status" = Dict.get lead' "Status"
              /\ (r2 = Ok (lead'', if PyFloat.ge (PyFloat.of_Z 20000) (PyFloat.of_Z 10000)
                                   then "Qualified" else "Unqualified")
                  \/ exists e, r2 = Raise e).
Proof.
  split; [reflexivity|]. split; [reflexivity|].
  exact (proj1 (proj2 (auto_qualify_rule Demo.env 0 Demo.jane_again (PyFloat.of_Z 10000)
                         (Demo.world [Demo.jane_again]) eq_refl))
               (PyFloat.of_Z 20000) eq_refl).
Defined.

(** ** The result of an upsert *)

Lemma find_by_email_total (l : list dict) (lead : dict) (i : nat) :
  forallb email_ok l = true -> email_ok lead = true ->
  exists o, find_by_email l lead i = Ok o.
Proof.
  intros Hl Hlead. revert i. induction l as [|x l IH]; intros i; simpl.
  - eauto.
  - apply andb_true_iff in Hl as [Hx Hl]. unfold email_ok in Hx, Hlead.
    destruct (email_key x) as [a|]; [|discriminate].
    destruct (email_key lead) as [b|]; [|discriminate]. simpl.
    destruct (String.eqb a b); eauto.
Qed.


Lemma lookup_setdefault_ne (d : dict) (k k' : string) (v : value) :
  k <> k' -> Dict.lookup (Dict.setdefault d k v) k' = Dict.lookup d k'.
Proof.
  intros H. unfold Dict.setdefault.
  destruct (Dict.lookup d k); [reflexivity|]. now apply lookup_setitem_ne.
Qed.

Lemma lookup_None_not_in_keys (d : dict) (k : string) :
  Dict.lookup d k = None -> ~ In k (Dict.keys d).
Proof.
  induction d as [|[k' v'] d IH]; simpl; [tauto|].
  destruct (String.eqb k' k) eqn:E; [discriminate|].
  intros H [Heq|Hin]; [|now apply IH].
  subst. now rewrite String.eqb_refl in E.
Qed.

Lemma keys_setitem_new (d : dict) (k : string) (v : value) :
  Dict.lookup d k = None -> Dict.keys (Dict.setitem d k v) = Dict.keys d ++ [k].
Proof.
  induction d as [|[k' v'] d IH]; simpl; [reflexivity|].
  destruct (String.eqb k' k); [discriminate|].
  intros H. simpl. f_equal. now apply IH.
Qed.

Lemma NoDup_keys_setdefault (d : dict) (k : string) (v : value) :
  NoDup (Dict.keys d) -> NoDup (Dict.keys (Dict.setdefault d k v)).
Proof.
  intros Hnd. unfold Dict.setdefault.
  destruct (Dict.lookup d k) eqn:E; [assumption|].
  rewrite keys_setitem_new by assumption.
  apply NoDup_app. split; [assumption|]. split.
  - intros x Hx Hin. apply list_elem_of_In in Hx.
    apply list_elem_of_In in Hin. destruct Hin as [<-|[]].
    now apply lookup_None_not_in_keys in E.
  - repeat constructor. intros H. inversion H.
Qed.

(** A field of the candidate other than Status and LastActionAt is
    found unchanged in the merged record. *)
Lemma lookup_merged (x lead : dict) (t k : string) (v : value) :
  NoDup (Dict.keys lead) -> k <> "Status" -> k <> "LastActionAt" ->
  Dict.lookup lead k = Some v -> Dict.lookup (merged x lead t) k = Some v.
Proof.
  intros Hnd Hs Ht Hk. unfold merged.
  rewrite lookup_setitem_ne by congruence.
  destruct (Value.among _ _).
  - rewrite lookup_setitem_ne by congruence.
    rewrite lookup_update by assumption. now rewrite Hk.
  - rewrite lookup_update by assumption. now rewrite Hk.
Qed.


(** ** C5: the import of rows *)

Lemma normalize_row_values (row : csv_row) (norm : dict) (k : string) :
  normalize_row row = Ok norm -> text_or_none (Dict.get norm k) = true.
Proof.
  unfold normalize_row. destruct (overflow row); [discriminate|].
  intros [= <-].
  assert (forall (cs : list (string * option string)) (acc : dict),
            text_or_none (Dict.get acc k) = true ->
            text_or_none
              (Dict.get
                 (fold_left
                    (fun acc kv =>
                       Dict.setitem acc (Text.lower (Text.strip (fst kv)))
                         match snd kv with
                         | Some v => VStr (Text.strip v)
                         | None => VNone
                         end) cs acc) k) = true) as Hfold.
  { induction cs as [|[k0 v0] cs IH]; intros acc Hacc; cbn [fold_left fst snd];
      [assumption|].
    apply IH.
    destruct (String.eqb (Text.lower (Text.strip k0)) k) eqn:E.
    - apply String.eqb_eq in E. subst k.
      rewrite get_setitem_eq. now destruct v0.
    - rewrite get_setitem_ne; [assumption|].
      intros Heq. rewrite Heq in E. now rewrite String.eqb_refl in E. }
  now apply Hfold.
Qed.





(** ** Texts *)

Lemma append_nil_l (s : string) : (EmptyString +:+ s)%string = s.
Proof. reflexivity. Qed.

Lemma append_cons (c : ascii) (a b : string) :
  (String c a +:+ b)%string = String c (a +:+ b).
Proof. reflexivity. Qed.

Lemma append_nil_r (s : string) : (s +:+ EmptyString)%string = s.
Proof. induction s; rewrite ?append_cons; [reflexivity|congruence]. Qed.

Lemma append_assoc (a b c : string) :
  ((a +:+ b) +:+ c)%string = (a +:+ (b +:+ c))%string.
Proof. induction a; rewrite ?append_cons; [reflexivity|congruence]. Qed.

Lemma length_append (a b : string) :
  String.length (a +:+ b) = String.length a + String.length b.
Proof. induction a; rewrite ?append_cons; simpl; auto. Qed.

Lemma startswith_append (p b : string) : Text.startswith p (p +:+ b) = true.
Proof.
  induction p as [|c p IH]; rewrite ?append_cons; simpl; [reflexivity|].
  now rewrite Ascii.eqb_refl.
Qed.

Lemma contains_prefix (p b : string) : Text.contains p (p +:+ b) = true.
Proof.
  pose proof (startswith_append p b) as H.
  destruct (p +:+ b)%string; simpl; rewrite H; reflexivity.
Qed.

Lemma contains_app_r (p a b : string) :
  Text.contains p b = true -> Text.contains p (a +:+ b) = true.
Proof.
  intros H. induction a as [|c a IH]; rewrite ?append_cons; [assumption|].
  simpl. rewrite IH. apply orb_true_r.
Qed.

Lemma startswith_split (p s : string) :
  Text.startswith p s = true -> exists b, s = (p +:+ b)%string.
Proof.
  revert s. induction p as [|c p IH]; intros s H.
  - now exists s.
  - destruct s as [|d s]; [discriminate|]. simpl in H.
    apply andb_true_iff in H as [Hd Hp]. apply Ascii.eqb_eq in Hd. subst d.
    destruct (IH s Hp) as [b ->]. now exists b.
Qed.

(** [p in s] holds exactly when [s] is some text, then [p], then some
    text. *)
Lemma contains_spec (p s : string) :
  Text.contains p s = true <-> exists a b, s = (a +:+ p +:+ b)%string.
Proof.
  split.
  - induction s as [|c s IH].
    + intros H. simpl in H. rewrite orb_false_r in H.
      apply startswith_split in H as [b Hb]. now exists EmptyString, b.
    + cbn [Text.contains]. intros H. apply orb_true_iff in H as [H|H].
      * apply startswith_split in H as [b Hb]. now exists EmptyString, b.
      * destruct (IH H) as (a & b & ->). now exists (String c a), b.
  - intros (a & b & ->). apply contains_app_r, contains_prefix.
Qed.

(** ** C6: the fallback of the proposal generator *)

(** [generate_proposal_md] returns a text whatever the backend does. *)
Lemma generate_proposal_md_returns (env : Env) (lead cfg : dict) (w : World) :
  exists md w',
    generate_proposal_md env lead cfg w = (Ok md, w')
    /\ leads w' = leads w /\ settings w' = settings w
    /\ emails w' = emails w /\ proposals w' = proposals w
    /\ call_requests w' = call_requests w /\ leads_json w' = leads_json w.
Proof.
  unfold generate_proposal_md.
  destruct (LLM_AVAILABLE env).
  - unfold bind, gets, modify, notify, now_iso, ret.
    destruct (ollama env _ _ _ _); eexists; eexists; repeat split; reflexivity.
  - unfold ret. eexists; eexists; repeat split; reflexivity.
Qed.




(** ** C8: the webhook on an unanswered call *)

Lemma existsb_eqb_In (s : string) (l : list string) :
  existsb (String.eqb s) l = true <-> In s l.
Proof.
  rewrite existsb_exists. split.
  - intros (x & Hin & Heq). apply String.eqb_eq in Heq. now subst.
  - intros H. exists s. split; [assumption|apply String.eqb_refl].
Qed.

(** A delivered event runs the branch of its type on the record, then
    stamps the record and saves the collection. *)
Lemma send_event_clicked_delivered (env : Env) (em : value) (event_type transcript : string)
    (w : World) (i : nat) (lead : dict) :
  delivered_to w em i lead ->
  send_event_clicked env em event_type transcript w
  = bind (if existsb (String.eqb event_type) no_answer_events
          then on_no_answer env i lead
          else on_call_completed env i lead transcript)
         (fun lead1 =>
            bind (now_iso env)
              (fun t =>
                 bind (set_lead i (Dict.setitem lead1 "LastActionAt" (VStr t)))
                   (fun _ => bind (gets leads) (fun l => save_leads l)))) w.
Proof.
  intros (Hem & Hfind & Hi & Hne).
  unfold send_event_clicked. rewrite Hem.
  match goal with
  | |- bind (gets leads) ?k w = _ =>
      change (bind (gets leads) k w) with (k (leads w) w)
  end.
  cbv beta. rewrite Hfind, Hi, Hne. reflexivity.
Qed.

(** The branch of an unanswered call: the record is marked in the
    session, then the follow-up is written when the e-mail of the
    record fits a file name; otherwise the write raises and nothing
    else is done. *)
Lemma on_no_answer_outcome (env : Env) (i : nat) (lead : dict) (w : World) :
  exists r w',
    on_no_answer env i lead w = (r, w')
    /\ leads w'
       = <[i := Dict.setitem (Dict.setitem lead "Status" (VStr "No Answer"))
                  "Notes" (VStr no_pickup_note)]> (leads w)
    /\ leads_json w' = leads_json w /\ proposals w' = proposals w
    /\ call_requests w' = call_requests w /\ llm_calls w' = llm_calls w
    /\ if email_fits lead
       then r = Ok (Dict.setitem (Dict.setitem lead "Status" (VStr "No Answer"))
                      "Notes" (VStr no_pickup_note))
            /\ emails w'
               = <[email_name (local_stamp env (clock_reads w)) (Dict.get lead "Email")
                     follow_up_subject
                   := email_text (Dict.get lead "Email") follow_up_subject follow_up_html []]>
                   (emails w)
            /\ length (toasts w') = S (S (length (toasts w)))
       else (exists e, r = Raise e
                       /\ (e = ValueError \/ e = FileNotFoundError \/ e = NotADirectoryError))
            /\ emails w' = emails w /\ toasts w' = toasts w /\ notif_log w' = notif_log w.
Proof.
  unfold on_no_answer. unfold bind at 1. unfold set_lead, modify. unfold bind at 1.
  match goal with
  | |- context [save_email env ?a ?b ?c ?d ?w0] =>
      destruct (save_email_outcome env a b c d w0)
        as (r & w1 & Hrun & Hl & Hj & Hc & Hp & Hm & Hs & Hif);
      rewrite Hrun
  end.
  rewrite !get_setitem_ne in Hif by discriminate.
  cbn [leads leads_json emails proposals llm_calls settings call_requests toasts notif_log
       clock_reads with_leads] in *.
  fold (email_fits lead) in Hif.
  destruct (email_fits lead).
  - destruct Hif as (-> & He & Ht & Hck).
    unfold notify, now_iso, bind, modify, ret. eexists. eexists.
    split; [reflexivity|].
    cbn [leads leads_json emails proposals llm_calls settings call_requests toasts notif_log
         clock_reads with_notification with_clock_reads].
    repeat (split; [assumption|]). split; [reflexivity|]. split; [exact He|].
    rewrite Ht, !length_app. simpl. lia.
  - destruct Hif as ((e & -> & He') & He & Ht & Hn & Hck).
    eexists. eexists. split; [reflexivity|].
    repeat (split; [assumption|]). split; [eauto|]. auto.
Qed.

(** The statement of the spec at a concrete input: an address with a slash in it,
    which the form and the import accept as they accept any text.
    The event marks the record and then raises when it writes the
    follow-up: no e-mail artifact is written, and the record is
    neither stamped nor saved. *)
Lemma send_event_no_answer_unwritten :
  let w := Demo.world [Demo.slashed] in
  let r := send_event_clicked Demo.env (VStr "a/b@c.com") "call.no_answer" "No pickup." w in
  delivered_to w (VStr "a/b@c.com") 0 Demo.slashed
  /\ In "call.no_answer" no_answer_events
  /\ fst r = Raise FileNotFoundError
  /\ emails (snd r) = emails w
  /\ leads_json (snd r) = leads_json w
  /\ match leads (snd r) with
     | [x] => Dict.get x "Status" = VStr "No Answer"
              /\ Dict.get x "LastActionAt" = Dict.get Demo.slashed "LastActionAt"
     | _ => False
     end.
Proof.
  cbv zeta. split; [repeat split; reflexivity|]. split; [left; reflexivity|].
  vm_compute. repeat split.
Qed.

(** C8, amended.  For an event of type call.no_answer or
    call.unanswered on a record whose e-mail has neither a slash nor
    a NUL, whatever the transcript, the record's Status becomes "No
    Answer" and its Notes the fixed note, exactly one e-mail artifact
    is written, the follow-up to the address of the record, and no
    proposal is generated: the proposals are as before and the model
    backend is not called. *)
Theorem send_event_no_answer (env : Env) (em : value) (event_type transcript : string)
    (w : World) (i : nat) (lead : dict) :
  delivered_to w em i lead ->
  In event_type no_answer_events ->
  email_fits lead = true ->
  exists w' lead',
    send_event_clicked env em event_type transcript w = (Ok tt, w')
    /\ leads w' !! i = Some lead'
    /\ Dict.get lead' "Status" = VStr "No Answer"
    /\ Dict.get lead' "Notes" = VStr no_pickup_note
    /\ emails w'
       = <[cat [local_stamp env (clock_reads w); "__"; Value.str (Dict.get lead "Email"); "__";
                "Follow-up_Lets_schedule_a_quick_call"; ".md"]
           := String.concat nl
                [ "# To: " +:+ Value.str (Dict.get lead "Email");
                  "# Subject: " +:+ follow_up_subject; EmptyString; follow_up_html;
                  EmptyString ]]> (emails w)
    /\ proposals w' = proposals w
    /\ llm_calls w' = llm_calls w
    /\ forall transcript',
         send_event_clicked env em event_type transcript' w = (Ok tt, w').
Proof.
  intros Hdel Hev Hfit.
  pose proof Hdel as (_ & _ & Hi & _).
  apply existsb_eqb_In in Hev.
  assert (i < length (leads w)) as Hlt by (eapply lookup_lt_Some; eauto).
  assert (forall transcript',
            send_event_clicked env em event_type transcript' w
            = send_event_clicked env em event_type transcript w) as Hsame.
  { intros transcript'.
    rewrite !(send_event_clicked_delivered env em event_type _ w i lead Hdel).
    now rewrite Hev. }
  assert (exists w' lead',
            send_event_clicked env em event_type transcript w = (Ok tt, w')
            /\ leads w' !! i = Some lead'
            /\ Dict.get lead' "Status" = VStr "No Answer"
            /\ Dict.get lead' "Notes" = VStr no_pickup_note
            /\ emails w'
               = <[email_name (local_stamp env (clock_reads w)) (Dict.get lead "Email")
                     follow_up_subject
                   := email_text (Dict.get lead "Email") follow_up_subject follow_up_html []]>
                   (emails w)
            /\ proposals w' = proposals w
            /\ llm_calls w' = llm_calls w) as (w' & lead' & Hrun & H).
  { rewrite (send_event_clicked_delivered env em event_type _ w i lead Hdel), Hev.
    destruct (on_no_answer_outcome env i lead w)
      as (r & w1 & Hrun & Hl & Hj & Hp & Hc & Hm & Hif).
    rewrite Hfit in Hif. destruct Hif as (-> & He & _).
    unfold bind at 1. rewrite Hrun.
    unfold now_iso, set_lead, save_leads, bind, gets, modify.
    eexists. eexists. split; [reflexivity|].
    cbn [leads emails proposals llm_calls with_leads with_leads_json with_clock_reads].
    rewrite Hl, He, Hp, Hm.
    split; [apply list_lookup_insert_eq; now rewrite length_insert|].
    split; [now rewrite !get_setitem_ne by discriminate; rewrite get_setitem_eq|].
    split; [now rewrite !get_setitem_ne by discriminate; rewrite get_setitem_eq|].
    repeat split. }
  exists w', lead'. split; [exact Hrun|].
  destruct H as (H1 & H2 & H3 & H4 & H5 & H6).
  repeat (split; [first [assumption | exact H4]|]).
  intros transcript'. rewrite Hsame. exact Hrun.
Qed.

Lemma send_event_no_answer_witness :
  delivered_to (Demo.world [Demo.jane]) (VStr "jane@acme.com") 0 Demo.jane
  /\ In "call.unanswered" no_answer_events
  /\ email_fits Demo.jane = true
  /\ exists w' lead',
       send_event_clicked Demo.env (VStr "jane@acme.com") "call.unanswered"
         "Yes, send a proposal." (Demo.world [Demo.jane]) = (Ok tt, w')
       /\ leads w' !! 0 = Some lead'
       /\ Dict.get lead' "Status" = VStr "No Answer"
       /\ proposals w' = proposals (Demo.world [Demo.jane]).
Proof.
  assert (delivered_to (Demo.world [Demo.jane]) (VStr "jane@acme.com") 0 Demo.jane) as Hdel
    by (repeat split; reflexivity).
  assert (In "call.unanswered" no_answer_events) as Hev by (right; left; reflexivity).
  split; [exact Hdel|]. split; [exact Hev|]. split; [reflexivity|].
  destruct (send_event_no_answer Demo.env (VStr "jane@acme.com") "call.unanswered"
              "Yes, send a proposal." (Demo.world [Demo.jane]) 0 Demo.jane Hdel Hev eq_refl)
    as (w' & lead' & Hrun & Hi & Hst & _ & _ & Hprop & _).
  exists w', lead'. repeat split; assumption.
Defined.

(** ** C7 and C9: the webhook on a completed call *)





(** The branch of a completed call when no keyword matches: the
    transcript is stored and one notification is logged. *)
Lemma on_call_completed_quiet (env : Env) (i : nat) (lead : dict) (transcript : string)
    (w : World) :
  wants_proposal transcript = false ->
  let lead1 := Dict.setitem lead "CallTranscript" (VStr (Text.take transcript_limit transcript)) in
  exists w',
    on_call_completed env i lead transcript w = (Ok lead1, w')
    /\ leads w' = <[i := lead1]> (leads w)
    /\ emails w' = emails w /\ proposals w' = proposals w
    /\ call_requests w' = call_requests w /\ llm_calls w' = llm_calls w
    /\ toasts w' = toasts w ++ [" Call completed; no proposal requested or not detected."].
Proof.
  intros Hw lead1. unfold on_call_completed. rewrite Hw.
  unfold set_lead, notify, now_iso, bind, modify, ret.
  eexists. repeat split; reflexivity.
Qed.


(** Whatever the branch does, and even when it raises, the record
    holds the truncated transcript afterwards. *)
Lemma on_call_completed_transcript (env : Env) (i : nat) (lead : dict)
    (transcript : string) (w : World) :
  i < length (leads w) ->
  exists r w' lead',
    on_call_completed env i lead transcript w = (r, w')
    /\ leads w' !! i = Some lead'
    /\ i < length (leads w')
    /\ Dict.get lead' "CallTranscript" = VStr (Text.take transcript_limit transcript)
    /\ (r = Ok lead' \/ exists e, r = Raise e).
Proof.
  intros Hlt.
  set (lead1 := Dict.setitem lead "CallTranscript" (VStr (Text.take transcript_limit transcript))).
  destruct (wants_proposal transcript) eqn:Hw.
  - unfold on_call_completed. rewrite Hw. fold lead1.
    unfold set_lead at 1. unfold bind at 1. unfold modify at 1.
    unfold bind at 1. unfold gets at 1. unfold bind at 1.
    match goal with
    | |- context [generate_proposal_md env ?l ?c ?w0] =>
        destruct (generate_proposal_md_returns env l c w0)
          as (md & w1 & Hg & Hl1 & _); rewrite Hg
    end.
    cbn [leads with_leads] in Hl1.
    unfold save_proposal. unfold bind at 1. unfold bind at 1. unfold lift.
    destruct (chars_of _) as [s|e].
    + unfold notify, now_stamp, now_iso, set_lead, bind, gets, modify, ret.
      cbn [leads emails proposals with_leads with_emails with_proposals with_notification
           with_clock_reads fst snd].
      match goal with
      | |- context [save_email env ?a ?b ?c ?d ?w0] =>
          destruct (save_email_outcome env a b c d w0)
            as (re & w2 & Hrun & Hl2 & _ & _ & _ & _ & _ & Hif);
          rewrite Hrun
      end.
      cbn [leads with_leads with_proposals with_clock_reads] in Hl2.
      clear Hif. destruct re as [p|e].
      * eexists. eexists. eexists. split; [reflexivity|].
        cbn [leads with_notification with_clock_reads].
        rewrite Hl2, Hl1. split; [|split; [|split]].
        -- apply list_lookup_insert_eq. now rewrite length_insert.
        -- now rewrite !length_insert.
        -- rewrite !get_setitem_ne by discriminate. apply get_setitem_eq.
        -- now left.
      * eexists. eexists. eexists. split; [reflexivity|].
        rewrite Hl2, Hl1. split; [|split; [|split]].
        -- apply list_lookup_insert_eq. now rewrite length_insert.
        -- now rewrite !length_insert.
        -- rewrite !get_setitem_ne by discriminate. apply get_setitem_eq.
        -- right. eauto.
    + eexists. eexists. exists lead1. split; [reflexivity|].
      rewrite Hl1. split; [|split; [|split]].
      * now apply list_lookup_insert_eq.
      * now rewrite length_insert.
      * apply get_setitem_eq.
      * right. eauto.
  - destruct (on_call_completed_quiet env i lead transcript w Hw)
      as (w' & Hrun & Hl & _).
    exists (Ok lead1), w', lead1. split; [exact Hrun|].
    rewrite Hl. split; [|split; [|split]].
    + now apply list_lookup_insert_eq.
    + now rewrite length_insert.
    + apply get_setitem_eq.
    + now left.
Qed.

Lemma not_no_answer (event_type : string) :
  ~ In event_type no_answer_events ->
  existsb (String.eqb event_type) no_answer_events = false.
Proof.
  intros H. destruct (existsb _ _) eqn:E; [|reflexivity].
  apply existsb_eqb_In in E. contradiction.
Qed.




(** ** C9: the stored transcript *)

Lemma length_take (n : nat) (s : string) :
  String.length (Text.take n s) = Nat.min n (String.length s).
Proof.
  revert s. induction n as [|n IH]; intros [|c s]; simpl; auto.
Qed.

Lemma take_all (n : nat) (s : string) :
  String.length s <= n -> Text.take n s = s.
Proof.
  revert s. induction n as [|n IH]; intros [|c s] H; simpl in *; try reflexivity.
  - lia.
  - f_equal. apply IH. lia.
Qed.

Lemma take_drop (n : nat) (s : string) :
  s = (Text.take n s +:+ Text.drop n s)%string.
Proof.
  revert s. induction n as [|n IH]; intros [|c s]; simpl; try reflexivity.
  rewrite append_cons. f_equal. apply IH.
Qed.

(** C9.  After a webhook event whose type is not a no-answer type,
    the record's CallTranscript is the transcript cut to its first
    15,000 characters: a transcript of at most 15,000 characters is
    stored as it is, a longer one as exactly its first 15,000
    characters.  This holds also when the event goes on to raise. *)
Theorem send_event_stores_transcript (env : Env) (em : value) (event_type transcript : string)
    (w : World) (i : nat) (lead : dict) :
  delivered_to w em i lead ->
  ~ In event_type no_answer_events ->
  let stored := Text.take transcript_limit transcript in
  (exists lead',
     leads (snd (send_event_clicked env em event_type transcript w)) !! i = Some lead'
     /\ Dict.get lead' "CallTranscript" = VStr stored)
  /\ (Z.of_nat (String.length stored) <= 15000)%Z
  /\ ((Z.of_nat (String.length transcript) <= 15000)%Z -> stored = transcript)
  /\ ((15000 < Z.of_nat (String.length transcript))%Z ->
      Z.of_nat (String.length stored) = 15000%Z
      /\ exists rest, transcript = (stored +:+ rest)%string).
Proof.
  intros Hdel Hev stored.
  pose proof Hdel as (_ & _ & Hi & _).
  assert (i < length (leads w)) as Hlt by (eapply lookup_lt_Some; eauto).
  apply not_no_answer in Hev.
  assert (Z.of_nat transcript_limit = 15000%Z) as Hlim
    by (unfold transcript_limit; now rewrite Z2Nat.id).
  split; [|split; [|split]].
  - rewrite (send_event_clicked_delivered env em event_type _ w i lead Hdel), Hev.
    destruct (on_call_completed_transcript env i lead transcript w Hlt)
      as (r & w1 & lead1 & Hrun & Hi1 & Hlt1 & Hct & Hr).
    unfold bind at 1. rewrite Hrun.
    destruct Hr as [-> | (e & ->)].
    + unfold now_iso, set_lead, save_leads, bind, gets, modify.
      cbn [leads with_leads with_leads_json with_clock_reads fst snd].
      eexists. split.
      * now apply list_lookup_insert_eq.
      * now rewrite get_setitem_ne by discriminate.
    + cbn [snd]. eauto.
  - unfold stored. rewrite length_take. lia.
  - intros H. apply take_all. lia.
  - intros H. split.
    + unfold stored. rewrite length_take. lia.
    + exists (Text.drop transcript_limit transcript). apply take_drop.
Qed.

Lemma send_event_stores_transcript_witness :
  delivered_to (Demo.world [Demo.jane]) (VStr "jane@acme.com") 0 Demo.jane
  /\ ~ In "call.summary" no_answer_events
  /\ exists lead',
       leads (snd (send_event_clicked Demo.env (VStr "jane@acme.com") "call.summary"
                     "Not interested, thanks." (Demo.world [Demo.jane]))) !! 0 = Some lead'
       /\ Dict.get lead' "CallTranscript"
          = VStr (Text.take transcript_limit "Not interested, thanks.").
Proof.
  assert (delivered_to (Demo.world [Demo.jane]) (VStr "jane@acme.com") 0 Demo.jane) as Hdel
    by (repeat split; reflexivity).
  assert (~ In "call.summary" no_answer_events) as Hev
    by (simpl; intros [H|[H|[]]]; discriminate H).
  split; [exact Hdel|]. split; [exact Hev|].
  exact (proj1 (send_event_stores_transcript Demo.env (VStr "jane@acme.com") "call.summary"
                  "Not interested, thanks." (Demo.world [Demo.jane]) 0 Demo.jane Hdel Hev)).
Defined.

(** ** C10: the stored document reads back *)

(** *** Strings *)

Lemma scan_string_escape_char (c : ascii) (tail : string) :
  Json.scan_string (Json.escape_char c +:+ tail)
  = match Json.scan_string tail with
    | Some (t, r) => Some (String c t, r)
    | None => None
    end.
Proof.
  destruct c as [[] [] [] [] [] [] [] []]; reflexivity.
Qed.

Lemma scan_string_escape (s rest : string) :
  Json.scan_string (Json.escape s +:+ String Json.dquote rest) = Some (s, rest).
Proof.
  induction s as [|c s IH].
  - reflexivity.
  - cbn [Json.escape]. rewrite append_assoc, scan_string_escape_char.
    now rewrite IH.
Qed.

(** *** Digits *)

Lemma span_all_dec (a rest : string) :
  all_dec a = true -> no_digit_ahead rest = true ->
  PyFloat.span Text.isdecimal (a +:+ rest) = (a, rest).
Proof.
  intros Ha Hr. induction a as [|c a IH].
  - rewrite append_nil_l. destruct rest as [|d rest]; [reflexivity|].
    simpl in *. apply negb_true_iff in Hr. now rewrite Hr.
  - rewrite append_cons. simpl in *. apply andb_true_iff in Ha as [Hc Ha].
    rewrite Hc, (IH Ha). reflexivity.
Qed.

Lemma all_dec_app (a b : string) :
  all_dec (a +:+ b) = all_dec a && all_dec b.
Proof.
  induction a as [|c a IH]; rewrite ?append_cons; simpl; [reflexivity|].
  now rewrite IH, andb_assoc.
Qed.

Lemma all_dec_uint (u : Decimal.uint) : all_dec (NilEmpty.string_of_uint u) = true.
Proof. induction u; simpl; auto. Qed.

Lemma Z_of_digits_uint (u : Decimal.uint) :
  PyFloat.Z_of_digits (NilEmpty.string_of_uint u) = Z.of_uint u.
Proof. unfold PyFloat.Z_of_digits. now rewrite NilEmpty.usu. Qed.

Lemma nzhead_head (u : Decimal.uint) :
  match Decimal.nzhead u with
  | Decimal.D0 _ => False
  | _ => True
  end.
Proof. induction u; simpl; auto. Qed.

(** The numeral of a positive number is not empty and does not start
    with a zero. *)
Lemma pos_to_uint_head (p : positive) :
  match Pos.to_uint p with
  | Decimal.Nil | Decimal.D0 _ => False
  | _ => True
  end.
Proof.
  pose proof (DecimalPos.Unsigned.to_of (Pos.to_uint p)) as H.
  rewrite DecimalPos.Unsigned.of_to in H. simpl in H.
  pose proof (DecimalPos.Unsigned.to_uint_nonzero p) as Hnz.
  pose proof (DecimalPos.Unsigned.to_uint_nonnil p) as Hnn.
  destruct (Pos.to_uint p) as [|u| | | | | | | | | ] eqn:E; auto.
  unfold Decimal.unorm in H. simpl in H.
  pose proof (nzhead_head u) as Hh.
  destruct (Decimal.nzhead u) eqn:En; try discriminate H; contradiction.
Qed.

(** The text of a positive number: a digit from 1 to 9, then digits. *)
Lemma str_of_Z_pos (p : positive) :
  exists c s,
    Text.str_of_Z (Zpos p) = String c s
    /\ Text.between 49 57 c = true
    /\ all_dec s = true
    /\ PyFloat.Z_of_digits (String c s) = Zpos p.
Proof.
  unfold Text.str_of_Z. simpl.
  pose proof (pos_to_uint_head p) as Hh.
  pose proof (all_dec_uint (Pos.to_uint p)) as Hd.
  pose proof (Z_of_digits_uint (Pos.to_uint p)) as Hz.
  assert (Z.of_uint (Pos.to_uint p) = Zpos p) as Hv.
  { pose proof (DecimalZ.of_to (Zpos p)) as Hv. simpl in Hv. exact Hv. }
  rewrite Hv in Hz.
  unfold NilZero.string_of_uint.
  destruct (Pos.to_uint p); try contradiction; simpl in *;
    (eexists; eexists; split; [reflexivity|]; split; [reflexivity|]; split; assumption).
Qed.

(** *** Numbers *)

Ltac char_cases c :=
  destruct c as [[] [] [] [] [] [] [] []];
  try discriminate; try reflexivity; auto.

Lemma nonzero_digit_facts (c : ascii) :
  Text.between 49 57 c = true ->
  Text.has_code 45 c = false /\ Text.has_code 48 c = false
  /\ Text.isdecimal c = true.
Proof. char_cases c. Qed.

Lemma value_end_no_digit (rest : string) :
  value_end rest = true -> no_digit_ahead rest = true.
Proof. destruct rest as [|c r]; simpl; [discriminate|]. char_cases c. Qed.

Lemma scan_frac_end (rest : string) :
  value_end rest = true -> Json.scan_frac rest = (EmptyString, rest).
Proof. destruct rest as [|c r]; simpl; [discriminate|]. char_cases c. Qed.

Lemma scan_exp_end (rest : string) :
  value_end rest = true -> Json.scan_exp rest = (EmptyString, rest).
Proof. destruct rest as [|c r]; simpl; [discriminate|]. char_cases c. Qed.

(** An unsigned integer numeral in front of the end of a value. *)
Lemma scan_number_nat (neg : bool) (p : positive) (rest : string) :
  value_end rest = true ->
  Json.scan_number ((if neg then "-" else "") +:+ Text.str_of_Z (Zpos p) +:+ rest)
  = Some (VInt (if neg then Zneg p else Zpos p), rest).
Proof.
  intros Hend.
  destruct (str_of_Z_pos p) as (c & s & -> & Hc & Hs & Hz).
  destruct (nonzero_digit_facts c Hc) as (Hminus & Hzero & Hdec).
  assert (Json.scan_number (String c s +:+ rest)
          = Some (VInt (Zpos p), rest)) as Hpos.
  { rewrite append_cons. unfold Json.scan_number. rewrite Hminus.
    unfold Json.scan_int_part. rewrite Hzero, Hc.
    rewrite <- append_cons, span_all_dec;
      [|simpl; now rewrite Hdec, Hs|now apply value_end_no_digit].
    cbv beta iota. rewrite scan_frac_end by assumption.
    cbv beta iota. rewrite scan_exp_end by assumption.
    cbv beta iota. rewrite append_nil_l. now rewrite Hz. }
  destruct neg.
  - rewrite append_cons, append_nil_l.
    unfold Json.scan_number. change (Text.has_code 45 "-") with true. cbv iota.
    rewrite append_cons. unfold Json.scan_int_part. rewrite Hzero, Hc.
    rewrite <- append_cons, span_all_dec;
      [|simpl; now rewrite Hdec, Hs|now apply value_end_no_digit].
    cbv beta iota. rewrite scan_frac_end by assumption.
    cbv beta iota. rewrite scan_exp_end by assumption.
    cbv beta iota. rewrite append_nil_l. now rewrite Hz.
  - now rewrite append_nil_l.
Qed.

Lemma scan_number_int (z : Z) (rest : string) :
  value_end rest = true ->
  Json.scan_number (Text.str_of_Z z +:+ rest) = Some (VInt z, rest).
Proof.
  intros Hend. destruct z as [|p|p].
  - destruct rest as [|c r]; [discriminate|]. revert Hend. simpl value_end.
    char_cases c.
  - apply (scan_number_nat false p rest Hend).
  - change (Text.str_of_Z (Zneg p)) with ("-" +:+ Text.str_of_Z (Zpos p))%string.
    rewrite append_assoc. apply (scan_number_nat true p rest Hend).
Qed.

(** A numeral with a fraction or an exponent, given by its parts: the
    scanner takes the parts one after the other, and the float is the
    one [float] reads from the whole text. *)
Lemma scan_number_parts (neg : bool) (c : ascii) (ip fp ep rest : string)
    (x : PyFloat.float) :
  Text.has_code 48 c || Text.between 49 57 c = true ->
  Json.scan_int_part (String c ip +:+ fp +:+ ep +:+ rest)
  = Some (String c ip, (fp +:+ ep +:+ rest)%string) ->
  Json.scan_frac (fp +:+ ep +:+ rest) = (fp, (ep +:+ rest)%string) ->
  Json.scan_exp (ep +:+ rest) = (ep, rest) ->
  (fp +:+ ep)%string <> EmptyString ->
  PyFloat.of_str ((if neg then "-" else "") +:+ String c ip +:+ fp +:+ ep) = Some x ->
  Json.scan_number (((if neg then "-" else "") +:+ String c ip +:+ fp +:+ ep) +:+ rest)
  = Some (VFloat x, rest).
Proof.
  intros Hc Hip Hfp Hep Hne Hx.
  assert (Text.has_code 45 c = false) as Hminus by (revert Hc; char_cases c).
  rewrite !append_assoc.
  assert (Json.scan_number ((if neg then "-" else "") +:+ String c ip +:+ fp +:+ ep +:+ rest)
          = match Json.scan_int_part (String c ip +:+ fp +:+ ep +:+ rest) with
            | None => None
            | Some (ip0, s2) =>
                let '(fp0, s3) := Json.scan_frac s2 in
                let '(ep0, s4) := Json.scan_exp s3 in
                match (fp0 +:+ ep0)%string with
                | EmptyString =>
                    let z := PyFloat.Z_of_digits ip0 in
                    Some (VInt (if neg then (- z)%Z else z), s4)
                | _ =>
                    match PyFloat.of_str ((if neg then "-" else "") +:+ ip0 +:+ fp0 +:+ ep0) with
                    | Some x => Some (VFloat x, s4)
                    | None => None
                    end
                end
            end) as ->.
  { destruct neg.
    - rewrite append_cons, append_nil_l. unfold Json.scan_number.
      change (Text.has_code 45 "-") with true. reflexivity.
    - rewrite append_nil_l, append_cons. unfold Json.scan_number.
      rewrite Hminus. reflexivity. }
  rewrite Hip. cbv beta iota. rewrite Hfp. cbv beta iota. rewrite Hep. cbv beta iota.
  destruct (fp +:+ ep)%string eqn:E; [contradiction|].
  now rewrite Hx.
Qed.

Lemma scan_int_part_digits (c : ascii) (a r : string) :
  Text.between 49 57 c = true -> all_dec a = true -> no_digit_ahead r = true ->
  Json.scan_int_part (String c a +:+ r) = Some (String c a, r).
Proof.
  intros Hc Ha Hr. destruct (nonzero_digit_facts c Hc) as (_ & Hzero & Hdec).
  rewrite append_cons. unfold Json.scan_int_part. rewrite Hzero, Hc.
  rewrite <- append_cons, span_all_dec; auto.
  simpl. now rewrite Hdec, Ha.
Qed.

Lemma scan_frac_digits (a r : string) :
  a <> EmptyString -> all_dec a = true -> no_digit_ahead r = true ->
  Json.scan_frac ("." +:+ a +:+ r) = (("." +:+ a)%string, r).
Proof.
  intros Hne Ha Hr. rewrite append_cons, append_nil_l.
  unfold Json.scan_frac. change (Text.has_code 46 ".") with true. cbv iota.
  rewrite span_all_dec by assumption.
  destruct a; [contradiction|reflexivity].
Qed.

Lemma scan_exp_digits (g : ascii) (a r : string) :
  Text.has_code 45 g || Text.has_code 43 g = true ->
  a <> EmptyString -> all_dec a = true -> no_digit_ahead r = true ->
  Json.scan_exp ("e" +:+ String g a +:+ r) = (("e" +:+ String g a)%string, r).
Proof.
  intros Hg Hne Ha Hr. rewrite append_cons, append_nil_l, append_cons.
  unfold Json.scan_exp. change (Text.has_code 101 "e" || Text.has_code 69 "e") with true.
  cbv iota. rewrite Hg. cbv iota beta.
  rewrite span_all_dec by assumption.
  destruct a; [contradiction|reflexivity].
Qed.

Lemma all_dec_zeros (n : nat) : all_dec (PyFloat.zeros n) = true.
Proof. induction n; simpl; auto. Qed.

Lemma all_dec_take (n : nat) (s : string) :
  all_dec s = true -> all_dec (Text.take n s) = true.
Proof.
  revert s. induction n as [|n IH]; intros [|c s] H; simpl in *; auto.
  apply andb_true_iff in H as [Hc Hs]. rewrite Hc. now apply IH.
Qed.

Lemma all_dec_drop (n : nat) (s : string) :
  all_dec s = true -> all_dec (Text.drop n s) = true.
Proof.
  revert s. induction n as [|n IH]; intros [|c s] H; simpl in *; auto.
  apply andb_true_iff in H as [Hc Hs]. now apply IH.
Qed.

Lemma drop_nonempty (n : nat) (s : string) :
  n < String.length s -> Text.drop n s <> EmptyString.
Proof.
  revert s. induction n as [|n IH]; intros [|c s] H; simpl in *; try lia.
  - discriminate.
  - apply IH. lia.
Qed.

Lemma all_dec_rstrip_zeros (s : string) :
  all_dec s = true -> all_dec (PyFloat.rstrip_zeros s) = true.
Proof.
  induction s as [|c s IH]; simpl; [reflexivity|].
  intros H. apply andb_true_iff in H as [Hc Hs].
  destruct (PyFloat.rstrip_zeros s) eqn:E.
  - destruct (Text.has_code 48 c); simpl; [reflexivity|now rewrite Hc].
  - simpl. rewrite Hc. simpl. now apply IH.
Qed.

(** The digits of a positive number without their trailing zeros
    still start with the same digit from 1 to 9. *)
Lemma rstrip_zeros_head (c : ascii) (s : string) :
  Text.between 49 57 c = true -> all_dec s = true ->
  exists s', PyFloat.rstrip_zeros (String c s) = String c s' /\ all_dec s' = true.
Proof.
  intros Hc Hs. destruct (nonzero_digit_facts c Hc) as (_ & Hzero & _).
  pose proof (all_dec_rstrip_zeros s Hs) as Hr.
  simpl. rewrite Hzero.
  destruct (PyFloat.rstrip_zeros s) eqn:E; eexists; split; try reflexivity; auto.
Qed.

(** The text of a number that is not negative: digits, at least one. *)
Lemma str_of_Z_nonneg (z : Z) :
  (0 <= z)%Z ->
  Text.str_of_Z z <> EmptyString /\ all_dec (Text.str_of_Z z) = true.
Proof.
  intros H. destruct z as [|p|p]; [| |lia].
  - split; [discriminate|reflexivity].
  - destruct (str_of_Z_pos p) as (c & s & -> & Hc & Hs & _).
    destruct (nonzero_digit_facts c Hc) as (_ & _ & Hdec).
    split; [discriminate|]. simpl. now rewrite Hdec, Hs.
Qed.

(** The exponent part of a float in scientific layout. *)
Lemma scan_exp_text (x : Z) (r : string) :
  no_digit_ahead r = true ->
  Json.scan_exp (("e" +:+ PyFloat.exponent_text x) +:+ r)
  = (("e" +:+ PyFloat.exponent_text x)%string, r).
Proof.
  intros Hr. unfold PyFloat.exponent_text.
  destruct (str_of_Z_nonneg (Z.abs x) (Z.abs_nonneg x)) as [Hne Hd].
  set (a := Text.str_of_Z (Z.abs x)) in *.
  set (pad := if (String.length a <? 2)%nat then "0" else "").
  assert (pad +:+ a <> EmptyString /\ all_dec (pad +:+ a) = true)%string as [Hne' Hd'].
  { unfold pad. destruct (String.length a <? 2)%nat.
    - split; [discriminate|]. rewrite append_cons, append_nil_l. simpl. exact Hd.
    - rewrite append_nil_l. auto. }
  destruct (x <? 0)%Z.
  - change ("-" +:+ pad +:+ a)%string with (String "-" (pad +:+ a)).
    rewrite append_assoc. apply scan_exp_digits; auto.
  - change ("+" +:+ pad +:+ a)%string with (String "+" (pad +:+ a)).
    rewrite append_assoc. apply scan_exp_digits; auto.
Qed.

Lemma no_digit_ahead_e (t : string) : no_digit_ahead ("e" +:+ t) = true.
Proof. reflexivity. Qed.

Lemma scan_frac_e (t : string) :
  Json.scan_frac ("e" +:+ t) = (EmptyString, ("e" +:+ t)%string).
Proof. reflexivity. Qed.

(** A float text in the layout of [repr], in front of the end of a
    value, is one numeral for the scanner. *)
Lemma scan_number_layout (neg : bool) (d : ascii) (s : string) (decpt : Z)
    (rest : string) (x : PyFloat.float) :
  Text.between 49 57 d = true -> all_dec s = true -> value_end rest = true ->
  PyFloat.of_str ((if neg then "-" else "") +:+ PyFloat.layout (String d s) decpt) = Some x ->
  Json.scan_number (((if neg then "-" else "") +:+ PyFloat.layout (String d s) decpt) +:+ rest)
  = Some (VFloat x, rest).
Proof.
  intros Hd Hs Hend.
  destruct (nonzero_digit_facts d Hd) as (_ & _ & Hdec).
  pose proof (value_end_no_digit rest Hend) as Hnd.
  assert (Text.has_code 48 d || Text.between 49 57 d = true) as Hc
    by (rewrite Hd; apply orb_true_r).
  unfold PyFloat.layout.
  destruct ((decpt <=? -4)%Z || (16 <? decpt)%Z) eqn:Esci.
  { (* scientific *)
    set (E := PyFloat.exponent_text (decpt - 1)).
    destruct s as [|c2 s2].
    - change (String d ("e" +:+ E)) with (String d "" +:+ "" +:+ ("e" +:+ E))%string.
      intros Hx. apply scan_number_parts; [exact Hc| | | | |exact Hx].
      + rewrite ?append_nil_l. apply scan_int_part_digits; auto.
      + rewrite ?append_nil_l. rewrite append_assoc. apply scan_frac_e.
      + apply scan_exp_text; auto.
      + discriminate.
    - change (String d ("." +:+ String c2 s2 +:+ "e" +:+ E))
        with (String d "" +:+ ("." +:+ String c2 s2 +:+ "e" +:+ E))%string.
      rewrite <- (append_assoc "." (String c2 s2) ("e" +:+ E)).
      intros Hx. apply scan_number_parts; [exact Hc| | | | |exact Hx].
      + apply scan_int_part_digits; auto.
      + rewrite append_assoc.
        apply (scan_frac_digits (String c2 s2) (("e" +:+ E) +:+ rest)); auto; discriminate.
      + apply scan_exp_text; auto.
      + discriminate. }
  destruct (decpt <=? 0)%Z eqn:Ele.
  { (* 0.000ddd *)
    set (k := Z.to_nat (- decpt)).
    assert (("0." +:+ PyFloat.zeros k +:+ String d s)%string
            = (String "0" "" +:+ ("." +:+ PyFloat.zeros k +:+ String d s) +:+ "")%string) as ->
      by (rewrite append_nil_r; reflexivity).
    intros Hx. apply scan_number_parts; [reflexivity| | | | |exact Hx].
    - reflexivity.
    - apply (scan_frac_digits (PyFloat.zeros k +:+ String d s) rest); auto.
      + destruct k; discriminate.
      + rewrite all_dec_app, all_dec_zeros. simpl. now rewrite Hdec, Hs.
    - rewrite ?append_nil_l. now apply scan_exp_end.
    - discriminate. }
  destruct (Z.of_nat (String.length (String d s)) <=? decpt)%Z eqn:Elen.
  { (* ddd000.0 *)
    set (k := Z.to_nat (decpt - Z.of_nat (String.length (String d s)))).
    assert ((String d s +:+ PyFloat.zeros k +:+ ".0")%string
            = (String d (s +:+ PyFloat.zeros k) +:+ ".0" +:+ "")%string) as ->.
    { rewrite append_nil_r, !append_cons. now rewrite append_assoc. }
    intros Hx. apply scan_number_parts; [exact Hc| | | | |exact Hx].
    - apply scan_int_part_digits; auto.
      rewrite all_dec_app, all_dec_zeros. now rewrite Hs.
    - apply (scan_frac_digits "0" rest); auto; discriminate.
    - rewrite ?append_nil_l. now apply scan_exp_end.
    - discriminate. }
  (* ddd.ddd *)
  apply Z.leb_gt in Ele. apply Z.leb_gt in Elen.
  destruct (Z.to_nat decpt) as [|m] eqn:Em; [lia|].
  assert (m < String.length s) as Hm by (simpl in Elen; lia).
  cbn [Text.take Text.drop].
  assert ((String d (Text.take m s) +:+ "." +:+ Text.drop m s)%string
          = (String d (Text.take m s) +:+ ("." +:+ Text.drop m s) +:+ "")%string) as ->
    by now rewrite append_nil_r.
  intros Hx. apply scan_number_parts; [exact Hc| | | | |exact Hx].
  - apply scan_int_part_digits; auto. now apply all_dec_take.
  - apply (scan_frac_digits (Text.drop m s) rest); auto.
    + now apply drop_nonempty.
    + now apply all_dec_drop.
  - rewrite ?append_nil_l. now apply scan_exp_end.
  - discriminate.
Qed.

Lemma float_eqb_eq (x y : PyFloat.float) : PyFloat.eqb x y = true -> x = y.
Proof.
  destruct x as [s|s| |s m e], y as [s'|s'| |s' m' e']; simpl; try discriminate.
  - intros H. apply Bool.eqb_prop in H. now subst.
  - intros H. apply Bool.eqb_prop in H. now subst.
  - reflexivity.
  - intros H. apply andb_true_iff in H as [H He].
    apply andb_true_iff in H as [Hs Hm].
    apply Bool.eqb_prop in Hs. apply Pos.eqb_eq in Hm. apply Z.eqb_eq in He.
    now subst.
Qed.

Lemma reads_back_eq (x : PyFloat.float) (t : string) :
  PyFloat.reads_back x t = true -> PyFloat.of_str t = Some x.
Proof.
  unfold PyFloat.reads_back. destruct (PyFloat.of_str t) as [y|]; [|discriminate].
  intros H. apply float_eqb_eq in H. now subst.
Qed.

Lemma candidates_pos (m : positive) (e k c : Z) :
  In c (PyFloat.candidates m e k) -> (0 < c)%Z.
Proof.
  unfold PyFloat.candidates. intros H. apply filter_In in H as [_ H].
  now apply Z.ltb_lt.
Qed.

Lemma shortest_render (fuel : nat) (n : Z) (x : PyFloat.float) (neg : bool)
    (m : positive) (e p : Z) (t : string) :
  PyFloat.shortest fuel n x neg m e p = Some t ->
  exists c k, (0 < c)%Z /\ t = PyFloat.render neg c k.
Proof.
  revert n. induction fuel as [|fuel IH]; intros n; simpl; [discriminate|].
  destruct (List.find _ _) as [t'|] eqn:E.
  - intros [= <-]. apply find_some in E as [Hin _].
    apply in_map_iff in Hin as (c & <- & Hc).
    exists c, (p - n)%Z. split; [|reflexivity]. eapply candidates_pos; eauto.
  - apply IH.
Qed.

(** The [repr] of a finite float that is not zero is the text of a
    positive decimal. *)
Lemma repr_render (s : bool) (m : positive) (e : Z) :
  exists c k, (0 < c)%Z /\ PyFloat.repr (S754_finite s m e) = PyFloat.render s c k.
Proof.
  unfold PyFloat.repr.
  destruct (PyFloat.shortest _ _ _ _ _ _ _) as [t|] eqn:E.
  - eapply shortest_render; eauto.
  - eexists. eexists. split; [|reflexivity].
    destruct (PyFloat.candidates m e (PyFloat.decpt_of m e - 17)) as [|c l] eqn:El.
    + simpl. lia.
    + simpl. apply (candidates_pos m e (PyFloat.decpt_of m e - 17)).
      rewrite El. now left.
Qed.

Lemma scan_number_render (neg : bool) (c k : Z) (rest : string) (x : PyFloat.float) :
  (0 < c)%Z -> value_end rest = true ->
  PyFloat.of_str (PyFloat.render neg c k) = Some x ->
  Json.scan_number (PyFloat.render neg c k +:+ rest) = Some (VFloat x, rest).
Proof.
  intros Hc Hend. unfold PyFloat.render.
  destruct c as [|p|p]; try lia.
  destruct (str_of_Z_pos p) as (d & s & -> & Hd & Hs & _).
  destruct (rstrip_zeros_head d s Hd Hs) as (s' & -> & Hs').
  now apply scan_number_layout.
Qed.

Lemma number_start_render (neg : bool) (c k : Z) :
  (0 < c)%Z -> number_start (PyFloat.render neg c k) = true.
Proof.
  intros Hc. unfold PyFloat.render.
  destruct c as [|p|p]; try lia.
  destruct (str_of_Z_pos p) as (d & s & -> & Hd & Hs & _).
  destruct (rstrip_zeros_head d s Hd Hs) as (s' & -> & Hs').
  destruct (nonzero_digit_facts d Hd) as (_ & _ & Hdec).
  set (decpt := (k + Z.of_nat (String.length (String d s)))%Z).
  assert (exists t, PyFloat.layout (String d s') decpt = String d t
                    \/ PyFloat.layout (String d s') decpt = String "0" t) as [t Ht].
  { unfold PyFloat.layout.
    destruct ((decpt <=? -4)%Z || (16 <? decpt)%Z).
    - destruct s'; eexists; left; reflexivity.
    - destruct (decpt <=? 0)%Z eqn:Ele; [eexists; right; reflexivity|].
      destruct (Z.of_nat (String.length (String d s')) <=? decpt)%Z.
      + eexists; left; reflexivity.
      + apply Z.leb_gt in Ele. destruct (Z.to_nat decpt) eqn:En; [lia|].
        eexists; left; reflexivity. }
  destruct Ht as [-> | ->]; destruct neg; simpl; rewrite ?Hdec; reflexivity.
Qed.

Lemma scan_value_number (t rest : string) :
  number_start t = true ->
  Json.scan_value (t +:+ rest) = Json.scan_number (t +:+ rest).
Proof.
  destruct t as [|c t]; [discriminate|].
  rewrite append_cons. simpl number_start.
  destruct (Text.isdecimal c) eqn:Hc.
  - intros _. revert Hc. char_cases c.
  - simpl. destruct (Text.has_code 45 c) eqn:Hm; [|discriminate].
    destruct t as [|c' t]; [discriminate|]. simpl. intros Hc'.
    rewrite append_cons. revert Hm. char_cases c.
    intros _. revert Hc'. char_cases c'.
Qed.

(** A finite float reads back from its text. *)
Lemma scan_value_float (x : PyFloat.float) (rest : string) :
  PyFloat.is_finite x = true -> PyFloat.repr_exact x = true ->
  value_end rest = true ->
  Json.scan_value (Json.encode_float x +:+ rest) = Some (VFloat x, rest).
Proof.
  intros Hfin Hex Hend.
  destruct x as [s| | |s m e]; try discriminate.
  - destruct rest as [|c r]; [discriminate|]. revert Hend. simpl value_end.
    destruct s; char_cases c.
  - apply reads_back_eq in Hex.
    change (Json.encode_float (S754_finite s m e)) with (PyFloat.repr (S754_finite s m e)).
    destruct (repr_render s m e) as (c & k & Hc & Hr).
    rewrite Hr in *.
    rewrite scan_value_number by now apply number_start_render.
    now apply scan_number_render.
Qed.

Lemma number_start_int (z : Z) : number_start (Text.str_of_Z z) = true.
Proof.
  destruct z as [|p|p].
  - reflexivity.
  - destruct (str_of_Z_pos p) as (d & s & -> & Hd & _).
    destruct (nonzero_digit_facts d Hd) as (_ & _ & Hdec).
    simpl. now rewrite Hdec.
  - change (Text.str_of_Z (Zneg p)) with (String "-" (Text.str_of_Z (Zpos p))).
    destruct (str_of_Z_pos p) as (d & s & -> & Hd & _).
    destruct (nonzero_digit_facts d Hd) as (_ & _ & Hdec).
    simpl. now rewrite Hdec.
Qed.

(** Every storable value reads back from its text. *)
Lemma scan_value_encode (v : value) (rest : string) :
  storable_value v = true -> value_end rest = true ->
  Json.scan_value (Json.encode_value v +:+ rest) = Some (v, rest).
Proof.
  intros Hv Hend. destruct v as [|b|z|x|s]; simpl Json.encode_value.
  - reflexivity.
  - destruct b; reflexivity.
  - rewrite scan_value_number by apply number_start_int.
    now apply scan_number_int.
  - simpl in Hv. apply andb_true_iff in Hv as [Hfin Hex].
    now apply scan_value_float.
  - assert ((Json.encode_string s +:+ rest)%string
            = String Json.dquote (Json.escape s +:+ String Json.dquote rest)) as ->
      by (unfold Json.encode_string, Json.quote; rewrite !append_assoc; reflexivity).
    unfold Json.scan_value. change (Text.has_code 34 Json.dquote) with true. cbv iota.
    now rewrite scan_string_escape.
Qed.

(** *** Lines and white space *)

Lemma skip_ws_solid (t : string) : solid t = true -> Json.skip_ws t = t.
Proof.
  destruct t as [|c t]; simpl; [discriminate|].
  intros H. apply negb_true_iff in H. now rewrite H.
Qed.

Lemma skip_ws_spaces (n : nat) (t : string) :
  Json.skip_ws (Json.spaces n +:+ t) = Json.skip_ws t.
Proof.
  induction n as [|n IH]; [reflexivity|].
  change (Json.skip_ws (String " " (Json.spaces n +:+ t)) = Json.skip_ws t).
  exact IH.
Qed.

Lemma skip_ws_newline_indent (n : nat) (t : string) :
  Json.skip_ws (Json.newline_indent n +:+ t) = Json.skip_ws t.
Proof.
  unfold Json.newline_indent, Json.nl. rewrite append_assoc, append_cons, append_nil_l.
  simpl. apply skip_ws_spaces.
Qed.

Lemma value_end_newline_indent (n : nat) (t : string) :
  value_end (Json.newline_indent n +:+ t) = true.
Proof. reflexivity. Qed.

Lemma solid_app (a b : string) : solid a = true -> solid (a +:+ b) = true.
Proof. destruct a; [discriminate|]. now rewrite append_cons. Qed.

Lemma solid_encode_value (v : value) :
  storable_value v = true -> solid (Json.encode_value v) = true.
Proof.
  destruct v as [|b|z|x|s]; simpl; try reflexivity.
  - now destruct b.
  - intros _. pose proof (number_start_int z) as H.
    destruct (Text.str_of_Z z) as [|c t]; [discriminate|].
    simpl in *. revert H. destruct t as [|c' t]; char_cases c.
  - intros H. apply andb_true_iff in H as [Hfin _].
    destruct x as [s| | |s m e]; try discriminate.
    + now destruct s.
    + change (Json.encode_float (S754_finite s m e)) with (PyFloat.repr (S754_finite s m e)).
      destruct (repr_render s m e) as (c & k & Hc & ->).
      pose proof (number_start_render s c k Hc) as H.
      destruct (PyFloat.render s c k) as [|c0 t]; [discriminate|].
      simpl in *. revert H. destruct t as [|c' t]; char_cases c0.
Qed.

Lemma solid_member_text (kv : string * value) : solid (member_text kv) = true.
Proof. reflexivity. Qed.

Lemma member_text_quote (kv : string * value) (t : string) :
  (member_text kv +:+ t)%string
  = String Json.dquote
      (Json.escape (fst kv)
       +:+ String Json.dquote (": " +:+ Json.encode_value (snd kv) +:+ t)).
Proof.
  unfold member_text, Json.encode_string, Json.quote.
  rewrite !append_assoc. reflexivity.
Qed.

Lemma lines_cons2 (n : nat) (x y : string) (rest : list string) :
  Json.lines n (x :: y :: rest)
  = (x +:+ "," +:+ Json.newline_indent n +:+ Json.lines n (y :: rest))%string.
Proof. reflexivity. Qed.

Lemma solid_lines_members (n : nat) (d : dict) :
  d <> [] -> solid (Json.lines n (map member_text d)) = true.
Proof.
  destruct d as [|kv [|kv' d]]; [contradiction| |]; intros _.
  - reflexivity.
  - cbn [map]. rewrite lines_cons2. now apply solid_app.
Qed.

Lemma skip_ws_comma (t : string) : Json.skip_ws ("," +:+ t) = String "," t.
Proof. reflexivity. Qed.

(** *** Members, objects, elements *)

Lemma scan_members_lines (n n' : nat) (d : dict) (fuel : nat) (rest : string) :
  d <> [] -> length d <= fuel ->
  forallb (fun kv => storable_value (snd kv)) d = true ->
  Json.scan_members fuel
    (Json.lines n (map member_text d) +:+ Json.newline_indent n' +:+ "}" +:+ rest)
  = Some (d, rest).
Proof.
  revert fuel. induction d as [|[k v] d IH]; intros fuel Hne Hfuel Hst; [contradiction|].
  destruct fuel as [|fuel]; [simpl in Hfuel; lia|].
  simpl in Hst. apply andb_true_iff in Hst as [Hv Hst].
  assert (forall tail, value_end tail = true ->
            Json.scan_members (S fuel) (member_text (k, v) +:+ tail)
            = match Json.skip_ws tail with
              | EmptyString => None
              | String c s5 =>
                  if Text.has_code 125 c then Some ([(k, v)], s5)
                  else if Text.has_code 44 c then
                    match Json.scan_members fuel (Json.skip_ws s5) with
                    | Some (ps, r) => Some ((k, v) :: ps, r)
                    | None => None
                    end
                  else None
              end) as Hstep.
  { intros tail Hend. rewrite member_text_quote. cbn [fst snd].
    cbn [Json.scan_members]. change (Text.has_code 34 Json.dquote) with true.
    cbn [negb]. cbv iota. rewrite scan_string_escape. cbv iota beta.
    change (Json.skip_ws (": " +:+ Json.encode_value v +:+ tail))
      with (String ":" (" " +:+ Json.encode_value v +:+ tail)).
    cbv iota. change (Text.has_code 58 ":") with true. cbn [negb]. cbv iota.
    change (Json.skip_ws (" " +:+ Json.encode_value v +:+ tail))
      with (Json.skip_ws (Json.encode_value v +:+ tail)).
    rewrite skip_ws_solid by (apply solid_app; now apply solid_encode_value).
    rewrite scan_value_encode by assumption. reflexivity. }
  destruct d as [|kv' d].
  - cbn [map Json.lines]. rewrite Hstep by apply value_end_newline_indent.
    rewrite skip_ws_newline_indent. reflexivity.
  - cbn [map]. rewrite lines_cons2. rewrite !append_assoc.
    rewrite Hstep by reflexivity.
    change (member_text kv' :: map member_text d) with (map member_text (kv' :: d)).
    rewrite skip_ws_comma. cbv iota.
    change (Text.has_code 125 ",") with false.
    change (Text.has_code 44 ",") with true. cbv iota.
    rewrite skip_ws_newline_indent.
    rewrite skip_ws_solid
      by (apply solid_app; apply solid_lines_members; discriminate).
    rewrite <- !append_assoc. rewrite !append_assoc.
    rewrite IH; [reflexivity|discriminate|simpl in *; lia|exact Hst].
Qed.

Lemma lead_text_block (d : dict) :
  lead_text d = Json.block "{" "}" 1 (map member_text d).
Proof.
  unfold lead_text, Json.of_dict. cbn [Json.encode]. rewrite map_map. reflexivity.
Qed.

Lemma dumps_block (l : list dict) :
  Json.dumps (Json.of_leads l) = Json.block "[" "]" 0 (map lead_text l).
Proof.
  unfold Json.dumps, Json.of_leads. cbn [Json.encode]. rewrite map_map. reflexivity.
Qed.

Lemma setitem_new (d : dict) (k : string) (v : value) :
  ~ In k (Dict.keys d) -> Dict.setitem d k v = d ++ [(k, v)].
Proof.
  induction d as [|[k' v'] d IH]; simpl; [reflexivity|].
  intros H. destruct (String.eqb k' k) eqn:E.
  - apply String.eqb_eq in E. subst. exfalso. apply H. now left.
  - f_equal. apply IH. intros Hin. apply H. now right.
Qed.

Lemma update_fresh (d acc : dict) :
  NoDup (Dict.keys (acc ++ d)) -> Dict.update acc d = acc ++ d.
Proof.
  unfold Dict.update. revert acc.
  induction d as [|[k v] d IH]; intros acc Hnd; simpl.
  - now rewrite app_nil_r.
  - assert (~ In k (Dict.keys acc)) as Hk.
    { unfold Dict.keys in Hnd. rewrite map_app in Hnd. simpl in Hnd.
      apply NoDup_app in Hnd as (_ & Hdisj & _). intros Hin.
      apply (Hdisj k); [now apply list_elem_of_In|apply list_elem_of_here]. }
    rewrite setitem_new by assumption.
    rewrite IH.
    + now rewrite <- app_assoc.
    + now rewrite <- app_assoc.
Qed.

(** The pairs of a dictionary give the dictionary back. *)
Lemma of_pairs_id (d : dict) : NoDup (Dict.keys d) -> Dict.of_pairs d = d.
Proof. intros H. unfold Dict.of_pairs. now rewrite update_fresh. Qed.

(** The text of a lead is an opening brace and a body the decoder
    reads as the lead. *)
Lemma scan_object_lead (fuel : nat) (d : dict) (rest : string) :
  storable_lead d -> length d <= fuel ->
  exists body,
    (lead_text d +:+ rest)%string = String "{" body
    /\ Json.scan_object fuel body = Some (d, rest).
Proof.
  intros [Hnd Hst] Hfuel. rewrite lead_text_block. unfold Json.block.
  destruct d as [|kv d].
  - exists (String "}" rest). split; reflexivity.
  - cbn [map].
    change (member_text kv :: map member_text d) with (map member_text (kv :: d)).
    exists (Json.newline_indent 2 +:+ Json.lines 2 (map member_text (kv :: d))
            +:+ Json.newline_indent 1 +:+ "}" +:+ rest)%string.
    split; [now rewrite !append_assoc|].
    unfold Json.scan_object. rewrite skip_ws_newline_indent.
    rewrite skip_ws_solid by (apply solid_app; apply solid_lines_members; discriminate).
    assert (exists c t,
              (Json.lines 2 (map member_text (kv :: d))
               +:+ Json.newline_indent 1 +:+ "}" +:+ rest)%string = String c t
              /\ Text.has_code 125 c = false) as (c & t & Ht & Hc).
    { destruct d as [|kv' d]; cbn [map Json.lines]; rewrite member_text_quote;
        eexists; eexists; split; reflexivity. }
    rewrite Ht, Hc. rewrite <- Ht.
    rewrite scan_members_lines by (auto; discriminate).
    now rewrite of_pairs_id.
Qed.

Lemma solid_lead_text (d : dict) (t : string) :
  exists body, (lead_text d +:+ t)%string = String "{" body.
Proof.
  rewrite lead_text_block. unfold Json.block.
  destruct (map member_text d); eexists; reflexivity.
Qed.

Lemma solid_lines_leads (l : list dict) (t : string) :
  l <> [] -> solid (Json.lines 1 (map lead_text l) +:+ t) = true.
Proof.
  destruct l as [|d [|d' l]]; [contradiction| |]; intros _; cbn [map].
  - cbn [Json.lines]. destruct (solid_lead_text d t) as [body ->]. reflexivity.
  - rewrite lines_cons2, append_assoc.
    destruct (solid_lead_text d
                ("," +:+ Json.newline_indent 1 +:+ Json.lines 1 (lead_text d' :: map lead_text l) +:+ t))
      as [body Hb].
    rewrite !append_assoc in *. rewrite Hb. reflexivity.
Qed.

Lemma scan_elements_lines (l : list dict) (fuel : nat) (rest : string) :
  l <> [] -> storable l -> fuel_for l <= fuel ->
  Json.scan_elements fuel
    (Json.lines 1 (map lead_text l) +:+ Json.newline_indent 0 +:+ "]" +:+ rest)
  = Some (l, rest).
Proof.
  revert fuel. induction l as [|d l IH]; intros fuel Hne Hst Hfuel; [contradiction|].
  destruct fuel as [|fuel]; [simpl in Hfuel; lia|].
  simpl in Hfuel. inversion Hst as [|? ? Hd Hl]; subst.
  assert (forall tail,
            Json.scan_elements (S fuel) (lead_text d +:+ tail)
            = match Json.skip_ws tail with
              | EmptyString => None
              | String c s3 =>
                  if Text.has_code 93 c then Some ([d], s3)
                  else if Text.has_code 44 c then
                    match Json.scan_elements fuel (Json.skip_ws s3) with
                    | Some (ds, r) => Some (d :: ds, r)
                    | None => None
                    end
                  else None
              end) as Hstep.
  { intros tail.
    destruct (scan_object_lead fuel d tail Hd) as (body & -> & Hbody); [lia|].
    cbn [Json.scan_elements]. change (Text.has_code 123 "{") with true.
    cbn [negb]. cbv iota. now rewrite Hbody. }
  destruct l as [|d' l].
  - cbn [map Json.lines]. rewrite Hstep, skip_ws_newline_indent. reflexivity.
  - cbn [map]. rewrite lines_cons2, !append_assoc, Hstep.
    change (lead_text d' :: map lead_text l) with (map lead_text (d' :: l)).
    rewrite skip_ws_comma. cbv iota.
    change (Text.has_code 93 ",") with false.
    change (Text.has_code 44 ",") with true. cbv iota.
    rewrite skip_ws_newline_indent.
    rewrite skip_ws_solid by (apply solid_lines_leads; discriminate).
    rewrite IH; [reflexivity|discriminate|exact Hl|lia].
Qed.

(** *** Fuel *)

Lemma length_lines_ge (n : nat) (items : list string) :
  Forall (fun t => 1 <= String.length t) items ->
  length items <= String.length (Json.lines n items).
Proof.
  induction items as [|x [|y items] IH]; intros H.
  - simpl. lia.
  - inversion H; subst. simpl. lia.
  - inversion H as [|? ? Hx Hrest]; subst.
    rewrite lines_cons2, !length_append. specialize (IH Hrest).
    simpl length in *. lia.
Qed.

Lemma length_lead_text (d : dict) : S (length d) <= String.length (lead_text d).
Proof.
  rewrite lead_text_block. unfold Json.block.
  destruct d as [|kv d]; [simpl; lia|].
  cbn [map].
  change (member_text kv :: map member_text d) with (map member_text (kv :: d)).
  rewrite !length_append.
  pose proof (length_lines_ge 2 (map member_text (kv :: d))) as H.
  rewrite length_map in H.
  assert (Forall (fun t => 1 <= String.length t) (map member_text (kv :: d))) as Hall.
  { apply Forall_forall. intros t Ht. apply list_elem_of_In in Ht.
    apply in_map_iff in Ht as (kv0 & <- & _).
    rewrite <- (append_nil_r (member_text kv0)), member_text_quote. simpl. lia. }
  specialize (H Hall). simpl String.length at 1. lia.
Qed.

Lemma fuel_for_lines (l : list dict) :
  fuel_for l <= String.length (Json.lines 1 (map lead_text l)).
Proof.
  induction l as [|d [|d' l] IH].
  - simpl. lia.
  - cbn [map Json.lines fuel_for]. pose proof (length_lead_text d). lia.
  - cbn [map]. rewrite lines_cons2, !length_append.
    change (lead_text d' :: map lead_text l) with (map lead_text (d' :: l)).
    pose proof (length_lead_text d).
    change (fuel_for (d :: d' :: l)) with (S (Nat.max (length d) (fuel_for (d' :: l)))).
    lia.
Qed.

Lemma fuel_for_dumps (l : list dict) :
  fuel_for l <= String.length (Json.dumps (Json.of_leads l)).
Proof.
  rewrite dumps_block. unfold Json.block.
  destruct l as [|d l]; [simpl; lia|].
  cbn [map].
  change (lead_text d :: map lead_text l) with (map lead_text (d :: l)).
  rewrite !length_append. pose proof (fuel_for_lines (d :: l)). lia.
Qed.

(** *** The document *)

Lemma lines_leads_head (l : list dict) (t : string) :
  l <> [] -> exists b, (Json.lines 1 (map lead_text l) +:+ t)%string = String "{" b.
Proof.
  destruct l as [|d [|d' l]]; [contradiction| |]; intros _; cbn [map].
  - cbn [Json.lines]. apply solid_lead_text.
  - rewrite lines_cons2, append_assoc. apply solid_lead_text.
Qed.

Lemma skip_ws_bracket (t : string) : Json.skip_ws ("[" +:+ t) = String "[" t.
Proof. reflexivity. Qed.

(** [json.loads] inverts [json.dumps] on the documents of the store. *)
Lemma loads_dumps (l : list dict) :
  storable l -> Json.loads (Json.dumps (Json.of_leads l)) = Some l.
Proof.
  intros Hst. unfold Json.loads.
  pose proof (fuel_for_dumps l) as Hfuel.
  set (fuel := S (String.length (Json.dumps (Json.of_leads l)))).
  assert (fuel_for l <= fuel) as Hf by (unfold fuel; lia).
  clearbody fuel. clear Hfuel.
  rewrite dumps_block. unfold Json.block.
  destruct l as [|d l].
  - reflexivity.
  - cbn [map].
    change (lead_text d :: map lead_text l) with (map lead_text (d :: l)).
    set (body := (Json.lines 1 (map lead_text (d :: l)) +:+ Json.newline_indent 0 +:+ "]")%string).
    rewrite skip_ws_bracket.
    cbv iota. change (Text.has_code 91 "[") with true. cbn [negb]. cbv iota.
    rewrite skip_ws_newline_indent.
    assert (solid body = true) as Hsolid
      by (apply solid_lines_leads; discriminate).
    rewrite skip_ws_solid by assumption.
    destruct (lines_leads_head (d :: l) (Json.newline_indent 0 +:+ "]"))
      as [t Hb]; [discriminate|].
    fold body in Hb.
    assert (Text.has_code 93 "{" = false) as Hc by reflexivity.
    rewrite Hb, Hc. rewrite <- Hb. unfold body.
    rewrite <- (append_nil_r "]").
    rewrite scan_elements_lines; [reflexivity|discriminate|exact Hst|exact Hf].
Qed.

(** ** C10: load inverts save *)

(** C10.  For every list of leads that a JSON document can hold
    (distinct keys in each record, finite floats), saving the list
    and then loading it returns the list that was saved. *)
Theorem load_leads_after_save (l : list dict) (w : World) :
  storable l ->
  exists w',
    bind (save_leads l) (fun _ => load_leads) w = (Ok l, w')
    /\ leads_json w' = Some (Json.dumps (Json.of_leads l)).
Proof.
  intros Hst.
  cbv beta iota delta [bind save_leads load_leads modify gets ret leads_json with_leads_json].
  rewrite (loads_dumps l Hst).
  eexists. split; reflexivity.
Qed.

Lemma load_leads_after_save_witness :
  storable [Demo.jane; Demo.jane_again; Demo.walk_in]
  /\ exists w',
       bind (save_leads [Demo.jane; Demo.jane_again; Demo.walk_in])
            (fun _ => load_leads) (Demo.world [])
       = (Ok [Demo.jane; Demo.jane_again; Demo.walk_in], w')
       /\ leads_json w'
          = Some (Json.dumps (Json.of_leads [Demo.jane; Demo.jane_again; Demo.walk_in])).
Proof.
  assert (storable [Demo.jane; Demo.jane_again; Demo.walk_in]) as Hst.
  { repeat constructor; try (apply (bool_decide_unpack _); vm_compute; reflexivity);
      vm_compute; reflexivity. }
  split; [exact Hst|].
  exact (load_leads_after_save [Demo.jane; Demo.jane_again; Demo.walk_in] (Demo.world []) Hst).
Defined.

(** ** The two defects in general *)

Lemma lookup_with_defaults_status (lead : dict) (t : string) :
  Dict.lookup (with_defaults lead t) "Status"
  = Some (Dict.get_or lead "Status" (VStr "New")).
Proof.
  unfold with_defaults. rewrite lookup_setdefault_ne by discriminate.
  unfold Dict.setdefault, Dict.get_or.
  destruct (Dict.lookup lead "Status") eqn:E; [exact E|apply lookup_setitem_eq].
Qed.

(** Whenever the candidate matches a record, the Status after the
    merge is decided by the candidate alone: the Status the record had
    is lost. *)
Lemma upsert_lead_status_of_candidate (env : Env) (l : list dict) (lead x : dict)
    (i : nat) (w : World) :
  find_by_email l lead 0 = Ok (Some i) -> l !! i = Some x ->
  NoDup (Dict.keys lead) ->
  exists x' w',
    upsert_lead env l lead w = (Ok (<[i := x']> l), w')
    /\ Dict.get x' "Status"
       = (if Value.among (Dict.get_or lead "Status" (VStr "New")) ["New"; "Updated"]
          then VStr "Updated"
          else Dict.get_or lead "Status" (VStr "New")).
Proof.
  intros Hfind Hx Hnd.
  unfold upsert_lead, bind, lift, now_iso, ret. rewrite Hfind. cbv beta iota.
  cbn [clock_reads with_clock_reads]. rewrite Hx.
  fold (with_defaults lead (utc_iso env (clock_reads w))).
  set (lead' := with_defaults lead (utc_iso env (clock_reads w))).
  eexists. eexists. split; [reflexivity|].
  assert (Dict.get (Dict.update x lead') "Status" = Dict.get_or lead "Status" (VStr "New")) as Hst.
  { unfold Dict.get at 1, Dict.get_or at 1. rewrite lookup_update.
    - unfold lead'. now rewrite lookup_with_defaults_status.
    - unfold lead', with_defaults. now do 2 apply NoDup_keys_setdefault. }
  rewrite get_setitem_ne by discriminate. rewrite Hst.
  destruct (Value.among _ _); [apply get_setitem_eq|exact Hst].
Qed.

Lemma find_by_key_in_range (l : list dict) (key : string) (i j : nat) :
  find_by_key l key i = Ok (Some j) -> i <= j.
Proof.
  revert i. induction l as [|x l IH]; intros i; simpl; [discriminate|].
  destruct (email_key x) as [a|]; [|discriminate]. simpl.
  destruct (String.eqb a key).
  - intros [= <-]. lia.
  - intros H. apply IH in H. lia.
Qed.

(** "Generate & Save Proposal" on the Leads tab leaves the
    LastActionAt of every record as it was, whatever it does. *)
Lemma generate_proposal_clicked_LastActionAt (env : Env) (em : string) (w : World)
    (i : nat) (x : dict) :
  leads w !! i = Some x ->
  exists x',
    leads (snd (generate_proposal_clicked env em w)) !! i = Some x'
    /\ Dict.get x' "LastActionAt" = Dict.get x "LastActionAt".
Proof.
  intros Hx. unfold generate_proposal_clicked.
  match goal with
  | |- context [bind (gets leads) ?k w] =>
      change (bind (gets leads) k w) with (k (leads w) w)
  end.
  cbv beta. unfold bind at 1. unfold lift.
  destruct (find_by_key (leads w) (Text.lower em) 0) as [[j|]|e]; cbn [snd]; eauto.
  destruct (leads w !! j) as [lead|] eqn:Hj; [|cbn; eauto].
  destruct (Dict.truthy lead); cbn [negb]; [|cbn; eauto].
  unfold bind at 1. unfold gets at 1. unfold bind at 1.
  destruct (generate_proposal_md_returns env lead (settings w) w)
    as (md & w1 & Hg & Hl1 & _). rewrite Hg.
  unfold save_proposal. unfold bind at 1. unfold bind at 1. unfold lift.
  destruct (chars_of _) as [s|e]; [|cbn [snd]; rewrite Hl1; eauto].
  unfold notify, now_stamp, now_iso, set_lead, save_leads, bind, gets, modify, ret.
  cbn [leads with_leads with_proposals with_clock_reads].
  match goal with
  | |- context [save_email env ?a ?b ?c ?d ?w0] =>
      destruct (save_email_outcome env a b c d w0) as (re & w2 & Hrun & Hl2 & _);
      rewrite Hrun
  end.
  cbn [leads with_leads with_proposals with_clock_reads] in Hl2.
  assert (forall A (r : outcome A) w3, leads w3 = leads w2 ->
            leads w3 = <[j := Dict.setitem
                                (Dict.setitem lead "ProposalPath"
                                   (VStr (path_in (PROPOSALS_DIR env)
                                            (cat [match Text.replace_char " " "_"
                                                          (Text.strip (Text.filter slug_char s))
                                                  with
                                                  | EmptyString => "proposal"
                                                  | String _ _ =>
                                                      Text.replace_char " " "_"
                                                        (Text.strip (Text.filter slug_char s))
                                                  end; "_";
                                                  local_stamp env (clock_reads w1); ".md"]))))
                                "Status" (VStr "Proposal Sent")]> (leads w)) as Hl3.
  { intros A r w3 ->. now rewrite Hl2, Hl1. }
  match goal with
  | |- exists x', leads (snd ?res) !! i = Some x' /\ _ =>
      assert (leads (snd res) = leads w2) as Hl4 by (destruct re; reflexivity)
  end.
  rewrite (Hl3 unit (Ok tt) _ Hl4).
  destruct (Nat.eq_dec i j) as [->|Hne].
  - rewrite Hj in Hx. injection Hx as ->. eexists. split.
    + apply list_lookup_insert_eq. eapply lookup_lt_Some; eauto.
    + now rewrite !get_setitem_ne by discriminate.
  - exists x. split; [|reflexivity].
    rewrite list_lookup_insert_ne by congruence. exact Hx.
Qed.

(** * Further properties of the program *)

(** ** What every block of the interface keeps *)

Section Frame.

Variable R : World -> World -> Prop.
Variable env : Env.

Hypothesis R_refl : forall w, R w w.
Hypothesis R_trans : forall w1 w2 w3, R w1 w2 -> R w2 w3 -> R w1 w3.
Hypothesis R_tick : forall w, R w (with_clock_reads (S (clock_reads w)) w).
Hypothesis R_llm : forall w, R w (with_llm_calls (S (llm_calls w)) w).
Hypothesis R_note : forall line msg w, R w (with_notification line msg w).
Hypothesis R_email : forall n b w, R w (with_emails (<[n := b]> (emails w)) w).
Hypothesis R_call : forall n b w, R w (with_call_requests (<[n := b]> (call_requests w)) w).
Hypothesis R_proposal : forall n b w, R w (with_proposals (<[n := b]> (proposals w)) w).
Hypothesis R_leads : forall l w, R w (with_leads l w).

Lemma keeps_ret (A : Type) (a : A) : keeps R (ret a).
Proof. intros w. apply R_refl. Qed.

Lemma keeps_lift (A : Type) (o : outcome A) : keeps R (lift o).
Proof. intros w. apply R_refl. Qed.

Lemma keeps_gets_bind (A B : Type) (f : World -> A) (k : A -> M B) :
  (forall w, R w (snd (k (f w) w))) -> keeps R (bind (gets f) k).
Proof. intros H w. apply H. Qed.

Lemma keeps_bind (A B : Type) (m : M A) (k : A -> M B) :
  keeps R m -> (forall a, keeps R (k a)) -> keeps R (bind m k).
Proof.
  intros Hm Hk w. unfold bind. specialize (Hm w).
  destruct (m w) as [[a|e] w1]; cbn [snd] in *.
  - eapply R_trans; [exact Hm|apply Hk].
  - exact Hm.
Qed.

Lemma keeps_now_iso : keeps R (now_iso env).
Proof. intros w. apply R_tick. Qed.

Lemma keeps_now_stamp : keeps R (now_stamp env).
Proof. intros w. apply R_tick. Qed.

Lemma keeps_notify (msg : string) : keeps R (notify env msg).
Proof.
  apply keeps_bind; [apply keeps_now_iso|]. intros t w. apply R_note.
Qed.

Lemma keeps_set_lead (i : nat) (lead : dict) : keeps R (set_lead i lead).
Proof. intros w. apply R_leads. Qed.

Lemma keeps_upsert_lead (l : list dict) (lead : dict) : keeps R (upsert_lead env l lead).
Proof.
  unfold upsert_lead. apply keeps_bind; [apply keeps_lift|]. intros idx.
  apply keeps_bind; [apply keeps_now_iso|]. intros t.
  destruct idx as [i|]; [|apply keeps_ret].
  destruct (l !! i); [|apply keeps_ret].
  apply keeps_bind; [apply keeps_now_iso|]. intros t'. apply keeps_ret.
Qed.

Lemma keeps_generate_proposal_md (lead cfg : dict) :
  keeps R (generate_proposal_md env lead cfg).
Proof.
  unfold generate_proposal_md. destruct (LLM_AVAILABLE env); [|apply keeps_ret].
  apply keeps_gets_bind. intros w.
  unfold bind at 1. unfold modify at 1.
  eapply R_trans; [apply R_llm|].
  destruct (ollama env _ _ _ _).
  - apply keeps_bind; [apply keeps_notify|]. intros _. apply keeps_ret.
  - apply keeps_ret.
Qed.

Lemma keeps_save_proposal (company : value) (content : string) :
  keeps R (save_proposal env company content).
Proof.
  unfold save_proposal. apply keeps_bind; [apply keeps_lift|]. intros s.
  apply keeps_bind; [apply keeps_now_stamp|]. intros ts.
  apply keeps_gets_bind. intros w. unfold bind, modify, ret. cbn [snd].
  apply R_proposal.
Qed.

Lemma keeps_save_email (to_email : value) (subject html : string)
    (attachments : list attachment) :
  keeps R (save_email env to_email subject html attachments).
Proof.
  unfold save_email. apply keeps_bind; [apply keeps_now_stamp|]. intros ts.
  apply keeps_gets_bind. intros w. unfold bind at 1. unfold lift at 1.
  match goal with
  | |- context [write_text ?f ?n ?p ?c] => destruct (write_text f n p c) as [es|e] eqn:E
  end; [|apply R_refl].
  apply write_text_Ok in E as [_ ->].
  unfold bind at 1. unfold modify at 1.
  eapply R_trans; [apply R_email|].
  apply keeps_bind; [apply keeps_notify|]. intros _. apply keeps_ret.
Qed.

Lemma keeps_trigger_local_call (lead : dict) : keeps R (trigger_local_call env lead).
Proof.
  unfold trigger_local_call. apply keeps_bind; [apply keeps_now_stamp|]. intros ts.
  apply keeps_gets_bind. intros w. unfold bind at 1. unfold lift at 1.
  match goal with
  | |- context [write_text ?f ?n ?p ?c] => destruct (write_text f n p c) as [cs|e] eqn:E
  end; [|apply R_refl].
  apply write_text_Ok in E as [_ ->].
  unfold bind at 1. unfold modify at 1.
  eapply R_trans; [apply R_call|].
  apply keeps_bind; [apply keeps_notify|]. intros _. apply keeps_ret.
Qed.

Lemma keeps_auto_qualify (i : nat) (lead : dict) (threshold : PyFloat.float) :
  keeps R (auto_qualify env i lead threshold).
Proof.
  unfold auto_qualify. apply keeps_bind; [apply keeps_lift|]. intros b.
  apply keeps_bind; [apply keeps_now_iso|]. intros t.
  apply keeps_bind; [apply keeps_set_lead|]. intros _.
  apply keeps_bind; [|intros _; apply keeps_ret].
  destruct (PyFloat.ge b threshold); [|apply keeps_ret].
  apply keeps_bind; [apply keeps_trigger_local_call|]. intros _. apply keeps_ret.
Qed.

Lemma keeps_auto_qualify_each (todo : list dict) (i : nat) (threshold : PyFloat.float) :
  keeps R (auto_qualify_each env todo i threshold).
Proof.
  revert i. induction todo as [|lead rest IH]; intros i; cbn [auto_qualify_each];
    [apply keeps_ret|].
  apply keeps_bind; [apply keeps_auto_qualify|]. intros r. apply IH.
Qed.

Lemma keeps_auto_qualify_open (todo : list dict) (i : nat) (threshold : PyFloat.float) :
  keeps R (auto_qualify_open env todo i threshold).
Proof.
  revert i. induction todo as [|lead rest IH]; intros i; cbn [auto_qualify_open];
    [apply keeps_ret|].
  apply keeps_bind; [|intros _; apply IH].
  destruct (Value.among (Dict.get lead "Status") ["New"; "Updated"]); [|apply keeps_ret].
  apply keeps_bind; [apply keeps_auto_qualify|]. intros r. apply keeps_ret.
Qed.

Lemma keeps_import_row (row : csv_row) : keeps R (import_row env row).
Proof.
  unfold import_row. apply keeps_bind; [apply keeps_lift|]. intros norm.
  apply keeps_bind; [apply keeps_lift|]. intros b.
  apply keeps_bind; [apply keeps_now_iso|]. intros t.
  destruct (Value.truthy _); [|apply keeps_ret].
  apply keeps_gets_bind. intros w.
  apply keeps_bind; [apply keeps_upsert_lead|]. intros l'.
  apply keeps_bind; [|intros _; apply keeps_ret]. intros w'. apply R_leads.
Qed.

Lemma keeps_import_rows (rows : list csv_row) (count : nat) :
  keeps R (import_rows env rows count).
Proof.
  revert count. induction rows as [|row rest IH]; intros count; cbn [import_rows]; [apply keeps_ret|].
  apply keeps_bind; [apply keeps_import_row|]. intros c. apply IH.
Qed.

Lemma keeps_on_no_answer (i : nat) (lead : dict) : keeps R (on_no_answer env i lead).
Proof.
  unfold on_no_answer. apply keeps_bind; [apply keeps_set_lead|]. intros _.
  apply keeps_bind; [apply keeps_save_email|]. intros _.
  apply keeps_bind; [apply keeps_notify|]. intros _. apply keeps_ret.
Qed.

Lemma keeps_on_call_completed (i : nat) (lead : dict) (transcript : string) :
  keeps R (on_call_completed env i lead transcript).
Proof.
  unfold on_call_completed. apply keeps_bind; [apply keeps_set_lead|]. intros _.
  destruct (wants_proposal transcript).
  - apply keeps_gets_bind. intros w.
    apply keeps_bind; [apply keeps_generate_proposal_md|]. intros md.
    apply keeps_bind; [apply keeps_save_proposal|]. intros path.
    apply keeps_bind; [apply keeps_set_lead|]. intros _.
    apply keeps_bind; [apply keeps_save_email|]. intros _.
    apply keeps_bind; [apply keeps_notify|]. intros _. apply keeps_ret.
  - apply keeps_bind; [apply keeps_notify|]. intros _. apply keeps_ret.
Qed.

(** The end of a block: the leads are saved. *)
Lemma saves_final : saves R (bind (gets leads) (fun l => save_leads l)).
Proof. intros w0 w H. exists w. split; [exact H|reflexivity]. Qed.

Lemma saves_final_set (l : list dict) :
  saves R (bind (modify (with_leads l)) (fun _ => save_leads l)).
Proof.
  intros w0 w H. exists (with_leads l w). split; [|reflexivity].
  eapply R_trans; [exact H|apply R_leads].
Qed.

Lemma saves_bind (A : Type) (m : M A) (k : A -> M unit) :
  keeps R m -> (forall a, saves R (k a)) -> saves R (bind m k).
Proof.
  intros Hm Hk w0 w H. unfold bind. specialize (Hm w).
  destruct (m w) as [[a|e] w2]; cbn [snd] in Hm.
  - apply Hk. eapply R_trans; eassumption.
  - eapply R_trans; eassumption.
Qed.

Lemma saves_gets_bind (A : Type) (f : World -> A) (k : A -> M unit) :
  (forall a, saves R (k a)) -> saves R (bind (gets f) k).
Proof. intros Hk w0 w H. apply (Hk (f w) w0 w H). Qed.

Lemma saves_handled (m : M unit) : saves R m -> handled R m.
Proof.
  intros Hm w. specialize (Hm w w (R_refl w)).
  destruct (m w) as [[u|e] w']; [now right|exact Hm].
Qed.

Lemma handled_nothing : handled R (ret tt).
Proof. intros w. now left. Qed.

Lemma handled_save_lead_clicked (name email company use_case phone : string)
    (budget : PyFloat.float) :
  handled R (save_lead_clicked env name email company use_case phone budget).
Proof.
  unfold save_lead_clicked. destruct email as [|c email]; [apply handled_nothing|].
  apply saves_handled.
  apply saves_bind; [apply keeps_now_iso|]. intros t.
  apply saves_gets_bind. intros l.
  apply saves_bind; [apply keeps_upsert_lead|]. intros l'.
  apply saves_final_set.
Qed.

Lemma handled_auto_qualify_all_clicked (threshold : PyFloat.float) :
  handled R (auto_qualify_all_clicked env threshold).
Proof.
  apply saves_handled. unfold auto_qualify_all_clicked.
  apply saves_gets_bind. intros l.
  apply saves_bind; [apply keeps_auto_qualify_each|]. intros _. apply saves_final.
Qed.

Lemma handled_auto_qualify_imported_clicked (threshold : PyFloat.float) :
  handled R (auto_qualify_imported_clicked env threshold).
Proof.
  apply saves_handled. unfold auto_qualify_imported_clicked.
  apply saves_gets_bind. intros l.
  apply saves_bind; [apply keeps_auto_qualify_open|]. intros _. apply saves_final.
Qed.

Lemma handled_csv_uploaded (rows : list csv_row) :
  handled R (bind (csv_uploaded env rows) (fun _ => ret tt)).
Proof.
  intros w. pose proof (keeps_import_rows rows 0 w) as H. revert H.
  unfold csv_uploaded, bind, gets, save_leads, modify, ret.
  destruct (import_rows env rows 0 w) as [[n|e] w1]; cbn [snd]; intros H; [|exact H].
  right. exists w1. split; [exact H|reflexivity].
Qed.

Lemma handled_trigger_call_clicked (target : string) :
  handled R (trigger_call_clicked env target).
Proof.
  intros w. unfold trigger_call_clicked.
  match goal with
  | |- context [bind (gets leads) ?k w] =>
      change (bind (gets leads) k w) with (k (leads w) w)
  end.
  cbv beta. unfold bind at 1. unfold lift.
  destruct (find_by_key (leads w) (Text.lower target) 0) as [[i|]|e];
    [| now left | apply R_refl].
  destruct (leads w !! i) as [found|]; [|now left].
  destruct (Dict.truthy found); cbn [negb]; [|now left].
  apply saves_handled.
  apply saves_bind; [apply keeps_trigger_local_call|]. intros _. apply saves_final.
Qed.

Lemma handled_generate_proposal_clicked (em : string) :
  handled R (generate_proposal_clicked env em).
Proof.
  intros w. unfold generate_proposal_clicked.
  match goal with
  | |- context [bind (gets leads) ?k w] =>
      change (bind (gets leads) k w) with (k (leads w) w)
  end.
  cbv beta. unfold bind at 1. unfold lift.
  destruct (find_by_key (leads w) (Text.lower em) 0) as [[i|]|e];
    [| now left | apply R_refl].
  destruct (leads w !! i) as [lead|]; [|now left].
  destruct (Dict.truthy lead); cbn [negb]; [|now left].
  apply saves_handled.
  apply saves_gets_bind. intros cfg.
  apply saves_bind; [apply keeps_generate_proposal_md|]. intros md.
  apply saves_bind; [apply keeps_save_proposal|]. intros path.
  apply saves_bind; [apply keeps_set_lead|]. intros _.
  apply saves_bind; [apply keeps_save_email|]. intros _. apply saves_final.
Qed.

Lemma handled_send_event_clicked (em : value) (event_type transcript : string) :
  handled R (send_event_clicked env em event_type transcript).
Proof.
  intros w. unfold send_event_clicked.
  destruct (Value.eqb em (VStr "-")); [now left|].
  match goal with
  | |- context [bind (gets leads) ?k w] =>
      change (bind (gets leads) k w) with (k (leads w) w)
  end.
  cbv beta.
  destruct (find_by_value (leads w) em 0) as [i|]; [|now left].
  destruct (leads w !! i) as [lead|]; [|now left].
  destruct (Dict.truthy lead); cbn [negb]; [|now left].
  apply saves_handled.
  apply saves_bind.
  - destruct (existsb _ _); [apply keeps_on_no_answer|apply keeps_on_call_completed].
  - intros lead1. apply saves_bind; [apply keeps_now_iso|]. intros t.
    apply saves_bind; [apply keeps_set_lead|]. intros _. apply saves_final.
Qed.

(** The block of the Calls tab keeps the relation too, and does not
    save. *)
Lemma keeps_trigger_simulated_call_clicked (sel : value) :
  keeps R (trigger_simulated_call_clicked env sel).
Proof.
  unfold trigger_simulated_call_clicked.
  destruct (negb _); [apply keeps_ret|].
  apply keeps_gets_bind. intros w.
  destruct (find_by_value (leads w) sel 0) as [i|]; [|apply R_refl].
  destruct (leads w !! i) as [lead|]; [|apply R_refl].
  apply keeps_bind; [apply keeps_trigger_local_call|]. intros _. apply keeps_ret.
Qed.

Lemma handled_run (a : action) :
  match a with
  | TriggerSimulatedCall sel => keeps R (trigger_simulated_call_clicked env sel)
  | _ => handled R (run env a)
  end.
Proof.
  destruct a; simpl.
  - apply handled_save_lead_clicked.
  - apply handled_auto_qualify_all_clicked.
  - apply handled_trigger_call_clicked.
  - apply handled_generate_proposal_clicked.
  - apply handled_csv_uploaded.
  - apply handled_auto_qualify_imported_clicked.
  - apply keeps_trigger_simulated_call_clicked.
  - apply handled_send_event_clicked.
Qed.

End Frame.
Lemma grows_refl (w : World) : grows w w.
Proof.
  unfold grows. split; [exists EmptyString; now rewrite append_nil_r|].
  split; [exists []; now rewrite app_nil_r|].
  repeat split; auto.
Qed.

Lemma grows_trans (w1 w2 w3 : World) : grows w1 w2 -> grows w2 w3 -> grows w1 w3.
Proof.
  intros ((a & Ha) & (b & Hb) & Hc & Hl & He & Hq & Hp & Hs)
         ((a' & Ha') & (b' & Hb') & Hc' & Hl' & He' & Hq' & Hp' & Hs').
  unfold grows.
  split; [exists (a +:+ a')%string; now rewrite Ha', Ha, append_assoc|].
  split; [exists (b ++ b'); now rewrite Hb', Hb, app_assoc|].
  split; [lia|]. split; [lia|].
  split; [set_solver|]. split; [set_solver|]. split; [set_solver|].
  congruence.
Qed.

Lemma grows_still (w w' : World) :
  notif_log w' = notif_log w -> toasts w' = toasts w ->
  clock_reads w <= clock_reads w' -> llm_calls w <= llm_calls w' ->
  dom (emails w) ⊆ dom (emails w') ->
  dom (call_requests w) ⊆ dom (call_requests w') ->
  dom (proposals w) ⊆ dom (proposals w') ->
  settings w' = settings w ->
  grows w w'.
Proof.
  intros Hn Ht Hc Hl He Hq Hp Hs. unfold grows.
  split; [exists EmptyString; now rewrite append_nil_r|].
  split; [exists []; now rewrite app_nil_r|].
  repeat split; auto.
Qed.

Lemma grows_run (env : Env) (a : action) :
  match a with
  | TriggerSimulatedCall sel => keeps grows (trigger_simulated_call_clicked env sel)
  | _ => handled grows (run env a)
  end.
Proof.
  apply handled_run.
  - apply grows_refl.
  - apply grows_trans.
  - intros w. apply grows_still; cbn; auto.
  - intros w. apply grows_still; cbn; auto.
  - intros line msg w. unfold grows. cbn.
    split; [now exists line|]. split; [now exists [msg]|]. repeat split; auto.
  - intros n b w. apply grows_still; cbn; auto. apply dom_insert_subseteq.
  - intros n b w. apply grows_still; cbn; auto. apply dom_insert_subseteq.
  - intros n b w. apply grows_still; cbn; auto. apply dom_insert_subseteq.
  - intros l w. apply grows_still; cbn; auto.
Qed.

Lemma grows_step (env : Env) (a : action) (w : World) : grows w (snd (run env a w)).
Proof.
  pose proof (grows_run env a) as H.
  assert (handled grows (run env a) -> grows w (snd (run env a w))) as Hh.
  { intros Hh. specialize (Hh w).
    destruct (run env a w) as [[u|e] w']; cbn [snd]; [|exact Hh].
    destruct Hh as [->|(w1 & Hg & ->)]; [apply grows_refl|].
    eapply grows_trans; [exact Hg|]. apply grows_still; cbn; auto. }
  destruct a; try (apply Hh; exact H). exact (H w).
Qed.

(** X1.  Whatever blocks of the interface run, in whatever order and
    whether they return or raise: the notification log and the toasts
    are only appended to, no e-mail, call request or proposal file
    disappears, the counters of the clock and of the model do not go
    back, and the settings stay as they are. *)
Theorem run_all_grows (env : Env) (actions : list action) (w : World) :
  grows w (run_all env actions w).
Proof.
  revert w. induction actions as [|a rest IH]; intros w; cbn [run_all].
  - apply grows_refl.
  - eapply grows_trans; [apply grows_step|apply IH].
Qed.

(** The block of the Calls tab touches neither the leads nor the
    document. *)
Lemma trigger_simulated_call_clicked_frame (env : Env) (sel : value) (w : World) :
  leads (snd (trigger_simulated_call_clicked env sel w)) = leads w
  /\ leads_json (snd (trigger_simulated_call_clicked env sel w)) = leads_json w.
Proof.
  unfold trigger_simulated_call_clicked.
  destruct (negb _); [now split|].
  match goal with
  | |- context [bind (gets leads) ?k w] =>
      change (bind (gets leads) k w) with (k (leads w) w)
  end.
  cbv beta.
  destruct (find_by_value (leads w) sel 0) as [i|]; [|now split].
  destruct (leads w !! i) as [lead|]; [|now split].
  destruct (trigger_local_call_outcome env lead w) as (r & w' & Hrun & Hl & Hj & _).
  unfold bind. rewrite Hrun. destruct r; now split.
Qed.

(** X2.  A block of the interface that returns has changed nothing at
    all, or has ended by writing the document, which is then the dump
    of the leads of the session.  The one exception is "Trigger
    Simulated Call" on the Calls tab, which does not save: it leaves
    the leads and the document as they were. *)
Theorem run_returns_saved (env : Env) (a : action) (w w' : World) :
  run env a w = (Ok tt, w') ->
  w' = w
  \/ ((exists sel, a = TriggerSimulatedCall sel)
      /\ leads w' = leads w /\ leads_json w' = leads_json w)
  \/ leads_json w' = Some (Json.dumps (Json.of_leads (leads w'))).
Proof.
  intros Hrun.
  pose proof (handled_run (fun _ _ => True) env) as H.
  specialize (H (fun _ => I) (fun _ _ _ _ _ => I) (fun _ => I) (fun _ => I)
                (fun _ _ _ => I) (fun _ _ _ => I) (fun _ _ _ => I) (fun _ _ _ => I)
                (fun _ _ => I) a).
  assert (handled (fun _ _ => True) (run env a) ->
          w' = w \/ leads_json w' = Some (Json.dumps (Json.of_leads (leads w')))) as Hh.
  { intros Hh. specialize (Hh w). rewrite Hrun in Hh.
    destruct Hh as [->|(w1 & _ & ->)]; [now left|now right]. }
  destruct a; try (destruct (Hh H) as [Hw|Hs]; [now left|now right; right]).
  right. left. split; [eauto|].
  pose proof (trigger_simulated_call_clicked_frame env sel w) as Hf.
  cbn [run] in Hrun. rewrite Hrun in Hf. exact Hf.
Qed.

Lemma run_returns_saved_witness :
  run Demo.env (TriggerSimulatedCall (VStr "jane@acme.com")) (Demo.world [Demo.jane])
  = (Ok tt, snd (run Demo.env (TriggerSimulatedCall (VStr "jane@acme.com"))
                   (Demo.world [Demo.jane])))
  /\ (snd (run Demo.env (TriggerSimulatedCall (VStr "jane@acme.com"))
             (Demo.world [Demo.jane]))
      = Demo.world [Demo.jane]
      \/ ((exists sel, TriggerSimulatedCall (VStr "jane@acme.com") = TriggerSimulatedCall sel)
          /\ leads (snd (run Demo.env (TriggerSimulatedCall (VStr "jane@acme.com"))
                          (Demo.world [Demo.jane])))
             = leads (Demo.world [Demo.jane])
          /\ leads_json (snd (run Demo.env (TriggerSimulatedCall (VStr "jane@acme.com"))
                               (Demo.world [Demo.jane])))
             = leads_json (Demo.world [Demo.jane]))
      \/ leads_json (snd (run Demo.env (TriggerSimulatedCall (VStr "jane@acme.com"))
                            (Demo.world [Demo.jane])))
         = Some (Json.dumps (Json.of_leads
                   (leads (snd (run Demo.env (TriggerSimulatedCall (VStr "jane@acme.com"))
                                  (Demo.world [Demo.jane]))))))).
Proof.
  split; [vm_compute; reflexivity|].
  apply (run_returns_saved Demo.env (TriggerSimulatedCall (VStr "jane@acme.com"))
           (Demo.world [Demo.jane])).
  vm_compute; reflexivity.
Defined.

(** X3.  A block of the interface that raises has not written the
    document: what the file holds is what it held before, whatever
    the block has changed in the session. *)
Theorem run_raises_unsaved (env : Env) (a : action) (w w' : World) (e : exn) :
  run env a w = (Raise e, w') -> leads_json w' = leads_json w.
Proof.
  intros Hrun.
  pose proof (handled_run same_document env) as H.
  unfold same_document in H.
  specialize (H (fun _ => eq_refl)
                (fun w1 w2 w3 H12 H23 => eq_trans H23 H12)
                (fun _ => eq_refl) (fun _ => eq_refl)
                (fun _ _ _ => eq_refl) (fun _ _ _ => eq_refl) (fun _ _ _ => eq_refl)
                (fun _ _ _ => eq_refl) (fun _ _ => eq_refl) a).
  destruct a; try (specialize (H w); rewrite Hrun in H; exact H).
  specialize (H w). cbn [run] in Hrun. rewrite Hrun in H. exact H.
Qed.

Lemma run_raises_unsaved_witness :
  run Demo.env (UploadCsv [Demo.row_no_budget; Demo.row_in_words]) (Demo.world [])
  = (Raise ValueError,
     snd (run Demo.env (UploadCsv [Demo.row_no_budget; Demo.row_in_words]) (Demo.world [])))
  /\ leads_json
       (snd (run Demo.env (UploadCsv [Demo.row_no_budget; Demo.row_in_words]) (Demo.world [])))
     = leads_json (Demo.world []).
Proof.
  split; [vm_compute; reflexivity|].
  apply (run_raises_unsaved Demo.env
           (UploadCsv [Demo.row_no_budget; Demo.row_in_words]) (Demo.world []) _ ValueError).
  vm_compute; reflexivity.
Defined.
(** ** More on [upsert_lead] *)

Lemma key_of_email_key (x : dict) (k : string) : email_key x = Ok k -> key_of x = k.
Proof. unfold key_of. now intros ->. Qed.

Lemma email_key_get (x y : dict) :
  Dict.get x "Email" = Dict.get y "Email" -> email_key x = email_key y.
Proof. unfold email_key. now intros ->. Qed.

Lemma email_key_with_defaults (lead : dict) (t : string) :
  email_key (with_defaults lead t) = email_key lead.
Proof.
  apply email_key_get. unfold with_defaults, Dict.get, Dict.get_or.
  now rewrite !lookup_setdefault_ne by discriminate.
Qed.

(** The merge leaves the e-mail key of the record as it was, when the
    keys of the record and of the candidate are the same. *)
Lemma email_key_merged (x lead : dict) (t : string) :
  NoDup (Dict.keys lead) -> email_key x = email_key lead ->
  email_key (merged x lead t) = email_key x.
Proof.
  intros Hnd Hk.
  assert (Dict.lookup (merged x lead t) "Email"
          = match Dict.lookup lead "Email" with
            | Some v => Some v
            | None => Dict.lookup x "Email"
            end) as Hl.
  { unfold merged. rewrite lookup_setitem_ne by discriminate.
    destruct (Value.among _ _).
    - rewrite lookup_setitem_ne by discriminate. now apply lookup_update.
    - now apply lookup_update. }
  destruct (Dict.lookup lead "Email") as [v|] eqn:E.
  - rewrite Hk. apply email_key_get. unfold Dict.get, Dict.get_or. now rewrite Hl, E.
  - apply email_key_get. unfold Dict.get, Dict.get_or. now rewrite Hl.
Qed.

Lemma find_by_email_None (l : list dict) (lead : dict) (i : nat) :
  find_by_email l lead i = Ok None -> ~ In (key_of lead) (map key_of l).
Proof.
  revert i. induction l as [|x l IH]; intros i; simpl; [tauto|].
  destruct (email_key x) as [a|] eqn:Ex; [|discriminate].
  destruct (email_key lead) as [b|] eqn:Eb; [|discriminate]. simpl.
  destruct (String.eqb a b) eqn:E; [discriminate|].
  intros H [Heq|Hin].
  - rewrite (key_of_email_key _ _ Ex), (key_of_email_key _ _ Eb) in Heq.
    subst. now rewrite String.eqb_refl in E.
  - now apply (IH _ H).
Qed.

Lemma find_by_email_Some (l : list dict) (lead : dict) (i j : nat) :
  find_by_email l lead i = Ok (Some j) ->
  i <= j /\ exists x, l !! (j - i) = Some x /\ email_key x = email_key lead
                      /\ email_ok lead = true.
Proof.
  revert i. induction l as [|x l IH]; intros i; simpl; [discriminate|].
  destruct (email_key x) as [a|] eqn:Ex; [|discriminate].
  unfold email_ok.
  destruct (email_key lead) as [b|] eqn:Eb; [|discriminate]. simpl.
  destruct (String.eqb a b) eqn:E.
  - intros [= <-]. split; [lia|]. rewrite Nat.sub_diag. simpl.
    apply String.eqb_eq in E. subst. exists x. auto.
  - intros H. apply IH in H as [Hle (y & Hy & Hk & _)]. split; [lia|].
    replace (j - i) with (S (j - S i)) by lia. simpl. exists y. auto.
Qed.

(** What [upsert_lead] returns, by the outcome of the search. *)
Lemma upsert_lead_cases (env : Env) (l l' : list dict) (lead : dict) (w w' : World) :
  upsert_lead env l lead w = (Ok l', w') ->
  (find_by_email l lead 0 = Ok None
   /\ l' = l ++ [with_defaults lead (utc_iso env (clock_reads w))])
  \/ (exists i x,
        find_by_email l lead 0 = Ok (Some i) /\ l !! i = Some x
        /\ l' = <[i := merged x (with_defaults lead (utc_iso env (clock_reads w)))
                          (utc_iso env (S (clock_reads w)))]> l).
Proof.
  unfold upsert_lead, bind, lift, now_iso, ret.
  destruct (find_by_email l lead 0) as [[i|]|e] eqn:Ef; [| |discriminate].
  - destruct (find_by_email_Some _ _ _ _ Ef) as [_ (x & Hx & _)].
    rewrite Nat.sub_0_r in Hx. cbn [clock_reads with_clock_reads]. rewrite Hx.
    intros [= <- _]. right. exists i, x. auto.
  - intros [= <- _]. left. auto.
Qed.

(** X4.  [upsert_lead] changes one place of the collection and no
    other: it writes the place [i] of a record that matches, or the
    place after the last record.  No record is removed or moved, and
    the collection grows by one record at most. *)
Theorem upsert_lead_one_place (env : Env) (l l' : list dict) (lead : dict) (w w' : World) :
  upsert_lead env l lead w = (Ok l', w') ->
  exists i,
    i <= length l
    /\ length l' = Nat.max (length l) (S i)
    /\ forall j, j <> i -> l' !! j = l !! j.
Proof.
  intros H. apply upsert_lead_cases in H as [[_ ->]|(i & x & _ & Hx & ->)].
  - exists (length l). split; [lia|]. split.
    + rewrite length_app. simpl. lia.
    + intros j Hj. destruct (Nat.lt_ge_cases j (length l)) as [Hlt|Hge].
      * now rewrite lookup_app_l.
      * rewrite lookup_app_r by lia.
        rewrite (lookup_ge_None_2 l j) by lia.
        destruct (j - length l) as [|n] eqn:E; [lia|reflexivity].
  - exists i. apply lookup_lt_Some in Hx. split; [lia|]. split.
    + rewrite length_insert. lia.
    + intros j Hj. now apply list_lookup_insert_ne.
Qed.

Lemma upsert_lead_one_place_witness :
  exists l' w',
    upsert_lead Demo.env [Demo.ann; Demo.jane] Demo.jane_again (Demo.world []) = (Ok l', w')
    /\ exists i,
         i <= length [Demo.ann; Demo.jane]
         /\ length l' = Nat.max (length [Demo.ann; Demo.jane]) (S i)
         /\ forall j, j <> i -> l' !! j = [Demo.ann; Demo.jane] !! j.
Proof.
  pose (r := upsert_lead Demo.env [Demo.ann; Demo.jane] Demo.jane_again (Demo.world [])).
  exists (match fst r with Ok l' => l' | Raise _ => [] end), (snd r).
  assert (upsert_lead Demo.env [Demo.ann; Demo.jane] Demo.jane_again (Demo.world [])
          = (Ok (match fst r with Ok l' => l' | Raise _ => [] end), snd r)) as H
    by (vm_compute; reflexivity).
  split; [exact H|].
  exact (upsert_lead_one_place Demo.env _ _ _ _ _ H).
Defined.

Lemma map_insert_same {A B : Type} (f : A -> B) (l : list A) (i : nat) (x y : A) :
  l !! i = Some x -> f y = f x -> map f (<[i := y]> l) = map f l.
Proof.
  revert i. induction l as [|a l IH]; intros [|i]; simpl; try discriminate.
  - intros [= ->] ->. reflexivity.
  - intros Hx Hf. f_equal. now apply IH.
Qed.

Lemma forallb_insert {A : Type} (p : A -> bool) (l : list A) (i : nat) (y : A) :
  forallb p l = true -> p y = true -> forallb p (<[i := y]> l) = true.
Proof.
  revert i. induction l as [|a l IH]; intros [|i]; simpl; auto.
  - intros H Hy. apply andb_true_iff in H as [_ H]. now rewrite Hy.
  - intros H Hy. apply andb_true_iff in H as [Ha H]. rewrite Ha. now apply IH.
Qed.

Lemma forallb_lookup {A : Type} (p : A -> bool) (l : list A) (i : nat) (x : A) :
  forallb p l = true -> l !! i = Some x -> p x = true.
Proof.
  revert i. induction l as [|a l IH]; intros [|i]; simpl; try discriminate.
  - intros H [= ->]. now apply andb_true_iff in H as [H _].
  - intros H Hx. apply andb_true_iff in H as [_ H]. eauto.
Qed.

Lemma NoDup_keys_with_defaults (lead : dict) (t : string) :
  NoDup (Dict.keys lead) -> NoDup (Dict.keys (with_defaults lead t)).
Proof. intros H. unfold with_defaults. now do 2 apply NoDup_keys_setdefault. Qed.

(** X5.  One record per e-mail: when the e-mail keys of the records
    are pairwise distinct, they still are after [upsert_lead], and
    every key can still be computed. *)
Theorem upsert_lead_one_per_email (env : Env) (l l' : list dict) (lead : dict)
    (w w' : World) :
  forallb email_ok l = true -> email_ok lead = true -> NoDup (Dict.keys lead) ->
  NoDup (map key_of l) ->
  upsert_lead env l lead w = (Ok l', w') ->
  forallb email_ok l' = true /\ NoDup (map key_of l').
Proof.
  intros Hl Hlead Hnd Hkeys H.
  apply upsert_lead_cases in H as [[Hf ->]|(i & x & Hf & Hx & ->)].
  - split.
    + rewrite forallb_app, Hl. simpl. unfold email_ok.
      rewrite email_key_with_defaults. fold (email_ok lead). now rewrite Hlead.
    + rewrite map_app. apply NoDup_app. split; [exact Hkeys|]. split.
      * intros k Hk Hin. apply list_elem_of_In in Hk.
        apply list_elem_of_In in Hin. destruct Hin as [<-|[]].
        apply (find_by_email_None _ _ _ Hf).
        unfold key_of in Hk. rewrite email_key_with_defaults in Hk. exact Hk.
      * apply (bool_decide_unpack _). reflexivity.
  - destruct (find_by_email_Some _ _ _ _ Hf) as [_ (x0 & Hx0 & Hk & _)].
    rewrite Nat.sub_0_r, Hx in Hx0. injection Hx0 as <-.
    assert (email_key (merged x (with_defaults lead (utc_iso env (clock_reads w)))
                         (utc_iso env (S (clock_reads w))))
            = email_key x) as Hm.
    { apply email_key_merged.
      - now apply NoDup_keys_with_defaults.
      - now rewrite email_key_with_defaults. }
    split.
    + apply forallb_insert; [exact Hl|].
      unfold email_ok. rewrite Hm. exact (forallb_lookup _ _ _ _ Hl Hx).
    + rewrite (map_insert_same key_of l i x); [exact Hkeys|exact Hx|].
      unfold key_of. now rewrite Hm.
Qed.

Lemma upsert_lead_one_per_email_witness :
  forallb email_ok [Demo.ann; Demo.jane] = true
  /\ email_ok Demo.jane_again = true
  /\ NoDup (Dict.keys Demo.jane_again)
  /\ NoDup (map key_of [Demo.ann; Demo.jane])
  /\ exists l' w',
       upsert_lead Demo.env [Demo.ann; Demo.jane] Demo.jane_again (Demo.world []) = (Ok l', w')
       /\ forallb email_ok l' = true /\ NoDup (map key_of l').
Proof.
  assert (NoDup (Dict.keys Demo.jane_again)) as Hnd
    by (apply (bool_decide_unpack _); vm_compute; reflexivity).
  assert (NoDup (map key_of [Demo.ann; Demo.jane])) as Hkeys
    by (apply (bool_decide_unpack _); vm_compute; reflexivity).
  split; [reflexivity|]. split; [reflexivity|]. split; [exact Hnd|]. split; [exact Hkeys|].
  pose (r := upsert_lead Demo.env [Demo.ann; Demo.jane] Demo.jane_again (Demo.world [])).
  exists (match fst r with Ok l' => l' | Raise _ => [] end), (snd r).
  assert (upsert_lead Demo.env [Demo.ann; Demo.jane] Demo.jane_again (Demo.world [])
          = (Ok (match fst r with Ok l' => l' | Raise _ => [] end), snd r)) as H
    by (vm_compute; reflexivity).
  split; [exact H|].
  exact (upsert_lead_one_per_email Demo.env [Demo.ann; Demo.jane] _ Demo.jane_again _ _
           eq_refl eq_refl Hnd Hkeys H).
Defined.

Lemma find_by_email_app (l : list dict) (y lead : dict) (i : nat) :
  find_by_email l lead i = Ok None -> email_ok lead = true ->
  email_key y = email_key lead ->
  find_by_email (l ++ [y]) lead i = Ok (Some (i + length l)).
Proof.
  revert i. induction l as [|x l IH]; intros i; simpl.
  - intros _ Hok Hy. rewrite Hy. unfold email_ok in Hok.
    destruct (email_key lead) as [b|]; [|discriminate]. simpl.
    rewrite String.eqb_refl. now rewrite Nat.add_0_r.
  - destruct (email_key x) as [a|]; [|discriminate].
    destruct (email_key lead) as [b|] eqn:Eb; [|discriminate]. simpl.
    destruct (String.eqb a b); [discriminate|].
    intros H Hok Hy. rewrite (IH (S i) H Hok) by (now rewrite Hy).
    do 2 f_equal. lia.
Qed.

Lemma get_merged_status (x lead : dict) (t : string) (v : value) :
  NoDup (Dict.keys lead) -> Dict.lookup lead "Status" = Some v ->
  Dict.get (merged x lead t) "Status"
  = (if Value.among v ["New"; "Updated"] then VStr "Updated" else v).
Proof.
  intros Hnd Hv. unfold merged. rewrite get_setitem_ne by discriminate.
  assert (Dict.get (Dict.update x lead) "Status" = v) as Hu.
  { unfold Dict.get, Dict.get_or. rewrite lookup_update by assumption. now rewrite Hv. }
  rewrite Hu. destruct (Value.among v ["New"; "Updated"]).
  - apply get_setitem_eq.
  - exact Hu.
Qed.

(** X6.  Upserting a lead that is not in the collection, and then a
    candidate with the same fields again, adds one record and no
    second one; with a Status of New or Updated (or none) in the
    candidate, the record's Status is Updated after the second time,
    and it holds the other fields of the candidate. *)
Theorem upsert_lead_twice (env : Env) (l : list dict) (lead : dict) (w : World) :
  email_ok lead = true -> NoDup (Dict.keys lead) ->
  find_by_email l lead 0 = Ok None ->
  Value.among (Dict.get_or lead "Status" (VStr "New")) ["New"; "Updated"] = true ->
  exists l1 w1 x w2,
    upsert_lead env l lead w = (Ok l1, w1)
    /\ upsert_lead env l1 lead w1 = (Ok (l ++ [x]), w2)
    /\ Dict.get x "Status" = VStr "Updated"
    /\ forall k v, k <> "Status" -> k <> "LastActionAt" ->
         Dict.lookup lead k = Some v -> Dict.lookup x k = Some v.
Proof.
  intros Hok Hnd Hf Hst.
  set (lead0 := with_defaults lead (utc_iso env (clock_reads w))).
  set (w1 := with_clock_reads (S (clock_reads w)) w).
  set (lead1 := with_defaults lead (utc_iso env (clock_reads w1))).
  set (x := merged lead0 lead1 (utc_iso env (S (clock_reads w1)))).
  exists (l ++ [lead0]), w1, x, (with_clock_reads (S (S (clock_reads w1))) w1).
  assert (find_by_email (l ++ [lead0]) lead 0 = Ok (Some (length l))) as Hf2.
  { rewrite (find_by_email_app l lead0 lead 0 Hf Hok); [reflexivity|].
    apply email_key_with_defaults. }
  split; [|split; [|split]].
  - unfold upsert_lead, bind, lift, now_iso, ret. rewrite Hf. reflexivity.
  - unfold upsert_lead, bind, lift, now_iso, ret. rewrite Hf2.
    cbn [clock_reads with_clock_reads].
    rewrite lookup_app_r by lia. rewrite Nat.sub_diag. cbn [lookup list_lookup].
    f_equal. f_equal.
    rewrite <- (Nat.add_0_r (length l)) at 1. now rewrite insert_app_r.
  - unfold x. rewrite (get_merged_status lead0 lead1 _
                         (Dict.get_or lead "Status" (VStr "New"))).
    + now rewrite Hst.
    + now apply NoDup_keys_with_defaults.
    + apply lookup_with_defaults_status.
  - intros k v Hs Ht Hk. unfold x. apply lookup_merged; auto.
    + now apply NoDup_keys_with_defaults.
    + unfold lead1, with_defaults. now rewrite !lookup_setdefault_ne by congruence.
Qed.

Lemma upsert_lead_twice_witness :
  email_ok Demo.jane_again = true
  /\ NoDup (Dict.keys Demo.jane_again)
  /\ find_by_email [Demo.ann] Demo.jane_again 0 = Ok None
  /\ Value.among (Dict.get_or Demo.jane_again "Status" (VStr "New")) ["New"; "Updated"] = true
  /\ exists l1 w1 x w2,
       upsert_lead Demo.env [Demo.ann] Demo.jane_again (Demo.world []) = (Ok l1, w1)
       /\ upsert_lead Demo.env l1 Demo.jane_again w1 = (Ok ([Demo.ann] ++ [x]), w2)
       /\ Dict.get x "Status" = VStr "Updated"
       /\ forall k v, k <> "Status" -> k <> "LastActionAt" ->
            Dict.lookup Demo.jane_again k = Some v -> Dict.lookup x k = Some v.
Proof.
  assert (NoDup (Dict.keys Demo.jane_again)) as Hnd
    by (apply (bool_decide_unpack _); vm_compute; reflexivity).
  split; [reflexivity|]. split; [exact Hnd|]. split; [reflexivity|]. split; [reflexivity|].
  exact (upsert_lead_twice Demo.env [Demo.ann] Demo.jane_again (Demo.world [])
           eq_refl Hnd eq_refl eq_refl).
Defined.
(** ** Qualification: artifacts and loops *)

(** X7.  [auto_qualify] on a record whose budget can be read.  It sets
    Status, by the rule, and LastActionAt, to the reading of the
    clock, in the record of the session, and no other field.  A lead
    that does not qualify gets no call request and no notification.
    A lead that qualifies gets one call request, whose file name
    carries the e-mail of the lead and whose content is the payload
    of the lead as just changed, and one notification, when its
    e-mail has neither a slash nor a NUL; with such a character the
    write raises, after the record was changed, and nothing is
    written or notified.  In no case is an e-mail, a proposal or the
    document written, or another record touched. *)
Theorem auto_qualify_artifacts (env : Env) (i : nat) (lead : dict) (t b : PyFloat.float)
    (w : World) :
  budget_of lead = Ok b ->
  exists r lead' w',
    auto_qualify env i lead t w = (r, w')
    /\ leads w' = <[i := lead']> (leads w)
    /\ (forall k, k <> "Status" -> k <> "LastActionAt" ->
          Dict.lookup lead' k = Dict.lookup lead k)
    /\ Dict.get lead' "Status"
       = VStr (if PyFloat.ge b t then "Qualified" else "Unqualified")
    /\ Dict.get lead' "LastActionAt" = VStr (utc_iso env (clock_reads w))
    /\ emails w' = emails w /\ proposals w' = proposals w
    /\ leads_json w' = leads_json w
    /\ if PyFloat.ge b t && negb (email_fits lead)
       then (exists e, r = Raise e
                       /\ (e = ValueError \/ e = FileNotFoundError \/ e = NotADirectoryError))
            /\ call_requests w' = call_requests w
            /\ toasts w' = toasts w /\ notif_log w' = notif_log w
       else r = Ok (lead', if PyFloat.ge b t then "Qualified" else "Unqualified")
            /\ if PyFloat.ge b t
               then call_requests w'
                    = <[cat ["call_"; Value.str (Dict.get_or lead "Email" (VStr "unknown"));
                             "_"; local_stamp env (S (clock_reads w)); ".json"]
                        := Json.dumps (call_payload lead')]> (call_requests w)
                    /\ length (toasts w') = S (length (toasts w))
               else call_requests w' = call_requests w
                    /\ toasts w' = toasts w /\ notif_log w' = notif_log w.
Proof.
  intros Hb.
  destruct (auto_qualify_outcome env i lead t b w Hb)
    as (r & w' & Hrun & Hl & Hj & He & Hp & _ & _ & Hif).
  exists r. eexists. exists w'. split; [exact Hrun|]. split; [exact Hl|].
  split; [intros k Hs Ht; now rewrite !lookup_setitem_ne by congruence|].
  split; [rewrite get_setitem_ne by discriminate; apply get_setitem_eq|].
  split; [apply get_setitem_eq|].
  split; [exact He|]. split; [exact Hp|]. split; [exact Hj|].
  destruct (PyFloat.ge b t); cbn [andb] in *; [|exact Hif].
  destruct (email_fits lead); cbn [negb] in *; exact Hif.
Qed.

Lemma auto_qualify_artifacts_witness :
  budget_of Demo.slashed = Ok (PyFloat.of_Z 20000)
  /\ exists r lead' w',
       auto_qualify Demo.env 0 Demo.slashed (PyFloat.of_Z 10000) (Demo.world [Demo.slashed])
       = (r, w')
       /\ leads w' = <[0 := lead']> (leads (Demo.world [Demo.slashed]))
       /\ Dict.get lead' "Status"
          = VStr (if PyFloat.ge (PyFloat.of_Z 20000) (PyFloat.of_Z 10000)
                  then "Qualified" else "Unqualified")
       /\ leads_json w' = leads_json (Demo.world [Demo.slashed])
       /\ if PyFloat.ge (PyFloat.of_Z 20000) (PyFloat.of_Z 10000)
             && negb (email_fits Demo.slashed)
          then (exists e, r = Raise e
                          /\ (e = ValueError \/ e = FileNotFoundError
                              \/ e = NotADirectoryError))
               /\ call_requests w' = call_requests (Demo.world [Demo.slashed])
               /\ toasts w' = toasts (Demo.world [Demo.slashed])
               /\ notif_log w' = notif_log (Demo.world [Demo.slashed])
          else r = Ok (lead', if PyFloat.ge (PyFloat.of_Z 20000) (PyFloat.of_Z 10000)
                              then "Qualified" else "Unqualified")
               /\ if PyFloat.ge (PyFloat.of_Z 20000) (PyFloat.of_Z 10000)
                  then call_requests w'
                       = <[cat ["call_";
                                Value.str (Dict.get_or Demo.slashed "Email" (VStr "unknown"));
                                "_";
                                local_stamp Demo.env
                                  (S (clock_reads (Demo.world [Demo.slashed])));
                                ".json"]
                           := Json.dumps (call_payload lead')]>
                           (call_requests (Demo.world [Demo.slashed]))
                       /\ length (toasts w') = S (length (toasts (Demo.world [Demo.slashed])))
                  else call_requests w' = call_requests (Demo.world [Demo.slashed])
                       /\ toasts w' = toasts (Demo.world [Demo.slashed])
                       /\ notif_log w' = notif_log (Demo.world [Demo.slashed]).
Proof.
  split; [reflexivity|].
  destruct (auto_qualify_artifacts Demo.env 0 Demo.slashed (PyFloat.of_Z 10000)
              (PyFloat.of_Z 20000) (Demo.world [Demo.slashed]) eq_refl)
    as (r & lead' & w' & Hrun & Hl & _ & Hs & _ & _ & _ & Hj & Hif).
  exists r, lead', w'. repeat (split; [assumption|]). exact Hif.
Defined.

(** What one call of [auto_qualify] makes of a record, for the
    loops: when it returns, *)
Lemma auto_qualify_step (env : Env) (i : nat) (lead : dict) (t : PyFloat.float) (w : World) :
  qualifies_ok t lead = true ->
  exists lead' s w',
    auto_qualify env i lead t w = (Ok (lead', s), w')
    /\ leads w' = <[i := lead']> (leads w)
    /\ leads_json w' = leads_json w
    /\ qualified_from lead lead' t
    /\ is_open lead' = false.
Proof.
  intros Hq. unfold qualifies_ok in Hq.
  destruct (budget_of lead) as [b|] eqn:E; [|discriminate].
  destruct (auto_qualify_outcome env i lead t b w E)
    as (r & w' & Hrun & Hl & Hj & _ & _ & _ & _ & Hif).
  assert (PyFloat.ge b t && negb (email_fits lead) = false) as Hno
    by (destruct (PyFloat.ge b t), (email_fits lead); cbn in *; congruence).
  rewrite Hno in Hif. destruct Hif as (-> & _).
  eexists. eexists. exists w'. split; [exact Hrun|]. split; [exact Hl|]. split; [exact Hj|].
  split.
  - split.
    + eexists. unfold status_by_rule. rewrite E. split; [reflexivity|].
      rewrite get_setitem_ne by discriminate. apply get_setitem_eq.
    + intros k Hk1 Hk2. now rewrite !lookup_setitem_ne by congruence.
  - unfold is_open. rewrite get_setitem_ne by discriminate. rewrite get_setitem_eq.
    destruct (PyFloat.ge b t); reflexivity.
Qed.

(** and when it raises: at the conversion of the budget, with the
    record as it was, or at the write of the call request, with the
    record requalified. *)
Lemma auto_qualify_stops (env : Env) (i : nat) (lead : dict) (t : PyFloat.float) (w : World) :
  qualifies_ok t lead = false ->
  exists e w',
    auto_qualify env i lead t w = (Raise e, w')
    /\ leads_json w' = leads_json w
    /\ match budget_of lead with
       | Raise e' => e = e' /\ leads w' = leads w
       | Ok _ =>
           (e = ValueError \/ e = FileNotFoundError \/ e = NotADirectoryError)
           /\ exists lead', leads w' = <[i := lead']> (leads w)
                            /\ qualified_from lead lead' t
       end.
Proof.
  intros Hq. unfold qualifies_ok in Hq.
  destruct (budget_of lead) as [b|e] eqn:E.
  - destruct (auto_qualify_outcome env i lead t b w E)
      as (r & w' & Hrun & Hl & Hj & _ & _ & _ & _ & Hif).
    assert (PyFloat.ge b t && negb (email_fits lead) = true) as Hyes
      by (destruct (PyFloat.ge b t), (email_fits lead); cbn in *; congruence).
    rewrite Hyes in Hif. destruct Hif as ((e & -> & He) & _).
    exists e, w'. split; [exact Hrun|]. split; [exact Hj|]. split; [exact He|].
    eexists. split; [exact Hl|]. split.
    + eexists. unfold status_by_rule. rewrite E. split; [reflexivity|].
      rewrite get_setitem_ne by discriminate. apply get_setitem_eq.
    + intros k Hk1 Hk2. now rewrite !lookup_setitem_ne by congruence.
  - exists e, w. unfold auto_qualify, bind, lift. rewrite E. auto.
Qed.

Lemma auto_qualify_each_ok (env : Env) (t : PyFloat.float) (todo : list dict) (i : nat)
    (w : World) :
  forallb (qualifies_ok t) todo = true -> i + length todo <= length (leads w) ->
  exists w',
    auto_qualify_each env todo i t w = (Ok tt, w')
    /\ length (leads w') = length (leads w)
    /\ (forall j, j < i -> leads w' !! j = leads w !! j)
    /\ (forall j, i + length todo <= j -> leads w' !! j = leads w !! j)
    /\ (forall j x, todo !! j = Some x ->
          exists x', leads w' !! (i + j) = Some x'
                     /\ qualified_from x x' t /\ is_open x' = false).
Proof.
  revert i w. induction todo as [|lead rest IH]; intros i w Hb Hlen.
  - exists w. cbn [auto_qualify_each]. unfold ret. repeat split; auto.
    intros j x Hx. discriminate.
  - cbn [forallb] in Hb. apply andb_true_iff in Hb as [Hlead Hrest].
    cbn [length] in Hlen.
    destruct (auto_qualify_step env i lead t w Hlead)
      as (lead' & s & w1 & Hrun & Hl1 & _ & Hq & Ho).
    cbn [auto_qualify_each]. unfold bind at 1. rewrite Hrun.
    destruct (IH (S i) w1 Hrest) as (w' & Hrun' & Hlen' & Hlow & Hhigh & Hmid).
    { rewrite Hl1, length_insert. lia. }
    exists w'. split; [exact Hrun'|]. split; [|split; [|split]].
    + rewrite Hlen', Hl1. apply length_insert.
    + intros j Hj. rewrite Hlow by lia. rewrite Hl1.
      apply list_lookup_insert_ne. lia.
    + intros j Hj. cbn [length] in Hj. rewrite Hhigh by lia. rewrite Hl1.
      apply list_lookup_insert_ne. lia.
    + intros [|j] x Hx.
      * cbn in Hx. injection Hx as <-. rewrite Nat.add_0_r.
        exists lead'. split; [|auto].
        rewrite Hlow by lia. rewrite Hl1. apply list_lookup_insert_eq. lia.
      * cbn in Hx. replace (i + S j) with (S i + j) by lia. now apply Hmid.
Qed.

(** X8.  "Auto-qualify All" on leads whose qualification returns, that
    is, whose budgets can be read and whose e-mails, for the ones
    that qualify, have neither a slash nor a NUL: the block returns,
    every record gets the Status of the rule (Qualified when its
    budget reaches the threshold, Unqualified otherwise), whatever
    its Status was, and keeps its other fields but LastActionAt; no
    record is added or removed, none is left New or Updated, and the
    document written is the dump of the collection. *)
Theorem auto_qualify_all_clicked_rule (env : Env) (t : PyFloat.float) (w : World) :
  forallb (qualifies_ok t) (leads w) = true ->
  exists w',
    auto_qualify_all_clicked env t w = (Ok tt, w')
    /\ length (leads w') = length (leads w)
    /\ (forall i x, leads w !! i = Some x ->
          exists x', leads w' !! i = Some x'
                     /\ qualified_from x x' t /\ is_open x' = false)
    /\ leads_json w' = Some (Json.dumps (Json.of_leads (leads w'))).
Proof.
  intros Hb.
  destruct (auto_qualify_each_ok env t (leads w) 0 w Hb) as (w1 & Hrun & Hlen & _ & _ & Hmid);
    [simpl; lia|].
  unfold auto_qualify_all_clicked.
  match goal with
  | |- context [bind (gets leads) ?k w] =>
      change (bind (gets leads) k w) with (k (leads w) w)
  end.
  cbv beta. unfold bind at 1. rewrite Hrun.
  unfold bind, gets, save_leads, modify.
  eexists. split; [reflexivity|]. cbn [leads leads_json with_leads_json].
  split; [exact Hlen|]. split; [|reflexivity].
  intros i x Hx. apply (Hmid i x Hx).
Qed.

Lemma auto_qualify_all_clicked_rule_witness :
  forallb (qualifies_ok (PyFloat.of_Z 10000)) (leads (Demo.world [Demo.jane; Demo.ann])) = true
  /\ exists w',
       auto_qualify_all_clicked Demo.env (PyFloat.of_Z 10000) (Demo.world [Demo.jane; Demo.ann])
       = (Ok tt, w')
       /\ length (leads w') = length (leads (Demo.world [Demo.jane; Demo.ann]))
       /\ (forall i x, leads (Demo.world [Demo.jane; Demo.ann]) !! i = Some x ->
             exists x', leads w' !! i = Some x'
                        /\ qualified_from x x' (PyFloat.of_Z 10000) /\ is_open x' = false)
       /\ leads_json w' = Some (Json.dumps (Json.of_leads (leads w'))).
Proof.
  split; [reflexivity|].
  exact (auto_qualify_all_clicked_rule Demo.env (PyFloat.of_Z 10000)
           (Demo.world [Demo.jane; Demo.ann]) eq_refl).
Defined.

Lemma auto_qualify_open_ok (env : Env) (t : PyFloat.float) (todo : list dict) (i : nat)
    (w : World) :
  forallb (fun x => negb (is_open x) || qualifies_ok t x) todo = true ->
  i + length todo <= length (leads w) ->
  (forall j x, todo !! j = Some x -> leads w !! (i + j) = Some x) ->
  exists w',
    auto_qualify_open env todo i t w = (Ok tt, w')
    /\ length (leads w') = length (leads w)
    /\ (forall j, j < i -> leads w' !! j = leads w !! j)
    /\ (forall j, i + length todo <= j -> leads w' !! j = leads w !! j)
    /\ (forall j x, todo !! j = Some x ->
          exists x', leads w' !! (i + j) = Some x' /\ is_open x' = false
                     /\ if is_open x then qualified_from x x' t else x' = x).
Proof.
  revert i w. induction todo as [|lead rest IH]; intros i w Hb Hlen Hsame.
  - exists w. cbn [auto_qualify_open]. unfold ret. repeat split; auto.
    intros j x Hx. discriminate.
  - cbn [forallb] in Hb. apply andb_true_iff in Hb as [Hlead Hrest].
    cbn [length] in Hlen. cbn [auto_qualify_open].
    fold (is_open lead).
    destruct (is_open lead) eqn:Hopen.
    + cbn [negb orb] in Hlead.
      destruct (auto_qualify_step env i lead t w Hlead)
        as (lead' & s & w1 & Hrun & Hl1 & _ & Hq & Ho).
      unfold bind at 1. unfold bind at 1. rewrite Hrun. unfold ret at 1.
      destruct (IH (S i) w1 Hrest) as (w' & Hrun' & Hlen' & Hlow & Hhigh & Hmid).
      { rewrite Hl1, length_insert. lia. }
      { intros j x Hx. rewrite Hl1. rewrite list_lookup_insert_ne by lia.
        replace (S i + j) with (i + S j) by lia. now apply Hsame. }
      exists w'. split; [exact Hrun'|]. split; [|split; [|split]].
      * rewrite Hlen', Hl1. apply length_insert.
      * intros j Hj. rewrite Hlow by lia. rewrite Hl1.
        apply list_lookup_insert_ne. lia.
      * intros j Hj. cbn [length] in Hj. rewrite Hhigh by lia. rewrite Hl1.
        apply list_lookup_insert_ne. lia.
      * intros [|j] x Hx.
        -- cbn in Hx. injection Hx as <-. rewrite Nat.add_0_r.
           exists lead'. rewrite Hopen. split; [|auto].
           rewrite Hlow by lia. rewrite Hl1. apply list_lookup_insert_eq. lia.
        -- cbn in Hx. replace (i + S j) with (S i + j) by lia. now apply Hmid.
    + unfold bind at 1. unfold ret at 1.
      destruct (IH (S i) w Hrest) as (w' & Hrun' & Hlen' & Hlow & Hhigh & Hmid).
      { lia. }
      { intros j x Hx. replace (S i + j) with (i + S j) by lia. now apply Hsame. }
      exists w'. split; [exact Hrun'|]. split; [exact Hlen'|]. split; [|split].
      * intros j Hj. apply Hlow. lia.
      * intros j Hj. cbn [length] in Hj. apply Hhigh. lia.
      * intros [|j] x Hx.
        -- cbn in Hx. injection Hx as <-. rewrite Nat.add_0_r.
           exists lead. rewrite Hopen. split; [|auto].
           rewrite Hlow by lia. rewrite <- (Nat.add_0_r i) at 1.
           apply (Hsame 0 lead eq_refl).
        -- cbn in Hx. replace (i + S j) with (S i + j) by lia. now apply Hmid.
Qed.

(** X9.  "Auto-qualify imported leads" acts on the open records only:
    when the qualification of every record that is New or Updated
    returns (its budget can be read and, if it qualifies, its e-mail
    has neither a slash nor a NUL), the block returns; those records
    get the Status of the rule, every other record is exactly as it
    was, and afterwards no record is New or Updated. *)
Theorem auto_qualify_imported_clicked_rule (env : Env) (t : PyFloat.float) (w : World) :
  forallb (fun x => negb (is_open x) || qualifies_ok t x) (leads w) = true ->
  exists w',
    auto_qualify_imported_clicked env t w = (Ok tt, w')
    /\ length (leads w') = length (leads w)
    /\ (forall i x, leads w !! i = Some x ->
          exists x', leads w' !! i = Some x' /\ is_open x' = false
                     /\ if is_open x then qualified_from x x' t else x' = x)
    /\ leads_json w' = Some (Json.dumps (Json.of_leads (leads w'))).
Proof.
  intros Hb.
  destruct (auto_qualify_open_ok env t (leads w) 0 w Hb)
    as (w1 & Hrun & Hlen & _ & _ & Hmid); [simpl; lia|auto|].
  unfold auto_qualify_imported_clicked.
  match goal with
  | |- context [bind (gets leads) ?k w] =>
      change (bind (gets leads) k w) with (k (leads w) w)
  end.
  cbv beta. unfold bind at 1. rewrite Hrun.
  unfold bind, gets, save_leads, modify.
  eexists. split; [reflexivity|]. cbn [leads leads_json with_leads_json].
  split; [exact Hlen|]. split; [|reflexivity].
  intros i x Hx. apply (Hmid i x Hx).
Qed.

Lemma auto_qualify_imported_clicked_rule_witness :
  forallb (fun x => negb (is_open x) || qualifies_ok (PyFloat.of_Z 10000) x)
    (leads (Demo.world [Demo.jane; Demo.jane_again; Demo.scribbled])) = true
  /\ exists w',
       auto_qualify_imported_clicked Demo.env (PyFloat.of_Z 10000)
         (Demo.world [Demo.jane; Demo.jane_again; Demo.scribbled])
       = (Ok tt, w')
       /\ length (leads w')
          = length (leads (Demo.world [Demo.jane; Demo.jane_again; Demo.scribbled]))
       /\ (forall i x,
             leads (Demo.world [Demo.jane; Demo.jane_again; Demo.scribbled]) !! i = Some x ->
             exists x', leads w' !! i = Some x' /\ is_open x' = false
                        /\ if is_open x then qualified_from x x' (PyFloat.of_Z 10000)
                           else x' = x)
       /\ leads_json w' = Some (Json.dumps (Json.of_leads (leads w'))).
Proof.
  split; [reflexivity|].
  exact (auto_qualify_imported_clicked_rule Demo.env (PyFloat.of_Z 10000)
           (Demo.world [Demo.jane; Demo.jane_again; Demo.scribbled]) eq_refl).
Defined.

Lemma auto_qualify_each_raises (env : Env) (t : PyFloat.float) (pre post : list dict)
    (bad : dict) (i : nat) (w : World) :
  forallb (qualifies_ok t) pre = true -> qualifies_ok t bad = false ->
  i + length pre < length (leads w) ->
  exists e w',
    auto_qualify_each env (pre ++ bad :: post) i t w = (Raise e, w')
    /\ leads_json w' = leads_json w
    /\ length (leads w') = length (leads w)
    /\ (forall j, j < i -> leads w' !! j = leads w !! j)
    /\ (forall j, i + length pre < j -> leads w' !! j = leads w !! j)
    /\ (forall j x, pre !! j = Some x ->
          exists x', leads w' !! (i + j) = Some x' /\ qualified_from x x' t)
    /\ match budget_of bad with
       | Raise e' => e = e' /\ leads w' !! (i + length pre) = leads w !! (i + length pre)
       | Ok _ =>
           (e = ValueError \/ e = FileNotFoundError \/ e = NotADirectoryError)
           /\ exists bad', leads w' !! (i + length pre) = Some bad'
                           /\ qualified_from bad bad' t
       end.
Proof.
  revert i w. induction pre as [|lead rest IH]; intros i w Hb Hbad Hlen.
  - cbn [length] in Hlen. rewrite Nat.add_0_r in Hlen.
    destruct (auto_qualify_stops env i bad t w Hbad) as (e & w' & Hrun & Hj & Hm).
    exists e, w'. cbn [app auto_qualify_each]. unfold bind at 1. rewrite Hrun.
    split; [reflexivity|]. split; [exact Hj|].
    cbn [length]. rewrite Nat.add_0_r.
    destruct (budget_of bad) as [b|e'].
    + destruct Hm as (He & bad' & Hl & Hq). rewrite Hl.
      split; [apply length_insert|].
      split; [intros j Hlt; apply list_lookup_insert_ne; lia|].
      split; [intros j Hlt; apply list_lookup_insert_ne; lia|].
      split; [intros j x Hx; discriminate|].
      split; [exact He|]. exists bad'. split; [|exact Hq].
      now apply list_lookup_insert_eq.
    + destruct Hm as (-> & Hl). rewrite Hl.
      repeat split; auto. intros j x Hx. discriminate.
  - cbn [forallb] in Hb. apply andb_true_iff in Hb as [Hlead Hrest].
    cbn [length] in Hlen.
    destruct (auto_qualify_step env i lead t w Hlead)
      as (lead' & s & w1 & Hrun & Hl1 & Hj1 & Hq & Ho).
    cbn [app auto_qualify_each]. unfold bind at 1. rewrite Hrun.
    destruct (IH (S i) w1 Hrest Hbad)
      as (e & w' & Hrun' & Hdoc & Hlen' & Hlow & Hhigh & Hmid & Hm).
    { rewrite Hl1, length_insert. lia. }
    exists e, w'. split; [exact Hrun'|]. split; [|split; [|split; [|split; [|split]]]].
    + rewrite Hdoc. exact Hj1.
    + rewrite Hlen', Hl1. apply length_insert.
    + intros j Hj. rewrite Hlow by lia. rewrite Hl1.
      apply list_lookup_insert_ne. lia.
    + intros j Hj. cbn [length] in Hj. rewrite Hhigh by lia. rewrite Hl1.
      apply list_lookup_insert_ne. lia.
    + intros [|j] x Hx.
      * cbn in Hx. injection Hx as <-. rewrite Nat.add_0_r.
        exists lead'. split; [|auto].
        rewrite Hlow by lia. rewrite Hl1. apply list_lookup_insert_eq. lia.
      * cbn in Hx. replace (i + S j) with (S i + j) by lia. now apply Hmid.
    + cbn [length]. replace (i + S (length rest)) with (S i + length rest) by lia.
      destruct (budget_of bad) as [b|e']; [exact Hm|].
      destruct Hm as (-> & Hm). split; [reflexivity|].
      rewrite Hm, Hl1. apply list_lookup_insert_ne. lia.
Qed.

(** X10.  "Auto-qualify All" is not all or nothing.  It stops at the
    first record whose qualification raises.  That is a record whose
    budget cannot be read, which raises the exception of the
    conversion and stays as it was; or a record that qualifies and
    whose e-mail has a slash or a NUL, which raises at the write of
    its call request and stays requalified in the session.  The
    records before it have been requalified in the session, the ones
    after it are as they were, and the document is not written. *)
Theorem auto_qualify_all_clicked_stops (env : Env) (t : PyFloat.float) (w : World)
    (pre post : list dict) (bad : dict) :
  leads w = pre ++ bad :: post ->
  forallb (qualifies_ok t) pre = true -> qualifies_ok t bad = false ->
  exists e w',
    auto_qualify_all_clicked env t w = (Raise e, w')
    /\ leads_json w' = leads_json w
    /\ (forall j x, pre !! j = Some x ->
          exists x', leads w' !! j = Some x' /\ qualified_from x x' t)
    /\ (forall j, length pre < j -> leads w' !! j = leads w !! j)
    /\ match budget_of bad with
       | Raise e' => e = e' /\ leads w' !! length pre = Some bad
       | Ok _ =>
           (e = ValueError \/ e = FileNotFoundError \/ e = NotADirectoryError)
           /\ exists bad', leads w' !! length pre = Some bad' /\ qualified_from bad bad' t
       end.
Proof.
  intros Hl Hb Hbad.
  destruct (auto_qualify_each_raises env t pre post bad 0 w Hb Hbad)
    as (e & w' & Hrun & Hdoc & _ & _ & Hhigh & Hmid & Hm).
  { rewrite Hl, length_app. simpl. lia. }
  exists e, w'. split; [|split; [exact Hdoc|split; [|split]]].
  - unfold auto_qualify_all_clicked.
    match goal with
    | |- context [bind (gets leads) ?k w] =>
        change (bind (gets leads) k w) with (k (leads w) w)
    end.
    cbv beta. unfold bind at 1. rewrite Hl, Hrun. reflexivity.
  - intros j x Hx. apply (Hmid j x Hx).
  - intros j Hj. apply Hhigh. simpl. exact Hj.
  - cbn [Nat.add] in Hm. destruct (budget_of bad); [exact Hm|].
    destruct Hm as (-> & Hm). split; [reflexivity|].
    rewrite Hm, Hl. now apply list_lookup_middle.
Qed.

Lemma auto_qualify_all_clicked_stops_witness :
  leads (Demo.world [Demo.jane_again; Demo.slashed; Demo.ann])
  = [Demo.jane_again] ++ Demo.slashed :: [Demo.ann]
  /\ forallb (qualifies_ok (PyFloat.of_Z 10000)) [Demo.jane_again] = true
  /\ qualifies_ok (PyFloat.of_Z 10000) Demo.slashed = false
  /\ exists e w',
       auto_qualify_all_clicked Demo.env (PyFloat.of_Z 10000)
         (Demo.world [Demo.jane_again; Demo.slashed; Demo.ann])
       = (Raise e, w')
       /\ leads_json w' = leads_json (Demo.world [Demo.jane_again; Demo.slashed; Demo.ann])
       /\ (forall j x, [Demo.jane_again] !! j = Some x ->
             exists x', leads w' !! j = Some x' /\ qualified_from x x' (PyFloat.of_Z 10000))
       /\ (forall j, length [Demo.jane_again] < j ->
             leads w' !! j
             = leads (Demo.world [Demo.jane_again; Demo.slashed; Demo.ann]) !! j)
       /\ match budget_of Demo.slashed with
          | Raise e' => e = e' /\ leads w' !! length [Demo.jane_again] = Some Demo.slashed
          | Ok _ =>
              (e = ValueError \/ e = FileNotFoundError \/ e = NotADirectoryError)
              /\ exists bad', leads w' !! length [Demo.jane_again] = Some bad'
                              /\ qualified_from Demo.slashed bad' (PyFloat.of_Z 10000)
          end.
Proof.
  split; [reflexivity|]. split; [reflexivity|]. split; [reflexivity|].
  exact (auto_qualify_all_clicked_stops Demo.env (PyFloat.of_Z 10000)
           (Demo.world [Demo.jane_again; Demo.slashed; Demo.ann])
           [Demo.jane_again] [Demo.ann] Demo.slashed eq_refl eq_refl eq_refl).
Defined.

(** X11.  A qualification that returns can be repeated: [auto_qualify]
    leaves the budget and the e-mail as they are, so a second run on
    the record it returned, with the same threshold, returns too and
    gives the same status.  The second run stamps LastActionAt
    anew. *)
Theorem auto_qualify_twice (env : Env) (i : nat) (lead : dict) (t b : PyFloat.float)
    (w : World) :
  budget_of lead = Ok b -> qualifies_ok t lead = true ->
  exists lead1 w1 lead2 w2 s,
    auto_qualify env i lead t w = (Ok (lead1, s), w1)
    /\ auto_qualify env i lead1 t w1 = (Ok (lead2, s), w2)
    /\ Dict.get lead1 "Status" = VStr s /\ Dict.get lead2 "Status" = VStr s
    /\ s = (if PyFloat.ge b t then "Qualified" else "Unqualified")
    /\ Dict.get lead2 "LastActionAt" = VStr (utc_iso env (clock_reads w1)).
Proof.
  intros Hb Hq.
  assert (forall x w0, budget_of x = Ok b -> qualifies_ok t x = true ->
            exists x' w',
              auto_qualify env i x t w0
              = (Ok (x', if PyFloat.ge b t then "Qualified" else "Unqualified"), w')
              /\ Dict.get x' "Status"
                 = VStr (if PyFloat.ge b t then "Qualified" else "Unqualified")
              /\ Dict.get x' "LastActionAt" = VStr (utc_iso env (clock_reads w0))
              /\ budget_of x' = Ok b /\ qualifies_ok t x' = true) as Hstep.
  { intros x w0 Hbx Hqx.
    destruct (auto_qualify_outcome env i x t b w0 Hbx)
      as (r & w' & Hrun & _ & _ & _ & _ & _ & _ & Hif).
    assert (PyFloat.ge b t && negb (email_fits x) = false) as Hno.
    { unfold qualifies_ok in Hqx. rewrite Hbx in Hqx.
      destruct (PyFloat.ge b t), (email_fits x); cbn in *; congruence. }
    rewrite Hno in Hif. destruct Hif as (-> & _).
    eexists. exists w'. split; [exact Hrun|].
    split; [rewrite get_setitem_ne by discriminate; apply get_setitem_eq|].
    split; [apply get_setitem_eq|].
    split; [now rewrite !budget_of_setitem by discriminate|].
    unfold qualifies_ok in *. rewrite !budget_of_setitem by discriminate.
    rewrite Hbx in *. now rewrite !email_fits_setitem by discriminate. }
  destruct (Hstep lead w Hb Hq) as (lead1 & w1 & Hrun1 & Hs1 & _ & Hb1 & Hq1).
  destruct (Hstep lead1 w1 Hb1 Hq1) as (lead2 & w2 & Hrun2 & Hs2 & Ht2 & _).
  exists lead1, w1, lead2, w2, (if PyFloat.ge b t then "Qualified" else "Unqualified").
  repeat (split; [assumption|]). split; [reflexivity|exact Ht2].
Qed.

Lemma auto_qualify_twice_witness :
  budget_of Demo.jane = Ok (PyFloat.of_Z 15000)
  /\ qualifies_ok (PyFloat.of_Z 10000) Demo.jane = true
  /\ exists lead1 w1 lead2 w2 s,
       auto_qualify Demo.env 0 Demo.jane (PyFloat.of_Z 10000) (Demo.world [Demo.jane])
       = (Ok (lead1, s), w1)
       /\ auto_qualify Demo.env 0 lead1 (PyFloat.of_Z 10000) w1 = (Ok (lead2, s), w2)
       /\ Dict.get lead1 "Status" = VStr s /\ Dict.get lead2 "Status" = VStr s
       /\ s = (if PyFloat.ge (PyFloat.of_Z 15000) (PyFloat.of_Z 10000)
               then "Qualified" else "Unqualified")
       /\ Dict.get lead2 "LastActionAt" = VStr (utc_iso Demo.env (clock_reads w1)).
Proof.
  split; [reflexivity|]. split; [reflexivity|].
  exact (auto_qualify_twice Demo.env 0 Demo.jane (PyFloat.of_Z 10000) (PyFloat.of_Z 15000)
           (Demo.world [Demo.jane]) eq_refl eq_refl).
Defined.

(** ** The search of a lead by the e-mail typed *)

Lemma find_by_key_first (pre post : list dict) (x : dict) (k : string) (i : nat) :
  forallb (other_key k) pre = true -> email_key x = Ok k ->
  find_by_key (pre ++ x :: post) k i = Ok (Some (i + length pre)).
Proof.
  revert i. induction pre as [|y pre IH]; intros i Hpre Hx; simpl.
  - rewrite Hx. simpl. rewrite String.eqb_refl. now rewrite Nat.add_0_r.
  - simpl in Hpre. apply andb_true_iff in Hpre as [Hy Hpre]. unfold other_key in Hy.
    destruct (email_key y) as [a|]; [|discriminate]. simpl.
    destruct (String.eqb a k); [discriminate|].
    rewrite IH by assumption. do 2 f_equal. lia.
Qed.

Lemma find_by_key_none (l : list dict) (k : string) (i : nat) :
  forallb (other_key k) l = true -> find_by_key l k i = Ok None.
Proof.
  revert i. induction l as [|y l IH]; intros i Hl; simpl; [reflexivity|].
  simpl in Hl. apply andb_true_iff in Hl as [Hy Hl]. unfold other_key in Hy.
  destruct (email_key y) as [a|]; [|discriminate]. simpl.
  destruct (String.eqb a k); [discriminate|]. now apply IH.
Qed.

Lemma find_by_key_raises (pre post : list dict) (x : dict) (k : string) (e : exn) (i : nat) :
  forallb (other_key k) pre = true -> email_key x = Raise e ->
  find_by_key (pre ++ x :: post) k i = Raise e.
Proof.
  revert i. induction pre as [|y pre IH]; intros i Hpre Hx; simpl.
  - now rewrite Hx.
  - simpl in Hpre. apply andb_true_iff in Hpre as [Hy Hpre]. unfold other_key in Hy.
    destruct (email_key y) as [a|]; [|discriminate]. simpl.
    destruct (String.eqb a k); [discriminate|]. now apply IH.
Qed.

Lemma find_by_value_none (l : list dict) (v : value) (i : nat) :
  forallb (fun x => negb (Value.eqb (Dict.get x "Email") v)) l = true ->
  find_by_value l v i = None.
Proof.
  revert i. induction l as [|y l IH]; intros i Hl; simpl; [reflexivity|].
  simpl in Hl. apply andb_true_iff in Hl as [Hy Hl].
  destruct (Value.eqb (Dict.get y "Email") v); [discriminate|]. now apply IH.
Qed.

(** X12.  "Trigger Call" finds the first record whose e-mail is the one
    typed, letter case apart.  When that e-mail has neither a slash
    nor a NUL, it writes one call request for the record and one
    notification, saves the document, and leaves the collection, the
    e-mails and the proposals as they are: no field of the lead
    changes, not even LastActionAt. *)
Theorem trigger_call_clicked_found (env : Env) (target : string) (w : World)
    (pre post : list dict) (found : dict) :
  leads w = pre ++ found :: post ->
  forallb (other_key (Text.lower target)) pre = true ->
  email_key found = Ok (Text.lower target) -> Dict.truthy found = true ->
  email_fits found = true ->
  exists w',
    trigger_call_clicked env target w = (Ok tt, w')
    /\ leads w' = leads w
    /\ call_requests w'
       = <[cat ["call_"; Value.str (Dict.get_or found "Email" (VStr "unknown")); "_";
                local_stamp env (clock_reads w); ".json"]
           := Json.dumps (call_payload found)]> (call_requests w)
    /\ length (toasts w') = S (length (toasts w))
    /\ emails w' = emails w /\ proposals w' = proposals w
    /\ leads_json w' = Some (Json.dumps (Json.of_leads (leads w))).
Proof.
  intros Hl Hpre Hk Ht Hfit. unfold trigger_call_clicked.
  match goal with
  | |- context [bind (gets leads) ?k w] =>
      change (bind (gets leads) k w) with (k (leads w) w)
  end.
  cbv beta. unfold bind at 1. unfold lift. rewrite Hl.
  rewrite (find_by_key_first pre post found _ 0 Hpre Hk).
  cbn [Nat.add]. rewrite list_lookup_middle by reflexivity. rewrite Ht. cbn [negb].
  unfold trigger_local_call, now_stamp, notify, now_iso, save_leads, bind, gets, modify,
    ret, lift.
  cbn [call_requests with_clock_reads].
  rewrite write_text_fits by (now rewrite email_fits_or_unknown).
  eexists. split; [reflexivity|].
  cbn [leads call_requests toasts emails proposals leads_json with_leads_json
       with_call_requests with_notification with_clock_reads].
  rewrite Hl. repeat split. rewrite length_app. simpl. lia.
Qed.

Lemma trigger_call_clicked_found_witness :
  leads (Demo.world [Demo.ann; Demo.jane]) = [Demo.ann] ++ Demo.jane :: []
  /\ forallb (other_key (Text.lower "JANE@acme.com")) [Demo.ann] = true
  /\ email_key Demo.jane = Ok (Text.lower "JANE@acme.com")
  /\ Dict.truthy Demo.jane = true
  /\ email_fits Demo.jane = true
  /\ exists w',
       trigger_call_clicked Demo.env "JANE@acme.com" (Demo.world [Demo.ann; Demo.jane])
       = (Ok tt, w')
       /\ leads w' = leads (Demo.world [Demo.ann; Demo.jane])
       /\ call_requests w'
          = <[cat ["call_"; Value.str (Dict.get_or Demo.jane "Email" (VStr "unknown")); "_";
                   local_stamp Demo.env (clock_reads (Demo.world [Demo.ann; Demo.jane]));
                   ".json"]
              := Json.dumps (call_payload Demo.jane)]>
              (call_requests (Demo.world [Demo.ann; Demo.jane]))
       /\ length (toasts w') = S (length (toasts (Demo.world [Demo.ann; Demo.jane])))
       /\ emails w' = emails (Demo.world [Demo.ann; Demo.jane])
       /\ proposals w' = proposals (Demo.world [Demo.ann; Demo.jane])
       /\ leads_json w'
          = Some (Json.dumps (Json.of_leads (leads (Demo.world [Demo.ann; Demo.jane])))).
Proof.
  split; [reflexivity|]. split; [reflexivity|]. split; [reflexivity|]. split; [reflexivity|].
  split; [reflexivity|].
  exact (trigger_call_clicked_found Demo.env "JANE@acme.com" (Demo.world [Demo.ann; Demo.jane])
           [Demo.ann] [] Demo.jane eq_refl eq_refl eq_refl eq_refl eq_refl).
Defined.

(** X13.  A search that finds no lead changes nothing at all: for an
    e-mail that no record has, "Trigger Call" and "Generate & Save
    Proposal" return and leave the world as it is, and so does "Send
    Event" for a selection that equals the Email of no record. *)
Theorem lookup_failure_changes_nothing (env : Env) (w : World) :
  (forall em, forallb (other_key (Text.lower em)) (leads w) = true ->
     trigger_call_clicked env em w = (Ok tt, w)
     /\ generate_proposal_clicked env em w = (Ok tt, w))
  /\ (forall em event_type transcript,
        forallb (fun x => negb (Value.eqb (Dict.get x "Email") em)) (leads w) = true ->
        send_event_clicked env em event_type transcript w = (Ok tt, w)).
Proof.
  split.
  - intros em H. split.
    + unfold trigger_call_clicked.
      match goal with
      | |- context [bind (gets leads) ?k w] =>
          change (bind (gets leads) k w) with (k (leads w) w)
      end.
      cbv beta. unfold bind at 1. unfold lift.
      now rewrite (find_by_key_none _ _ 0 H).
    + unfold generate_proposal_clicked.
      match goal with
      | |- context [bind (gets leads) ?k w] =>
          change (bind (gets leads) k w) with (k (leads w) w)
      end.
      cbv beta. unfold bind at 1. unfold lift.
      now rewrite (find_by_key_none _ _ 0 H).
  - intros em event_type transcript H. unfold send_event_clicked.
    destruct (Value.eqb em (VStr "-")); [reflexivity|].
    match goal with
    | |- context [bind (gets leads) ?k w] =>
        change (bind (gets leads) k w) with (k (leads w) w)
    end.
    cbv beta. now rewrite (find_by_value_none _ _ 0 H).
Qed.

Lemma lookup_failure_changes_nothing_witness :
  forallb (other_key (Text.lower "bob@nowhere.example")) (leads (Demo.world [Demo.ann; Demo.jane]))
  = true
  /\ trigger_call_clicked Demo.env "bob@nowhere.example" (Demo.world [Demo.ann; Demo.jane])
     = (Ok tt, Demo.world [Demo.ann; Demo.jane])
  /\ generate_proposal_clicked Demo.env "bob@nowhere.example" (Demo.world [Demo.ann; Demo.jane])
     = (Ok tt, Demo.world [Demo.ann; Demo.jane]).
Proof.
  split; [reflexivity|].
  exact (proj1 (lookup_failure_changes_nothing Demo.env (Demo.world [Demo.ann; Demo.jane]))
           "bob@nowhere.example" eq_refl).
Defined.

(** X14.  A record whose Email is neither a text nor falsy stops every
    search by e-mail that reaches it: "Trigger Call" and "Generate &
    Save Proposal" raise the exception of its [lower] and change
    nothing, also when a record after it has the e-mail typed. *)
Theorem lookup_raises_on_bad_email (env : Env) (em : string) (w : World)
    (pre post : list dict) (bad : dict) (e : exn) :
  leads w = pre ++ bad :: post ->
  forallb (other_key (Text.lower em)) pre = true -> email_key bad = Raise e ->
  trigger_call_clicked env em w = (Raise e, w)
  /\ generate_proposal_clicked env em w = (Raise e, w).
Proof.
  intros Hl Hpre Hbad. split.
  - unfold trigger_call_clicked.
    match goal with
    | |- context [bind (gets leads) ?k w] =>
        change (bind (gets leads) k w) with (k (leads w) w)
    end.
    cbv beta. unfold bind at 1. unfold lift. rewrite Hl.
    now rewrite (find_by_key_raises pre post bad _ e 0 Hpre Hbad).
  - unfold generate_proposal_clicked.
    match goal with
    | |- context [bind (gets leads) ?k w] =>
        change (bind (gets leads) k w) with (k (leads w) w)
    end.
    cbv beta. unfold bind at 1. unfold lift. rewrite Hl.
    now rewrite (find_by_key_raises pre post bad _ e 0 Hpre Hbad).
Qed.

Lemma lookup_raises_on_bad_email_witness :
  leads (Demo.world [Demo.ann; [("Name", VStr "Numbered"); ("Email", VInt 7)]; Demo.jane])
  = [Demo.ann] ++ [("Name", VStr "Numbered"); ("Email", VInt 7)] :: [Demo.jane]
  /\ forallb (other_key (Text.lower "jane@acme.com")) [Demo.ann] = true
  /\ email_key [("Name", VStr "Numbered"); ("Email", VInt 7)] = Raise AttributeError
  /\ trigger_call_clicked Demo.env "jane@acme.com"
       (Demo.world [Demo.ann; [("Name", VStr "Numbered"); ("Email", VInt 7)]; Demo.jane])
     = (Raise AttributeError,
        Demo.world [Demo.ann; [("Name", VStr "Numbered"); ("Email", VInt 7)]; Demo.jane])
  /\ generate_proposal_clicked Demo.env "jane@acme.com"
       (Demo.world [Demo.ann; [("Name", VStr "Numbered"); ("Email", VInt 7)]; Demo.jane])
     = (Raise AttributeError,
        Demo.world [Demo.ann; [("Name", VStr "Numbered"); ("Email", VInt 7)]; Demo.jane]).
Proof.
  split; [reflexivity|]. split; [reflexivity|]. split; [reflexivity|].
  exact (lookup_raises_on_bad_email Demo.env "jane@acme.com"
           (Demo.world [Demo.ann; [("Name", VStr "Numbered"); ("Email", VInt 7)]; Demo.jane])
           [Demo.ann] [Demo.jane] [("Name", VStr "Numbered"); ("Email", VInt 7)]
           AttributeError eq_refl eq_refl eq_refl).
Defined.
(** ** The Calls tab *)

(** X26.  "Trigger Simulated Call" for a selection that is the Email of
    a record, when that e-mail has neither a slash nor a NUL: the
    block writes one call request for the first such record and one
    notification, and returns.  It does not save: the leads, the
    document, the e-mails and the proposals are as they were. *)
Theorem trigger_simulated_call_clicked_found (env : Env) (sel : value) (w : World)
    (i : nat) (lead : dict) :
  Value.truthy sel = true -> Value.eqb sel (VStr "-") = false ->
  find_by_value (leads w) sel 0 = Some i -> leads w !! i = Some lead ->
  email_fits lead = true ->
  exists w',
    trigger_simulated_call_clicked env sel w = (Ok tt, w')
    /\ call_requests w'
       = <[cat ["call_"; Value.str (Dict.get_or lead "Email" (VStr "unknown")); "_";
                local_stamp env (clock_reads w); ".json"]
           := Json.dumps (call_payload lead)]> (call_requests w)
    /\ length (toasts w') = S (length (toasts w))
    /\ leads w' = leads w /\ leads_json w' = leads_json w
    /\ emails w' = emails w /\ proposals w' = proposals w.
Proof.
  intros Ht Hd Hfind Hi Hfit. unfold trigger_simulated_call_clicked.
  rewrite Ht, Hd. cbn [negb andb].
  match goal with
  | |- context [bind (gets leads) ?k w] =>
      change (bind (gets leads) k w) with (k (leads w) w)
  end.
  cbv beta. rewrite Hfind, Hi.
  destruct (trigger_local_call_outcome env lead w)
    as (r & w' & Hrun & Hl & Hj & He & Hp & _ & _ & Hif).
  rewrite Hfit in Hif. destruct Hif as (-> & Hc & Hto & _).
  unfold bind. rewrite Hrun. unfold ret. exists w'. split; [reflexivity|].
  split; [exact Hc|]. split; [rewrite Hto, length_app; simpl; lia|].
  auto.
Qed.

Lemma trigger_simulated_call_clicked_found_witness :
  Value.truthy (VStr "jane@acme.com") = true
  /\ Value.eqb (VStr "jane@acme.com") (VStr "-") = false
  /\ find_by_value (leads (Demo.world [Demo.ann; Demo.jane])) (VStr "jane@acme.com") 0 = Some 1
  /\ leads (Demo.world [Demo.ann; Demo.jane]) !! 1 = Some Demo.jane
  /\ email_fits Demo.jane = true
  /\ exists w',
       trigger_simulated_call_clicked Demo.env (VStr "jane@acme.com")
         (Demo.world [Demo.ann; Demo.jane]) = (Ok tt, w')
       /\ call_requests w'
          = <[cat ["call_"; Value.str (Dict.get_or Demo.jane "Email" (VStr "unknown")); "_";
                   local_stamp Demo.env (clock_reads (Demo.world [Demo.ann; Demo.jane]));
                   ".json"]
              := Json.dumps (call_payload Demo.jane)]>
              (call_requests (Demo.world [Demo.ann; Demo.jane]))
       /\ length (toasts w') = S (length (toasts (Demo.world [Demo.ann; Demo.jane])))
       /\ leads w' = leads (Demo.world [Demo.ann; Demo.jane])
       /\ leads_json w' = leads_json (Demo.world [Demo.ann; Demo.jane])
       /\ emails w' = emails (Demo.world [Demo.ann; Demo.jane])
       /\ proposals w' = proposals (Demo.world [Demo.ann; Demo.jane]).
Proof.
  split; [reflexivity|]. split; [reflexivity|]. split; [reflexivity|].
  split; [reflexivity|]. split; [reflexivity|].
  exact (trigger_simulated_call_clicked_found Demo.env (VStr "jane@acme.com")
           (Demo.world [Demo.ann; Demo.jane]) 1 Demo.jane
           eq_refl eq_refl eq_refl eq_refl eq_refl).
Defined.

(** X27.  The search of the Calls tab has no default: with a selection
    other than "-" that is true and equals the Email of no record,
    the block raises StopIteration at the search and changes nothing.
    The Email of a record that is a NaN is such a selection: a NaN
    does not equal itself. *)
Theorem trigger_simulated_call_clicked_raises (env : Env) (sel : value) (w : World) :
  Value.truthy sel = true -> Value.eqb sel (VStr "-") = false ->
  forallb (fun x => negb (Value.eqb (Dict.get x "Email") sel)) (leads w) = true ->
  trigger_simulated_call_clicked env sel w = (Raise StopIteration, w).
Proof.
  intros Ht Hd Hnone. unfold trigger_simulated_call_clicked.
  rewrite Ht, Hd. cbn [negb andb].
  match goal with
  | |- context [bind (gets leads) ?k w] =>
      change (bind (gets leads) k w) with (k (leads w) w)
  end.
  cbv beta. now rewrite (find_by_value_none _ _ 0 Hnone).
Qed.

Lemma trigger_simulated_call_clicked_raises_witness :
  Value.truthy (VFloat S754_nan) = true
  /\ Value.eqb (VFloat S754_nan) (VStr "-") = false
  /\ forallb (fun x => negb (Value.eqb (Dict.get x "Email") (VFloat S754_nan)))
       (leads (Demo.world [Demo.ann; [("Name", VStr "Nameless"); ("Email", VFloat S754_nan)]]))
     = true
  /\ trigger_simulated_call_clicked Demo.env (VFloat S754_nan)
       (Demo.world [Demo.ann; [("Name", VStr "Nameless"); ("Email", VFloat S754_nan)]])
     = (Raise StopIteration,
        Demo.world [Demo.ann; [("Name", VStr "Nameless"); ("Email", VFloat S754_nan)]]).
Proof.
  split; [reflexivity|]. split; [reflexivity|]. split; [reflexivity|].
  exact (trigger_simulated_call_clicked_raises Demo.env (VFloat S754_nan)
           (Demo.world [Demo.ann; [("Name", VStr "Nameless"); ("Email", VFloat S754_nan)]])
           eq_refl eq_refl eq_refl).
Defined.

(** ** The names of the files of the outbox *)

Lemma all_chars_filter (p : ascii -> bool) (s : string) :
  all_chars p (Text.filter p s) = true.
Proof.
  induction s as [|c s IH]; simpl; [reflexivity|].
  destruct (p c) eqn:E; simpl; [now rewrite E|exact IH].
Qed.

Lemma all_chars_lstrip (p : ascii -> bool) (s : string) :
  all_chars p s = true -> all_chars p (Text.lstrip s) = true.
Proof.
  induction s as [|c s IH]; simpl; [reflexivity|].
  intros H. destruct (Text.isspace c); [|exact H].
  apply andb_true_iff in H as [_ H]. now apply IH.
Qed.

Lemma all_chars_rstrip (p : ascii -> bool) (s : string) :
  all_chars p s = true -> all_chars p (Text.rstrip s) = true.
Proof.
  induction s as [|c s IH]; simpl; [reflexivity|].
  intros H. apply andb_true_iff in H as [Hc H]. specialize (IH H).
  destruct (Text.rstrip s) as [|d r].
  - destruct (Text.isspace c); simpl; [reflexivity|now rewrite Hc].
  - simpl. rewrite Hc. exact IH.
Qed.

Lemma all_chars_strip (p : ascii -> bool) (s : string) :
  all_chars p s = true -> all_chars p (Text.strip s) = true.
Proof. intros H. unfold Text.strip. now apply all_chars_rstrip, all_chars_lstrip. Qed.


Lemma has_code_eq (n : N) (c : ascii) :
  Text.has_code n c = true -> c = ascii_of_N n.
Proof.
  unfold Text.has_code, Text.code. intros H. apply N.eqb_eq in H.
  rewrite <- H. symmetry. apply ascii_N_embedding.
Qed.

(** A space of the slug becomes an underscore: no space is left. *)
Lemma all_chars_replace_space (s : string) :
  all_chars slug_char s = true ->
  all_chars name_char (Text.replace_char " " "_" s) = true.
Proof.
  induction s as [|c s IH]; simpl; [reflexivity|].
  intros H. apply andb_true_iff in H as [Hc H]. rewrite (IH H), andb_true_r.
  destruct (Ascii.eqb c " ") eqn:E; [reflexivity|].
  unfold slug_char in Hc. unfold name_char.
  destruct (Text.has_code 32 c) eqn:E32.
  - apply has_code_eq in E32. subst c. discriminate.
  - now rewrite orb_false_r in Hc.
Qed.




(** X15.  [save_proposal] for a company that is a text, or falsy: it
    returns the path of the file it writes under the proposals.  The
    name of the file is a slug, an underscore, the stamp of the clock
    and [.md]; the slug is never empty and holds nothing but
    alphanumerics, underscores and dashes (so no space, dot or
    slash), whatever the company is called.  The file holds the
    content, and nothing else changes but the clock. *)
Theorem save_proposal_file (env : Env) (company : value) (content s : string) (w : World) :
  chars_of (Value.por company (VStr "proposal")) = Ok s ->
  exists slug,
    save_proposal env company content w
    = (Ok (path_in (PROPOSALS_DIR env)
             (cat [slug; "_"; local_stamp env (clock_reads w); ".md"])),
       with_proposals
         (<[cat [slug; "_"; local_stamp env (clock_reads w); ".md"] := content]> (proposals w))
         (with_clock_reads (S (clock_reads w)) w))
    /\ slug <> EmptyString
    /\ all_chars name_char slug = true.
Proof.
  intros Hs. unfold save_proposal. unfold bind at 1. unfold lift. rewrite Hs.
  set (safe := Text.replace_char " " "_" (Text.strip (Text.filter slug_char s))).
  assert (all_chars name_char safe = true) as Hsafe.
  { unfold safe. apply all_chars_replace_space, all_chars_strip, all_chars_filter. }
  exists (match safe with EmptyString => "proposal" | _ => safe end).
  split; [reflexivity|].
  destruct safe as [|c r]; [split; [discriminate|reflexivity]|].
  split; [discriminate|exact Hsafe].
Qed.

Lemma save_proposal_file_witness :
  chars_of (Value.por (VStr " Acme & Sons / Ltd. ") (VStr "proposal")) = Ok " Acme & Sons / Ltd. "
  /\ exists slug,
       save_proposal Demo.env (VStr " Acme & Sons / Ltd. ") "text" (Demo.world [])
       = (Ok (path_in (PROPOSALS_DIR Demo.env)
                (cat [slug; "_"; local_stamp Demo.env (clock_reads (Demo.world [])); ".md"])),
          with_proposals
            (<[cat [slug; "_"; local_stamp Demo.env (clock_reads (Demo.world [])); ".md"]
               := "text"]> (proposals (Demo.world [])))
            (with_clock_reads (S (clock_reads (Demo.world []))) (Demo.world [])))
       /\ slug <> EmptyString
       /\ all_chars name_char slug = true.
Proof.
  split; [reflexivity|].
  exact (save_proposal_file Demo.env (VStr " Acme & Sons / Ltd. ") "text" " Acme & Sons / Ltd. "
           (Demo.world []) eq_refl).
Defined.

Lemma concat_body (a b h : string) (extra : list string) :
  String.concat nl ([a; b; EmptyString; h; EmptyString] ++ extra)
  = (cat [a; nl; b; nl; nl; h; nl]
     +:+ match extra with
         | [] => EmptyString
         | _ => nl +:+ String.concat nl extra
         end)%string.
Proof.
  destruct extra as [|x extra]; cbn [app String.concat cat];
    rewrite ?append_nil_l, ?append_nil_r, ?append_assoc; reflexivity.
Qed.




(** ** Writes that fail *)

(** X28.  A webhook event for an unanswered call, delivered to a record
    whose e-mail has a slash or a NUL: the event raises at the write
    of the follow-up.  By then the record is marked in the session,
    with Status "No Answer" and the note; it is not stamped, since
    its LastActionAt is as before, and nothing is saved: the document
    is as it was, no e-mail is written and no notification made. *)
Theorem send_event_no_answer_write_fails (env : Env) (em : value)
    (event_type transcript : string) (w : World) (i : nat) (lead : dict) :
  delivered_to w em i lead ->
  In event_type no_answer_events ->
  email_fits lead = false ->
  exists e w' lead',
    send_event_clicked env em event_type transcript w = (Raise e, w')
    /\ (e = ValueError \/ e = FileNotFoundError \/ e = NotADirectoryError)
    /\ leads w' = <[i := lead']> (leads w)
    /\ Dict.get lead' "Status" = VStr "No Answer"
    /\ Dict.get lead' "Notes" = VStr no_pickup_note
    /\ Dict.get lead' "LastActionAt" = Dict.get lead "LastActionAt"
    /\ leads_json w' = leads_json w
    /\ emails w' = emails w /\ proposals w' = proposals w
    /\ toasts w' = toasts w /\ notif_log w' = notif_log w.
Proof.
  intros Hdel Hev Hfit. apply existsb_eqb_In in Hev.
  rewrite (send_event_clicked_delivered env em event_type _ w i lead Hdel), Hev.
  destruct (on_no_answer_outcome env i lead w)
    as (r & w1 & Hrun & Hl & Hj & Hp & Hc & Hm & Hif).
  rewrite Hfit in Hif. destruct Hif as ((e & -> & He) & Hem & Ht & Hn).
  unfold bind at 1. rewrite Hrun.
  exists e, w1. eexists. split; [reflexivity|]. split; [exact He|].
  split; [exact Hl|].
  split; [now rewrite !get_setitem_ne by discriminate; rewrite get_setitem_eq|].
  split; [apply get_setitem_eq|].
  split; [now rewrite !get_setitem_ne by discriminate|].
  auto.
Qed.

Lemma send_event_no_answer_write_fails_witness :
  delivered_to (Demo.world [Demo.slashed]) (VStr "a/b@c.com") 0 Demo.slashed
  /\ In "call.unanswered" no_answer_events
  /\ email_fits Demo.slashed = false
  /\ exists e w' lead',
       send_event_clicked Demo.env (VStr "a/b@c.com") "call.unanswered" "No pickup."
         (Demo.world [Demo.slashed]) = (Raise e, w')
       /\ (e = ValueError \/ e = FileNotFoundError \/ e = NotADirectoryError)
       /\ leads w' = <[0 := lead']> (leads (Demo.world [Demo.slashed]))
       /\ Dict.get lead' "Status" = VStr "No Answer"
       /\ leads_json w' = leads_json (Demo.world [Demo.slashed])
       /\ emails w' = emails (Demo.world [Demo.slashed]).
Proof.
  assert (delivered_to (Demo.world [Demo.slashed]) (VStr "a/b@c.com") 0 Demo.slashed) as Hdel
    by (repeat split; reflexivity).
  assert (In "call.unanswered" no_answer_events) as Hev by (right; left; reflexivity).
  split; [exact Hdel|]. split; [exact Hev|]. split; [reflexivity|].
  destruct (send_event_no_answer_write_fails Demo.env (VStr "a/b@c.com") "call.unanswered"
              "No pickup." (Demo.world [Demo.slashed]) 0 Demo.slashed Hdel Hev eq_refl)
    as (e & w' & lead' & Hrun & He & Hl & Hs & _ & _ & Hj & Hem & _).
  exists e, w', lead'. repeat (split; [assumption|]). exact Hem.
Defined.

(** ** The Leads tab *)

(** X17.  "Generate & Save Proposal" for the e-mail of a lead, letter
    case apart, whose company can name a file and whose e-mail has
    neither a slash nor a NUL: the block returns; the record gets the
    Status "Proposal Sent" and, as ProposalPath, the path of the
    proposal file written, and keeps its other fields (LastActionAt
    too); one e-mail is written, whose text names that path; the
    other records are untouched and the document is saved. *)
Theorem generate_proposal_clicked_found (env : Env) (em : string) (w : World)
    (pre post : list dict) (lead : dict) :
  leads w = pre ++ lead :: post ->
  forallb (other_key (Text.lower em)) pre = true ->
  email_key lead = Ok (Text.lower em) -> Dict.truthy lead = true ->
  company_ok lead = true -> email_fits lead = true ->
  exists w' md pname ename body lead',
    generate_proposal_clicked env em w = (Ok tt, w')
    /\ leads w' = pre ++ lead' :: post
    /\ Dict.get lead' "Status" = VStr "Proposal Sent"
    /\ Dict.get lead' "ProposalPath" = VStr (path_in (PROPOSALS_DIR env) pname)
    /\ (forall k, k <> "Status" -> k <> "ProposalPath" ->
          Dict.lookup lead' k = Dict.lookup lead k)
    /\ proposals w' = <[pname := md]> (proposals w)
    /\ emails w' = <[ename := body]> (emails w)
    /\ Text.contains (path_in (PROPOSALS_DIR env) pname) body = true
    /\ call_requests w' = call_requests w
    /\ leads_json w' = Some (Json.dumps (Json.of_leads (leads w'))).
Proof.
  intros Hl Hpre Hk Ht Hco Hfit. unfold generate_proposal_clicked.
  match goal with
  | |- context [bind (gets leads) ?k w] =>
      change (bind (gets leads) k w) with (k (leads w) w)
  end.
  cbv beta. unfold bind at 1. unfold lift. rewrite Hl.
  rewrite (find_by_key_first pre post lead _ 0 Hpre Hk).
  cbn [Nat.add]. rewrite list_lookup_middle by reflexivity. rewrite Ht. cbn [negb].
  unfold bind at 1. unfold gets at 1. unfold bind at 1.
  destruct (generate_proposal_md_returns env lead (settings w) w)
    as (md & w1 & Hg & Hl1 & _ & He1 & Hp1 & Hc1 & _). rewrite Hg.
  unfold save_proposal. unfold bind at 1. unfold bind at 1. unfold lift.
  unfold company_ok in Hco.
  destruct (chars_of (Value.por (Dict.get lead "Company") (VStr "proposal"))) as [s|];
    [|discriminate].
  unfold save_email, notify, now_stamp, now_iso, set_lead, save_leads, bind, gets,
    modify, ret, lift.
  cbn [leads emails proposals call_requests leads_json with_leads with_emails
       with_proposals with_notification with_clock_reads with_leads_json fst snd].
  rewrite write_text_fits by (now rewrite !get_setitem_ne by discriminate).
  eexists. eexists. eexists. eexists. eexists. eexists.
  split; [reflexivity|].
  cbn [leads emails proposals call_requests leads_json with_leads with_emails
       with_proposals with_notification with_clock_reads with_leads_json].
  rewrite Hl1, Hp1, He1, Hc1, Hl.
  split; [|split; [|split; [|split; [|split; [|split; [|split; [|split]]]]]]].
  - rewrite <- (Nat.add_0_r (length pre)). rewrite insert_app_r. reflexivity.
  - apply get_setitem_eq.
  - rewrite get_setitem_ne by discriminate. apply get_setitem_eq.
  - intros k Hk1 Hk2. now rewrite !lookup_setitem_ne by congruence.
  - reflexivity.
  - reflexivity.
  - rewrite concat_body. apply contains_app_r.
    cbn [String.concat cat fst snd]. do 6 apply contains_app_r. apply contains_prefix.
  - reflexivity.
  - reflexivity.
Qed.

Lemma generate_proposal_clicked_found_witness :
  leads (Demo.world [Demo.ann; Demo.jane]) = [Demo.ann] ++ Demo.jane :: []
  /\ forallb (other_key (Text.lower "Jane@ACME.com")) [Demo.ann] = true
  /\ email_key Demo.jane = Ok (Text.lower "Jane@ACME.com")
  /\ Dict.truthy Demo.jane = true
  /\ company_ok Demo.jane = true
  /\ email_fits Demo.jane = true
  /\ exists w' md pname ename body lead',
       generate_proposal_clicked Demo.env "Jane@ACME.com" (Demo.world [Demo.ann; Demo.jane])
       = (Ok tt, w')
       /\ leads w' = [Demo.ann] ++ lead' :: []
       /\ Dict.get lead' "Status" = VStr "Proposal Sent"
       /\ Dict.get lead' "ProposalPath" = VStr (path_in (PROPOSALS_DIR Demo.env) pname)
       /\ (forall k, k <> "Status" -> k <> "ProposalPath" ->
             Dict.lookup lead' k = Dict.lookup Demo.jane k)
       /\ proposals w' = <[pname := md]> (proposals (Demo.world [Demo.ann; Demo.jane]))
       /\ emails w' = <[ename := body]> (emails (Demo.world [Demo.ann; Demo.jane]))
       /\ Text.contains (path_in (PROPOSALS_DIR Demo.env) pname) body = true
       /\ call_requests w' = call_requests (Demo.world [Demo.ann; Demo.jane])
       /\ leads_json w' = Some (Json.dumps (Json.of_leads (leads w'))).
Proof.
  split; [reflexivity|]. split; [reflexivity|]. split; [reflexivity|].
  split; [reflexivity|]. split; [reflexivity|]. split; [reflexivity|].
  exact (generate_proposal_clicked_found Demo.env "Jane@ACME.com"
           (Demo.world [Demo.ann; Demo.jane]) [Demo.ann] [] Demo.jane
           eq_refl eq_refl eq_refl eq_refl eq_refl eq_refl).
Defined.
Lemma budget_ok_float (x : dict) (b : PyFloat.float) :
  Dict.get x "Budget" = VFloat b -> budget_ok x = true.
Proof.
  intros H. unfold budget_ok, budget_of. rewrite H.
  destruct b; reflexivity.
Qed.

(** [upsert_lead] as a function of the outcome of the search. *)
Lemma upsert_lead_run (env : Env) (l : list dict) (lead : dict) (w : World) :
  upsert_lead env l lead w
  = match find_by_email l lead 0 with
    | Raise e => (Raise e, w)
    | Ok None =>
        (Ok (l ++ [with_defaults lead (utc_iso env (clock_reads w))]),
         with_clock_reads (S (clock_reads w)) w)
    | Ok (Some i) =>
        match l !! i with
        | None => (Ok l, with_clock_reads (S (clock_reads w)) w)
        | Some x =>
            (Ok (<[i := merged x (with_defaults lead (utc_iso env (clock_reads w)))
                           (utc_iso env (S (clock_reads w)))]> l),
             with_clock_reads (S (S (clock_reads w))) w)
        end
    end.
Proof.
  unfold upsert_lead, bind, lift, now_iso, ret.
  destruct (find_by_email l lead 0) as [[i|]|e]; [|reflexivity|reflexivity].
  destruct (l !! i); reflexivity.
Qed.

(** X18.  "Save Lead" with an e-mail, on a collection whose e-mail keys
    can be computed: the block returns, and the collection then has a
    record with the name, e-mail, company, use case, budget and phone
    of the form.  That record is new, with Status "New", when no
    record had the e-mail, and else it is the first record that had
    it, with Status "Updated".  Its budget can be read, so that a
    later qualification of it does not raise.  The other records are
    untouched and the document is saved. *)
Theorem save_lead_clicked_stores (env : Env) (name email company use_case phone : string)
    (budget : PyFloat.float) (w : World) :
  email <> EmptyString -> forallb email_ok (leads w) = true ->
  exists w' i x,
    save_lead_clicked env name email company use_case phone budget w = (Ok tt, w')
    /\ leads w' !! i = Some x
    /\ Dict.get x "Name" = VStr name /\ Dict.get x "Email" = VStr email
    /\ Dict.get x "Company" = VStr company /\ Dict.get x "UseCase" = VStr use_case
    /\ Dict.get x "Budget" = VFloat budget /\ Dict.get x "Phone" = VStr phone
    /\ Dict.get x "Status" = VStr (if Nat.ltb i (length (leads w)) then "Updated" else "New")
    /\ budget_ok x = true
    /\ (forall j, j <> i -> leads w' !! j = leads w !! j)
    /\ leads_json w' = Some (Json.dumps (Json.of_leads (leads w'))).
Proof.
  intros Hne Hl. destruct email as [|c email]; [contradiction|].
  set (t := utc_iso env (clock_reads w)).
  set (cand := form_lead name (String c email) company use_case phone budget t).
  assert (NoDup (Dict.keys cand)) as Hnd by (apply (bool_decide_unpack _); reflexivity).
  assert (forall t', with_defaults cand t' = cand) as Hwd by reflexivity.
  destruct (find_by_email_total (leads w) cand 0 Hl eq_refl) as [o Ho].
  unfold save_lead_clicked, bind, now_iso, gets.
  cbn [leads clock_reads with_clock_reads].
  fold t. fold (form_lead name (String c email) company use_case phone budget t). fold cand.
  rewrite upsert_lead_run. cbn [leads clock_reads with_clock_reads]. rewrite Ho, !Hwd.
  destruct o as [j|].
  - destruct (find_by_email_Some _ _ _ _ Ho) as [_ (x0 & Hx0 & _)].
    rewrite Nat.sub_0_r in Hx0. rewrite Hx0.
    unfold modify, save_leads.
    cbn [leads leads_json clock_reads with_clock_reads with_leads with_leads_json].
    set (x := merged x0 cand (utc_iso env (S (S (clock_reads w))))).
    assert (forall k v, k <> "Status" -> k <> "LastActionAt" ->
              Dict.lookup cand k = Some v -> Dict.get x k = v) as Hf.
    { intros k v H1 H2 H3. unfold Dict.get, Dict.get_or, x.
      now rewrite (lookup_merged x0 cand _ k v Hnd H1 H2 H3). }
    pose proof (lookup_lt_Some _ _ _ Hx0) as Hlt.
    eexists. exists j, x. split; [reflexivity|].
    cbn [leads leads_json clock_reads with_clock_reads with_leads with_leads_json].
    split; [now apply list_lookup_insert_eq|].
    split; [now apply Hf|]. split; [now apply Hf|]. split; [now apply Hf|].
    split; [now apply Hf|]. split; [now apply Hf|]. split; [now apply Hf|].
    split.
    { apply Nat.ltb_lt in Hlt. rewrite Hlt. unfold x.
      now rewrite (get_merged_status x0 cand _ (VStr "New") Hnd eq_refl). }
    split; [apply (budget_ok_float x budget); now apply Hf|].
    split; [|reflexivity].
    intros i Hi. now apply list_lookup_insert_ne.
  - unfold modify, save_leads.
    cbn [leads leads_json clock_reads with_clock_reads with_leads with_leads_json].
    eexists. exists (length (leads w)), cand. split; [reflexivity|].
    cbn [leads leads_json clock_reads with_clock_reads with_leads with_leads_json].
    split; [rewrite lookup_app_r by lia; now rewrite Nat.sub_diag|].
    do 6 (split; [reflexivity|]).
    split; [now rewrite Nat.ltb_irrefl|].
    split; [now apply (budget_ok_float cand budget)|].
    split; [|reflexivity].
    intros i Hi. destruct (Nat.lt_ge_cases i (length (leads w))) as [Hlt|Hge].
    + now rewrite lookup_app_l.
    + rewrite lookup_app_r by lia. rewrite (lookup_ge_None_2 (leads w) i) by lia.
      destruct (i - length (leads w)) as [|n] eqn:E; [lia|reflexivity].
Qed.

Lemma save_lead_clicked_stores_witness :
  "jane@ACME.com" <> EmptyString
  /\ forallb email_ok (leads (Demo.world [Demo.ann; Demo.jane])) = true
  /\ exists w' i x,
       save_lead_clicked Demo.env "Jane Doe" "jane@ACME.com" "Acme" "Invoices" "555-0100"
         (PyFloat.of_Z 20000) (Demo.world [Demo.ann; Demo.jane]) = (Ok tt, w')
       /\ leads w' !! i = Some x
       /\ Dict.get x "Name" = VStr "Jane Doe" /\ Dict.get x "Email" = VStr "jane@ACME.com"
       /\ Dict.get x "Company" = VStr "Acme" /\ Dict.get x "UseCase" = VStr "Invoices"
       /\ Dict.get x "Budget" = VFloat (PyFloat.of_Z 20000)
       /\ Dict.get x "Phone" = VStr "555-0100"
       /\ Dict.get x "Status"
          = VStr (if Nat.ltb i (length (leads (Demo.world [Demo.ann; Demo.jane])))
                  then "Updated" else "New")
       /\ budget_ok x = true
       /\ (forall j, j <> i -> leads w' !! j = leads (Demo.world [Demo.ann; Demo.jane]) !! j)
       /\ leads_json w' = Some (Json.dumps (Json.of_leads (leads w'))).
Proof.
  assert ("jane@ACME.com" <> EmptyString) as Hne by discriminate.
  split; [exact Hne|]. split; [reflexivity|].
  exact (save_lead_clicked_stores Demo.env "Jane Doe" "jane@ACME.com" "Acme" "Invoices"
           "555-0100" (PyFloat.of_Z 20000) (Demo.world [Demo.ann; Demo.jane]) Hne eq_refl).
Defined.

(** ** The import *)

Lemma import_row_step (env : Env) (row : csv_row) (w w' : World) (counted : bool) :
  import_row env row w = (Ok counted, w') ->
  counted = row_accepted row
  /\ length (leads w) <= length (leads w')
  /\ length (leads w') <= length (leads w) + (if counted then 1 else 0).
Proof.
  unfold import_row, row_accepted. unfold bind at 1. unfold lift at 1.
  destruct (normalize_row row) as [norm|]; [|discriminate].
  unfold bind at 1. unfold lift at 1.
  destruct (Value.to_float _) as [b|]; [|discriminate].
  unfold bind at 1. unfold now_iso at 1.
  destruct (Value.truthy (Value.por (Dict.get norm "email") (VStr ""))).
  - unfold bind at 1. unfold gets at 1. cbn [leads with_clock_reads].
    unfold bind at 1.
    destruct (upsert_lead env (leads w) _ _) as [[l'|e] w2] eqn:Hu; [|discriminate].
    unfold bind, modify, ret. intros [= <- <-]. cbn [leads with_leads].
    split; [reflexivity|].
    apply upsert_lead_cases in Hu as [[_ ->]|(i & x & _ & Hx & ->)].
    + rewrite length_app. simpl. lia.
    + rewrite length_insert. lia.
  - unfold ret. intros [= <- <-]. cbn [leads with_clock_reads]. split; [reflexivity|]. lia.
Qed.

Lemma import_rows_count (env : Env) (rows : list csv_row) (count n : nat) (w w' : World) :
  import_rows env rows count w = (Ok n, w') ->
  n = count + length (List.filter row_accepted rows)
  /\ length (leads w) <= length (leads w')
  /\ length (leads w') <= length (leads w) + length (List.filter row_accepted rows).
Proof.
  revert count w. induction rows as [|row rest IH]; intros count w; cbn [import_rows].
  - unfold ret. intros [= <- <-]. simpl. lia.
  - unfold bind at 1.
    destruct (import_row env row w) as [[c|e] w1] eqn:Hrow; [|discriminate].
    intros H. apply IH in H as (Hn & Hlo & Hhi).
    apply import_row_step in Hrow as (Hc & Hlo1 & Hhi1).
    cbn [List.filter]. rewrite <- Hc. destruct c; simpl in *; lia.
Qed.

(** X19.  When the import of a file returns, the number it reports is
    the number of rows that have an e-mail, not the number of new
    records: rows for a lead that exists, or for the same lead twice,
    are counted too.  No record is removed, at most one record is
    added per row counted, and the document is saved. *)
Theorem csv_uploaded_counts (env : Env) (rows : list csv_row) (n : nat) (w w' : World) :
  csv_uploaded env rows w = (Ok n, w') ->
  n = length (List.filter row_accepted rows)
  /\ length (leads w) <= length (leads w')
  /\ length (leads w') <= length (leads w) + n
  /\ leads_json w' = Some (Json.dumps (Json.of_leads (leads w'))).
Proof.
  unfold csv_uploaded. unfold bind at 1.
  destruct (import_rows env rows 0 w) as [[m|e] w1] eqn:Hrows; [|discriminate].
  unfold bind, gets, save_leads, modify, ret. intros [= <- <-].
  cbn [leads leads_json with_leads_json].
  apply import_rows_count in Hrows as (-> & Hlo & Hhi). simpl.
  repeat split; auto.
Qed.

Lemma csv_uploaded_counts_witness :
  exists n w',
    csv_uploaded Demo.env [Demo.row_no_budget; Demo.row_no_budget] (Demo.world [Demo.ann])
    = (Ok n, w')
    /\ n = length (List.filter row_accepted [Demo.row_no_budget; Demo.row_no_budget])
    /\ length (leads (Demo.world [Demo.ann])) <= length (leads w')
    /\ length (leads w') <= length (leads (Demo.world [Demo.ann])) + n
    /\ leads_json w' = Some (Json.dumps (Json.of_leads (leads w'))).
Proof.
  pose (r := csv_uploaded Demo.env [Demo.row_no_budget; Demo.row_no_budget]
               (Demo.world [Demo.ann])).
  exists (match fst r with Ok n => n | Raise _ => 0 end), (snd r).
  assert (csv_uploaded Demo.env [Demo.row_no_budget; Demo.row_no_budget] (Demo.world [Demo.ann])
          = (Ok (match fst r with Ok n => n | Raise _ => 0 end), snd r)) as H
    by (vm_compute; reflexivity).
  split; [exact H|].
  exact (csv_uploaded_counts Demo.env _ _ _ _ H).
Defined.
(** ** The notification log as the sidebar shows it *)

Lemma length_drop (n : nat) (s : string) :
  String.length (Text.drop n s) = String.length s - n.
Proof.
  revert s. induction n as [|n IH]; intros [|c s]; simpl; auto.
Qed.

(** X20.  "Open notifications log" shows the end of the log: the last
    4000 characters of a longer log, the whole log otherwise; an
    empty log gives the notice instead. *)
Theorem open_notifications_log_tail (w : World) :
  match open_notifications_log w with
  | None => notif_log w = EmptyString
  | Some shown =>
      exists hidden,
        notif_log w = (hidden +:+ shown)%string
        /\ String.length shown = Nat.min 4000 (String.length (notif_log w))
        /\ String.length hidden = String.length (notif_log w) - 4000
  end.
Proof.
  unfold open_notifications_log, last_chars.
  destruct (notif_log w) as [|c s] eqn:E; [reflexivity|].
  set (log := String c s). set (n := String.length log - Z.to_nat 4000).
  exists (Text.take n log). split; [apply take_drop|].
  rewrite length_drop, length_take. unfold n. lia.
Qed.

(** ** The keywords of the webhook *)

Lemma contains_longer (p q s : string) :
  Text.contains (p +:+ q) s = true -> Text.contains p s = true.
Proof.
  intros H. apply contains_spec in H as (a & b & ->).
  apply contains_spec. exists a, (q +:+ b)%string. now rewrite append_assoc.
Qed.

(** X21.  The phrase "yes proposal" decides nothing: a transcript that
    has it has "yes", so whether a proposal is wanted is decided by
    the other five phrases alone; and every transcript with "yes" in
    it, in whatever letter case and inside whatever word, asks for a
    proposal. *)
Theorem wants_proposal_five_phrases (transcript : string) :
  wants_proposal transcript
  = existsb (fun kw => Text.contains kw (Text.lower transcript))
      [ "send a proposal"; "email the proposal"; "want a proposal";
        "please send proposal"; "yes" ].
Proof.
  unfold wants_proposal, proposal_keywords. cbn [existsb].
  destruct (Text.contains "yes proposal" (Text.lower transcript)) eqn:E;
    [|now rewrite orb_false_l].
  apply (contains_longer "yes" " proposal") in E. rewrite E.
  now rewrite !orb_true_r.
Qed.

(** ** The budget of a record *)

(** X22.  [float(lead.get("Budget") or 0)] raises in two cases only: a
    ValueError for a budget that is a text, not empty, which is not
    the text of a number, and an OverflowError for a budget that is
    an integer too large for a float.  A budget that is missing,
    [None], empty, zero, a boolean or a float never makes the
    qualification raise. *)
Theorem budget_of_raises_only (lead : dict) (e : exn) :
  budget_of lead = Raise e ->
  (exists s, Dict.get lead "Budget" = VStr s /\ s <> EmptyString
             /\ PyFloat.of_str s = None /\ e = ValueError)
  \/ (exists z, Dict.get lead "Budget" = VInt z /\ e = OverflowError).
Proof.
  unfold budget_of, Value.por.
  destruct (Dict.get lead "Budget") as [|b|z|x|s] eqn:E; cbn [Value.truthy].
  - discriminate.
  - destruct b; discriminate.
  - destruct (negb (z =? 0)%Z).
    + cbn [Value.to_float]. intros H. right. exists z. split; [reflexivity|].
      destruct (PyFloat.of_Z z); congruence.
    + discriminate.
  - destruct x; discriminate.
  - destruct s as [|c s].
    + discriminate.
    + cbn [Value.to_float]. intros H. left. exists (String c s).
      destruct (PyFloat.of_str (String c s)); [discriminate|].
      repeat split; congruence.
Qed.

Lemma budget_of_raises_only_witness :
  budget_of Demo.scribbled = Raise ValueError
  /\ ((exists s, Dict.get Demo.scribbled "Budget" = VStr s /\ s <> EmptyString
                 /\ PyFloat.of_str s = None /\ ValueError = ValueError)
      \/ (exists z, Dict.get Demo.scribbled "Budget" = VInt z /\ ValueError = OverflowError)).
Proof.
  assert (budget_of Demo.scribbled = Raise ValueError) as H by (vm_compute; reflexivity).
  split; [exact H|].
  exact (budget_of_raises_only Demo.scribbled ValueError H).
Defined.

(** ** The proposal generator *)

(** X23.  [generate_proposal_md] always returns, whatever the backend
    does.  With a backend installed it calls the backend once: an
    answer is returned as it is and nothing is logged; an exception
    is logged in one notification and the template is returned.
    Without a backend the template is returned at once.  In no case
    is a lead, a file of the outbox, the document or a setting
    touched. *)
Theorem generate_proposal_md_outcomes (env : Env) (lead cfg : dict) (w : World) :
  exists md w',
    generate_proposal_md env lead cfg w = (Ok md, w')
    /\ leads w' = leads w /\ settings w' = settings w
    /\ emails w' = emails w /\ proposals w' = proposals w
    /\ call_requests w' = call_requests w /\ leads_json w' = leads_json w
    /\ llm_calls w' = (if LLM_AVAILABLE env then S (llm_calls w) else llm_calls w)
    /\ if LLM_AVAILABLE env
       then match ollama env (llm_calls w) (Dict.get_or cfg "OLLAMA_MODEL" (VStr "gemma3"))
                    (Dict.get cfg "OLLAMA_BASE_URL") (prompt_of lead) with
            | inr text => md = text /\ toasts w' = toasts w /\ notif_log w' = notif_log w
            | inl err =>
                md = fallback_template lead
                /\ toasts w' = toasts w ++ [("LLM unavailable, using template: " +:+ err)%string]
            end
       else md = fallback_template lead /\ toasts w' = toasts w
            /\ notif_log w' = notif_log w.
Proof.
  unfold generate_proposal_md.
  destruct (LLM_AVAILABLE env).
  - unfold bind, gets, modify, notify, now_iso, ret.
    cbn [llm_calls with_llm_calls].
    destruct (ollama env _ _ _ _); eexists; eexists; repeat split; reflexivity.
  - unfold ret. eexists; eexists; repeat split; reflexivity.
Qed.

(** ** The name of an attachment *)

Lemma contains_slash_no (s : string) :
  all_chars no_slash s = true -> Text.contains "/" s = false.
Proof.
  induction s as [|c s IH]; [reflexivity|].
  cbn [all_chars]. intros H. apply andb_true_iff in H as [Hc H].
  cbn [Text.contains Text.startswith]. rewrite (IH H), orb_false_r.
  destruct (Ascii.eqb "/" c) eqn:E; [|reflexivity].
  apply Ascii.eqb_eq in E. subst c. discriminate.
Qed.

Lemma basename_no_slash (s : string) :
  all_chars no_slash s = true -> Text.basename s = s.
Proof.
  intros H. destruct s as [|c s]; [reflexivity|].
  cbn [Text.basename]. now rewrite (contains_slash_no _ H).
Qed.

Lemma basename_path_in (dir name : string) :
  all_chars no_slash name = true -> Text.basename (path_in dir name) = name.
Proof.
  intros H. unfold path_in.
  induction dir as [|c dir IH].
  - change (EmptyString +:+ "/" +:+ name)%string with (String "/" name).
    cbn [Text.basename].
    replace (Text.contains "/" (String "/" name)) with true by reflexivity.
    now apply basename_no_slash.
  - change (String c dir +:+ "/" +:+ name)%string with (String c (dir +:+ "/" +:+ name)).
    cbn [Text.basename].
    assert (Text.contains "/" (String c (dir +:+ "/" +:+ name)) = true) as ->.
    { change (String c (dir +:+ "/" +:+ name)) with (String c dir +:+ "/" +:+ name)%string.
      apply contains_app_r, contains_prefix. }
    exact IH.
Qed.

Lemma all_chars_app (p : ascii -> bool) (a b : string) :
  all_chars p (a +:+ b) = all_chars p a && all_chars p b.
Proof.
  induction a as [|c a IH]; rewrite ?append_cons; simpl; [reflexivity|].
  now rewrite IH, andb_assoc.
Qed.

Lemma name_char_no_slash (s : string) :
  all_chars name_char s = true -> all_chars no_slash s = true.
Proof.
  induction s as [|c s IH]; simpl; [reflexivity|].
  intros H. apply andb_true_iff in H as [Hc H]. rewrite (IH H), andb_true_r.
  unfold no_slash. destruct (Text.has_code 47 c) eqn:E; [|reflexivity].
  apply has_code_eq in E. subst c. discriminate.
Qed.

(** X24.  The path that [save_proposal] returns ends in the name of
    the file written: with a stamp of the clock that has no slash, as
    the format of the stamp gives it, [os.path.basename] of the path
    is the key of the content among the proposals.  This is the file
    name that the e-mail lists for its attachment. *)
Theorem save_proposal_basename (env : Env) (company : value) (content : string)
    (w w' : World) (path : string) :
  all_chars no_slash (local_stamp env (clock_reads w)) = true ->
  save_proposal env company content w = (Ok path, w') ->
  proposals w' !! Text.basename path = Some content
  /\ path = path_in (PROPOSALS_DIR env) (Text.basename path).
Proof.
  intros Hts. unfold save_proposal. unfold bind at 1. unfold lift.
  destruct (chars_of (Value.por company (VStr "proposal"))) as [s|]; [|discriminate].
  set (safe := Text.replace_char " " "_" (Text.strip (Text.filter slug_char s))).
  assert (all_chars name_char safe = true) as Hsafe.
  { unfold safe. apply all_chars_replace_space, all_chars_strip, all_chars_filter. }
  set (slug := match safe with EmptyString => "proposal" | _ => safe end).
  assert (all_chars name_char slug = true) as Hslug.
  { unfold slug. destruct safe; [reflexivity|exact Hsafe]. }
  unfold now_stamp, bind, gets, modify, ret. intros [= <- <-].
  cbn [proposals with_proposals with_clock_reads].
  assert (all_chars no_slash (cat [slug; "_"; local_stamp env (clock_reads w); ".md"]) = true)
    as Hname.
  { cbn [cat]. rewrite !all_chars_app, Hts, (name_char_no_slash _ Hslug). reflexivity. }
  rewrite (basename_path_in _ _ Hname). split; [|reflexivity].
  apply lookup_insert_eq.
Qed.

Lemma save_proposal_basename_witness :
  all_chars no_slash (local_stamp Demo.env (clock_reads (Demo.world []))) = true
  /\ exists path w',
       save_proposal Demo.env (VStr "Acme / Sons") "text" (Demo.world []) = (Ok path, w')
       /\ proposals w' !! Text.basename path = Some "text"
       /\ path = path_in (PROPOSALS_DIR Demo.env) (Text.basename path).
Proof.
  split; [reflexivity|].
  pose (r := save_proposal Demo.env (VStr "Acme / Sons") "text" (Demo.world [])).
  exists (match fst r with Ok p => p | Raise _ => EmptyString end), (snd r).
  assert (save_proposal Demo.env (VStr "Acme / Sons") "text" (Demo.world [])
          = (Ok (match fst r with Ok p => p | Raise _ => EmptyString end), snd r)) as H
    by (vm_compute; reflexivity).
  split; [exact H|].
  exact (save_proposal_basename Demo.env (VStr "Acme / Sons") "text" (Demo.world []) _ _
           eq_refl H).
Defined.
(** ** One record per e-mail *)

Lemma map_insert {A B : Type} (f : A -> B) (l : list A) (i : nat) (y : A) :
  map f (<[i := y]> l) = <[i := f y]> (map f l).
Proof.
  revert i. induction l as [|a l IH]; intros [|i]; simpl; auto.
  f_equal. apply IH.
Qed.

Lemma map_lookup {A B : Type} (f : A -> B) (l : list A) (i : nat) (x : A) :
  l !! i = Some x -> map f l !! i = Some (f x).
Proof.
  revert i. induction l as [|a l IH]; intros [|i]; simpl; try discriminate.
  - now intros [= ->].
  - apply IH.
Qed.

Lemma email_key_setitem (d : dict) (k : string) (v : value) :
  k <> "Email" -> email_key (Dict.setitem d k v) = email_key d.
Proof. intros H. apply email_key_get. now apply get_setitem_ne. Qed.

Lemma one_per_email_keys (l l' : list dict) :
  map email_key l' = map email_key l -> one_per_email l -> one_per_email l'.
Proof.
  intros H [Hok Hnd].
  assert (forall m : list dict,
            forallb email_ok m
            = forallb (fun o : outcome string => match o with Ok _ => true | Raise _ => false end)
                (map email_key m)) as Hf.
  { induction m as [|x m IH]; simpl; [reflexivity|]. now rewrite IH. }
  assert (forall m : list dict,
            map key_of m
            = map (fun o : outcome string => match o with Ok k => k | Raise _ => EmptyString end)
                (map email_key m)) as Hm.
  { induction m as [|x m IH]; simpl; [reflexivity|]. now rewrite IH. }
  split.
  - now rewrite Hf, H, <- Hf.
  - now rewrite Hm, H, <- Hm.
Qed.

(** The e-mail keys after [upsert_lead]: the same place by place, or
    one more, which no record had. *)
Lemma upsert_lead_keys (env : Env) (l l' : list dict) (lead : dict) (w w' : World) :
  NoDup (Dict.keys lead) ->
  upsert_lead env l lead w = (Ok l', w') ->
  map email_key l' = map email_key l
  \/ (map email_key l' = map email_key l ++ [email_key lead]
      /\ ~ In (key_of lead) (map key_of l)).
Proof.
  intros Hnd H.
  apply upsert_lead_cases in H as [[Hf ->]|(i & x & Hf & Hx & ->)].
  - right. split; [|exact (find_by_email_None _ _ _ Hf)].
    rewrite map_app. simpl. now rewrite email_key_with_defaults.
  - left. destruct (find_by_email_Some _ _ _ _ Hf) as [_ (x0 & Hx0 & Hk & _)].
    rewrite Nat.sub_0_r, Hx in Hx0. injection Hx0 as <-.
    rewrite map_insert. rewrite email_key_merged.
    + apply list_insert_id. now apply map_lookup.
    + now apply NoDup_keys_with_defaults.
    + now rewrite email_key_with_defaults.
Qed.

Lemma one_per_email_snoc (l l' : list dict) (lead : dict) :
  one_per_email l -> email_ok lead = true ->
  map email_key l' = map email_key l ++ [email_key lead] ->
  ~ In (key_of lead) (map key_of l) ->
  one_per_email l'.
Proof.
  intros [Hok Hnd] Hlead Hk Hnew.
  apply (one_per_email_keys (l ++ [lead])); [now rewrite map_app|].
  split.
  - rewrite forallb_app, Hok. simpl. now rewrite Hlead.
  - rewrite map_app. apply NoDup_app. split; [exact Hnd|]. split.
    + intros k Hin Hin'. apply list_elem_of_In in Hin.
      apply list_elem_of_In in Hin'. destruct Hin' as [<-|[]]. contradiction.
    + apply (bool_decide_unpack _). reflexivity.
Qed.

Lemma upsert_lead_keeps_one (env : Env) (l l' : list dict) (lead : dict) (w w' : World) :
  one_per_email l -> email_ok lead = true -> NoDup (Dict.keys lead) ->
  upsert_lead env l lead w = (Ok l', w') -> one_per_email l'.
Proof.
  intros Hinv Hlead Hnd H.
  destruct (upsert_lead_keys env l l' lead w w' Hnd H) as [Hk|[Hk Hnew]].
  - exact (one_per_email_keys _ _ Hk Hinv).
  - exact (one_per_email_snoc _ _ _ Hinv Hlead Hk Hnew).
Qed.

Lemma returns_ret (A : Type) (P : A -> Prop) (a : A) : P a -> returns P (ret a).
Proof. intros H w a' w'. unfold ret. now intros [= <- _]. Qed.

Lemma returns_bind (A B : Type) (P : B -> Prop) (m : M A) (k : A -> M B) :
  (forall a, returns P (k a)) -> returns P (bind m k).
Proof.
  intros H w b w'. unfold bind. destruct (m w) as [[a|e] w1]; [apply H|discriminate].
Qed.

Section Keys.

Variable env : Env.
Variable K : list (outcome string).

Lemma kk_still (w w' : World) : leads w' = leads w -> keys_kept K w w'.
Proof. intros H. unfold keys_kept. now rewrite H. Qed.

Lemma kk_refl (w : World) : keys_kept K w w.
Proof. now intros H. Qed.

Lemma kk_trans (w1 w2 w3 : World) :
  keys_kept K w1 w2 -> keys_kept K w2 w3 -> keys_kept K w1 w3.
Proof. unfold keys_kept. auto. Qed.

Lemma kk_now_iso : keeps (keys_kept K) (now_iso env).
Proof. intros w. now apply kk_still. Qed.

Lemma kk_notify (msg : string) : keeps (keys_kept K) (notify env msg).
Proof. apply keeps_notify; [apply kk_trans|..]; intros; now apply kk_still. Qed.

Lemma kk_generate_proposal_md (lead cfg : dict) :
  keeps (keys_kept K) (generate_proposal_md env lead cfg).
Proof.
  apply keeps_generate_proposal_md; [apply kk_refl|apply kk_trans|..];
    intros; now apply kk_still.
Qed.

Lemma kk_save_proposal (company : value) (content : string) :
  keeps (keys_kept K) (save_proposal env company content).
Proof.
  apply keeps_save_proposal; [apply kk_refl|apply kk_trans|..];
    intros; now apply kk_still.
Qed.

Lemma kk_save_email (to_email : value) (subject html : string) (atts : list attachment) :
  keeps (keys_kept K) (save_email env to_email subject html atts).
Proof.
  apply keeps_save_email; [apply kk_refl|apply kk_trans|..];
    intros; now apply kk_still.
Qed.

Lemma kk_trigger_local_call (lead : dict) :
  keeps (keys_kept K) (trigger_local_call env lead).
Proof.
  apply keeps_trigger_local_call; [apply kk_refl|apply kk_trans|..];
    intros; now apply kk_still.
Qed.

Lemma kk_save : keeps (keys_kept K) (bind (gets leads) (fun l => save_leads l)).
Proof. intros w. now apply kk_still. Qed.

(** Writing a record with the key of its place keeps the keys. *)
Lemma kk_set_lead (i : nat) (y : dict) :
  K !! i = Some (email_key y) -> keeps (keys_kept K) (set_lead i y).
Proof.
  intros HK w Hw. cbn. rewrite map_insert, Hw. now apply list_insert_id.
Qed.

Lemma kk_bind (A B : Type) (m : M A) (k : A -> M B) :
  keeps (keys_kept K) m -> (forall a, keeps (keys_kept K) (k a)) ->
  keeps (keys_kept K) (bind m k).
Proof. apply keeps_bind, kk_trans. Qed.

(** The same when the continuation is only known to keep the keys for
    the results that [m] can give. *)
Lemma kk_bind_result (A B : Type) (P : A -> Prop) (m : M A) (k : A -> M B) :
  returns P m ->
  keeps (keys_kept K) m -> (forall a, P a -> keeps (keys_kept K) (k a)) ->
  keeps (keys_kept K) (bind m k).
Proof.
  intros HP Hm Hk w. unfold bind. specialize (Hm w). specialize (HP w).
  destruct (m w) as [[a|e] w1]; cbn [snd] in *; [|exact Hm].
  eapply kk_trans; [exact Hm|]. apply Hk. now apply (HP a w1).
Qed.

(** [auto_qualify] writes the record back with the key of its
    place. *)
Lemma kk_auto_qualify (i : nat) (lead : dict) (t : PyFloat.float) :
  K !! i = Some (email_key lead) -> keeps (keys_kept K) (auto_qualify env i lead t).
Proof.
  intros HK. unfold auto_qualify. apply kk_bind; [apply keeps_lift, kk_refl|]. intros b.
  apply kk_bind; [apply kk_now_iso|]. intros t0.
  apply kk_bind; [apply kk_set_lead; now rewrite !email_key_setitem by discriminate|].
  intros _. apply kk_bind; [|intros _; apply keeps_ret, kk_refl].
  destruct (PyFloat.ge b t); [|apply keeps_ret, kk_refl].
  apply kk_bind; [apply kk_trigger_local_call|]. intros _. apply keeps_ret, kk_refl.
Qed.

Lemma kk_auto_qualify_each (todo : list dict) (i : nat) (t : PyFloat.float) :
  (forall j x, todo !! j = Some x -> K !! (i + j) = Some (email_key x)) ->
  keeps (keys_kept K) (auto_qualify_each env todo i t).
Proof.
  revert i. induction todo as [|lead rest IH]; intros i HK; cbn [auto_qualify_each].
  - apply keeps_ret, kk_refl.
  - apply kk_bind.
    + apply kk_auto_qualify. rewrite <- (Nat.add_0_r i). now apply HK.
    + intros _. apply IH. intros j x Hx.
      replace (S i + j) with (i + S j) by lia. now apply HK.
Qed.

Lemma kk_auto_qualify_open (todo : list dict) (i : nat) (t : PyFloat.float) :
  (forall j x, todo !! j = Some x -> K !! (i + j) = Some (email_key x)) ->
  keeps (keys_kept K) (auto_qualify_open env todo i t).
Proof.
  revert i. induction todo as [|lead rest IH]; intros i HK; cbn [auto_qualify_open].
  - apply keeps_ret, kk_refl.
  - apply kk_bind.
    + destruct (Value.among (Dict.get lead "Status") ["New"; "Updated"]);
        [|apply keeps_ret, kk_refl].
      apply kk_bind; [|intros _; apply keeps_ret, kk_refl].
      apply kk_auto_qualify. rewrite <- (Nat.add_0_r i). now apply HK.
    + intros _. apply IH. intros j x Hx.
      replace (S i + j) with (i + S j) by lia. now apply HK.
Qed.

Lemma kk_on_no_answer (i : nat) (lead : dict) :
  K !! i = Some (email_key lead) -> keeps (keys_kept K) (on_no_answer env i lead).
Proof.
  intros HK. unfold on_no_answer. apply kk_bind.
  - apply kk_set_lead. now rewrite !email_key_setitem by discriminate.
  - intros _. apply kk_bind; [apply kk_save_email|]. intros _.
    apply kk_bind; [apply kk_notify|]. intros _. apply keeps_ret, kk_refl.
Qed.

Lemma kk_on_call_completed (i : nat) (lead : dict) (transcript : string) :
  K !! i = Some (email_key lead) ->
  keeps (keys_kept K) (on_call_completed env i lead transcript).
Proof.
  intros HK. unfold on_call_completed. apply kk_bind.
  - apply kk_set_lead. now rewrite !email_key_setitem by discriminate.
  - intros _. destruct (wants_proposal transcript).
    + apply keeps_gets_bind. intros w.
      apply kk_bind; [apply kk_generate_proposal_md|]. intros md.
      apply kk_bind; [apply kk_save_proposal|]. intros path.
      apply kk_bind.
      * apply kk_set_lead. now rewrite !email_key_setitem by discriminate.
      * intros _. apply kk_bind; [apply kk_save_email|]. intros _.
        apply kk_bind; [apply kk_notify|]. intros _. apply keeps_ret, kk_refl.
    + apply kk_bind; [apply kk_notify|]. intros _. apply keeps_ret, kk_refl.
Qed.

Lemma on_no_answer_key (i : nat) (lead : dict) :
  returns (fun lead' => email_key lead' = email_key lead) (on_no_answer env i lead).
Proof.
  unfold on_no_answer. do 3 (apply returns_bind; intros _).
  apply returns_ret. now rewrite !email_key_setitem by discriminate.
Qed.

Lemma on_call_completed_key (i : nat) (lead : dict) (transcript : string) :
  returns (fun lead' => email_key lead' = email_key lead)
    (on_call_completed env i lead transcript).
Proof.
  unfold on_call_completed. apply returns_bind. intros _.
  destruct (wants_proposal transcript).
  - apply returns_bind. intros cfg. apply returns_bind. intros md.
    apply returns_bind. intros path. do 3 (apply returns_bind; intros _).
    apply returns_ret. now rewrite !email_key_setitem by discriminate.
  - apply returns_bind. intros _. apply returns_ret.
    now rewrite !email_key_setitem by discriminate.
Qed.

End Keys.
Lemma keys_kept_one (w w' : World) :
  keys_kept (map email_key (leads w)) w w' ->
  one_per_email (leads w) -> one_per_email (leads w').
Proof.
  intros H Hinv. apply (one_per_email_keys (leads w)); [|exact Hinv]. now apply H.
Qed.

Lemma leads_after_upsert (env : Env) (l : list dict) (lead : dict) (w : World) :
  leads (snd (upsert_lead env l lead w)) = leads w.
Proof.
  rewrite upsert_lead_run.
  destruct (find_by_email l lead 0) as [[i|]|e]; [|reflexivity|reflexivity].
  destruct (l !! i); reflexivity.
Qed.

(** The session after [upsert_lead] on its leads, with the result
    written back. *)
Lemma upsert_into_session (env : Env) (lead : dict) (w : World) :
  one_per_email (leads w) -> email_ok lead = true -> NoDup (Dict.keys lead) ->
  one_per_email
    (leads (snd (bind (upsert_lead env (leads w) lead)
                   (fun l' => modify (with_leads l')) w))).
Proof.
  intros Hinv Hok Hnd. unfold bind.
  pose proof (leads_after_upsert env (leads w) lead w) as Hsame.
  destruct (upsert_lead env (leads w) lead w) as [[l'|e] w1] eqn:Hu; cbn [snd] in *.
  - cbn. exact (upsert_lead_keeps_one env _ _ _ _ _ Hinv Hok Hnd Hu).
  - now rewrite Hsame.
Qed.

Lemma one_save_lead_clicked (env : Env) (name email company use_case phone : string)
    (budget : PyFloat.float) (w : World) :
  one_per_email (leads w) ->
  one_per_email
    (leads (snd (save_lead_clicked env name email company use_case phone budget w))).
Proof.
  intros Hinv. unfold save_lead_clicked. destruct email as [|c email]; [exact Hinv|].
  unfold bind at 1. unfold now_iso at 1. unfold bind at 1. unfold gets at 1.
  cbn [leads with_clock_reads].
  set (w0 := with_clock_reads (S (clock_reads w)) w).
  set (cand := [ ("Name", VStr name); ("Email", VStr (String c email));
                 ("Company", VStr company); ("UseCase", VStr use_case);
                 ("Budget", VFloat budget); ("Phone", VStr phone);
                 ("Status", VStr "New");
                 ("LastActionAt", VStr (utc_iso env (clock_reads w))) ]).
  assert (NoDup (Dict.keys cand)) as Hnd by (apply (bool_decide_unpack _); reflexivity).
  pose proof (upsert_into_session env cand w0 Hinv eq_refl Hnd) as H.
  revert H. unfold bind. change (leads w0) with (leads w).
  destruct (upsert_lead env (leads w) cand w0) as [[l'|e] w1]; cbn; auto.
Qed.

Lemma one_import_row (env : Env) (row : csv_row) (w : World) :
  one_per_email (leads w) -> one_per_email (leads (snd (import_row env row w))).
Proof.
  intros Hinv. unfold import_row. unfold bind at 1. unfold lift at 1.
  destruct (normalize_row row) as [norm|] eqn:Hn; [|exact Hinv].
  unfold bind at 1. unfold lift at 1.
  destruct (Value.to_float _) as [b|]; [|exact Hinv].
  unfold bind at 1. unfold now_iso at 1.
  set (w0 := with_clock_reads (S (clock_reads w)) w).
  destruct (Value.truthy (Value.por (Dict.get norm "email") (VStr ""))) eqn:Ht;
    [|exact Hinv].
  unfold bind at 1. unfold gets at 1. change (leads w0) with (leads w).
  match goal with
  | |- context [upsert_lead env (leads w) ?c] => set (cand := c)
  end.
  assert (NoDup (Dict.keys cand)) as Hnd by (apply (bool_decide_unpack _); reflexivity).
  assert (email_ok cand = true) as Hok.
  { unfold email_ok, email_key.
    change (Dict.get cand "Email") with (Value.por (Dict.get norm "email") (VStr "")).
    pose proof (normalize_row_values row norm "email" Hn) as Hv.
    destruct (Dict.get norm "email") as [|?|?|?|s]; cbn in Hv; try discriminate Hv;
      [reflexivity|].
    destruct s; reflexivity. }
  pose proof (upsert_into_session env cand w0 Hinv Hok Hnd) as H.
  revert H. unfold bind. change (leads w0) with (leads w).
  destruct (upsert_lead env (leads w) cand w0) as [[l'|e] w1]; cbn; auto.
Qed.

Lemma one_import_rows (env : Env) (rows : list csv_row) (count : nat) (w : World) :
  one_per_email (leads w) ->
  one_per_email (leads (snd (import_rows env rows count w))).
Proof.
  revert count w. induction rows as [|row rest IH]; intros count w Hinv;
    cbn [import_rows]; [exact Hinv|].
  unfold bind. pose proof (one_import_row env row w Hinv) as H.
  destruct (import_row env row w) as [[c|e] w1]; cbn [snd] in *; [|exact H].
  now apply IH.
Qed.

Lemma one_csv_uploaded (env : Env) (rows : list csv_row) (w : World) :
  one_per_email (leads w) ->
  one_per_email (leads (snd (bind (csv_uploaded env rows) (fun _ => ret tt) w))).
Proof.
  intros Hinv. pose proof (one_import_rows env rows 0 w Hinv) as H. revert H.
  unfold csv_uploaded, bind, gets, save_leads, modify, ret.
  destruct (import_rows env rows 0 w) as [[n|e] w1]; cbn; auto.
Qed.

Lemma kk_auto_qualify_all_clicked (env : Env) (t : PyFloat.float) (w : World) :
  keys_kept (map email_key (leads w)) w (snd (auto_qualify_all_clicked env t w)).
Proof.
  unfold auto_qualify_all_clicked.
  match goal with
  | |- context [bind (gets leads) ?k w] =>
      change (bind (gets leads) k w) with (k (leads w) w)
  end.
  cbv beta. apply kk_bind.
  - apply kk_auto_qualify_each. intros j x Hx. now apply map_lookup.
  - intros _. apply kk_save.
Qed.

Lemma kk_auto_qualify_imported_clicked (env : Env) (t : PyFloat.float) (w : World) :
  keys_kept (map email_key (leads w)) w (snd (auto_qualify_imported_clicked env t w)).
Proof.
  unfold auto_qualify_imported_clicked.
  match goal with
  | |- context [bind (gets leads) ?k w] =>
      change (bind (gets leads) k w) with (k (leads w) w)
  end.
  cbv beta. apply kk_bind.
  - apply kk_auto_qualify_open. intros j x Hx. now apply map_lookup.
  - intros _. apply kk_save.
Qed.

Lemma kk_trigger_call_clicked (env : Env) (target : string) (w : World) :
  keys_kept (map email_key (leads w)) w (snd (trigger_call_clicked env target w)).
Proof.
  unfold trigger_call_clicked.
  match goal with
  | |- context [bind (gets leads) ?k w] =>
      change (bind (gets leads) k w) with (k (leads w) w)
  end.
  cbv beta. unfold bind at 1. unfold lift.
  destruct (find_by_key (leads w) (Text.lower target) 0) as [[i|]|e]; try apply kk_refl.
  destruct (leads w !! i) as [found|]; [|apply kk_refl].
  destruct (Dict.truthy found); cbn [negb]; [|apply kk_refl].
  apply kk_bind; [apply kk_trigger_local_call|]. intros _. apply kk_save.
Qed.

Lemma kk_generate_proposal_clicked (env : Env) (em : string) (w : World) :
  keys_kept (map email_key (leads w)) w (snd (generate_proposal_clicked env em w)).
Proof.
  unfold generate_proposal_clicked.
  match goal with
  | |- context [bind (gets leads) ?k w] =>
      change (bind (gets leads) k w) with (k (leads w) w)
  end.
  cbv beta. unfold bind at 1. unfold lift.
  destruct (find_by_key (leads w) (Text.lower em) 0) as [[i|]|e]; try apply kk_refl.
  destruct (leads w !! i) as [lead|] eqn:Hi; [|apply kk_refl].
  destruct (Dict.truthy lead); cbn [negb]; [|apply kk_refl].
  pose proof (map_lookup email_key _ _ _ Hi) as HK.
  remember (map email_key (leads w)) as K eqn:EK. clear EK Hi.
  match goal with
  | |- keys_kept K w (snd (?m w)) => assert (keeps (keys_kept K) m) as Hm; [|exact (Hm w)]
  end.
  apply keeps_gets_bind. clear w. intros w.
  apply kk_bind; [apply kk_generate_proposal_md|]. intros md.
  apply kk_bind; [apply kk_save_proposal|]. intros path.
  apply kk_bind.
  - apply kk_set_lead. now rewrite !email_key_setitem by discriminate.
  - intros _. apply kk_bind; [apply kk_save_email|]. intros _. apply kk_save.
Qed.

Lemma kk_send_event_clicked (env : Env) (em : value) (event_type transcript : string)
    (w : World) :
  keys_kept (map email_key (leads w)) w
    (snd (send_event_clicked env em event_type transcript w)).
Proof.
  unfold send_event_clicked.
  destruct (Value.eqb em (VStr "-")); [apply kk_refl|].
  match goal with
  | |- context [bind (gets leads) ?k w] =>
      change (bind (gets leads) k w) with (k (leads w) w)
  end.
  cbv beta.
  destruct (find_by_value (leads w) em 0) as [i|]; [|apply kk_refl].
  destruct (leads w !! i) as [lead|] eqn:Hi; [|apply kk_refl].
  destruct (Dict.truthy lead); cbn [negb]; [|apply kk_refl].
  pose proof (map_lookup email_key _ _ _ Hi) as HK.
  remember (map email_key (leads w)) as K eqn:EK. clear EK Hi.
  match goal with
  | |- keys_kept K w (snd (?m w)) => assert (keeps (keys_kept K) m) as Hm; [|exact (Hm w)]
  end.
  apply (kk_bind_result K _ _ (fun lead1 => email_key lead1 = email_key lead)).
  - destruct (existsb _ _); [apply on_no_answer_key|apply on_call_completed_key].
  - destruct (existsb _ _); [now apply kk_on_no_answer|now apply kk_on_call_completed].
  - intros lead1 Hk. apply kk_bind; [apply kk_now_iso|]. intros t.
    apply kk_bind.
    + apply kk_set_lead. rewrite email_key_setitem by discriminate. now rewrite Hk.
    + intros _. apply kk_save.
Qed.

Lemma one_run (env : Env) (a : action) (w : World) :
  one_per_email (leads w) -> one_per_email (leads (snd (run env a w))).
Proof.
  intros Hinv. destruct a; cbn [run].
  - now apply one_save_lead_clicked.
  - exact (keys_kept_one _ _ (kk_auto_qualify_all_clicked env _ w) Hinv).
  - exact (keys_kept_one _ _ (kk_trigger_call_clicked env _ w) Hinv).
  - exact (keys_kept_one _ _ (kk_generate_proposal_clicked env _ w) Hinv).
  - now apply one_csv_uploaded.
  - exact (keys_kept_one _ _ (kk_auto_qualify_imported_clicked env _ w) Hinv).
  - now rewrite (proj1 (trigger_simulated_call_clicked_frame env sel w)).
  - exact (keys_kept_one _ _ (kk_send_event_clicked env _ _ _ w) Hinv).
Qed.

(** X25.  One record per e-mail, for the whole session: when the
    e-mail key of every record of the session can be computed and no
    two records have the same key, this is still so after any
    sequence of blocks of the interface, whether they return or
    raise.  The blocks that add a record add it only for a key that
    no record has, and the blocks that change a record leave its
    Email alone. *)
Theorem run_all_one_per_email (env : Env) (actions : list action) (w : World) :
  one_per_email (leads w) -> one_per_email (leads (run_all env actions w)).
Proof.
  revert w. induction actions as [|a rest IH]; intros w Hinv; cbn [run_all]; [exact Hinv|].
  apply IH. now apply one_run.
Qed.

Lemma run_all_one_per_email_witness :
  one_per_email (leads (Demo.world [Demo.ann; Demo.jane]))
  /\ one_per_email
       (leads (run_all Demo.env
                 [ UploadCsv [Demo.row_no_budget; Demo.row_in_words];
                   SaveLead "Bob" "bob@shop.example" "Shop" "" "" (PyFloat.of_Z 500);
                   AutoQualifyAll (PyFloat.of_Z 10000);
                   SendEvent (VStr "jane@acme.com") "call.completed" "yes please" ]
                 (Demo.world [Demo.ann; Demo.jane]))).
Proof.
  assert (one_per_email (leads (Demo.world [Demo.ann; Demo.jane]))) as H.
  { split; [reflexivity|]. apply (bool_decide_unpack _). vm_compute. reflexivity. }
  split; [exact H|].
  exact (run_all_one_per_email Demo.env _ (Demo.world [Demo.ann; Demo.jane]) H).
Defined.
